(** * Iterated Prisoner's Dilemma: the adaptive decision core

    A shallow embedding of [ai.py] (the strategy analyzer, the adaptive
    agent and the scripted opponents) and of the round logic of
    [advanced_prisoners_dilemma.py] (payoff table, [play_round],
    [end_game]), followed by the properties established about them.

    Modelling conventions.
    - A Python [str] is a [string]; a move is the string "C" or "D".
    - A Python [float] is an exact rational ([Q]); rounding is not
      modelled.
    - A Python exception is the [Raise] constructor of [res].
    - The module-level generator [random] is a stream of the values that
      successive calls of [random.random()] return; it is threaded through
      every function that draws from it. *)

From Stdlib Require Import ZArith QArith Qminmax Qabs Qround Lqa.
From Stdlib Require Import List Ascii String Lia Bool.
From stdpp Require Import base gmap strings list fin_maps.

Open Scope string_scope.

(** ** Exceptions and results *)

Inductive exn : Set :=
  | ZeroDivisionError
  | IndexError
  | KeyError
  | ValueError.

Inductive res (A : Type) : Type :=
  | Ok (a : A)
  | Raise (e : exn).

Arguments Ok {A} a.
Arguments Raise {A} e.

Definition bind {A B : Type} (m : res A) (k : A -> res B) : res B :=
  match m with
  | Ok a => k a
  | Raise e => Raise e
  end.

Notation "x <- m ;; k" := (bind m (fun x => k))
  (at level 100, m at next level, right associativity).

Definition returns {A : Type} (m : res A) (P : A -> Prop) : Prop :=
  exists a, m = Ok a /\ P a.

(** ** Numbers *)

Definition Qnat (n : nat) : Q := inject_Z (Z.of_nat n).

Definition Qltb (x y : Q) : bool := negb (Qle_bool y x).
Definition Qgtb (x y : Q) : bool := Qltb y x.

(** Python's [/] on numbers. *)
Definition truediv (a b : Q) : res Q :=
  if Qeq_bool b 0 then Raise ZeroDivisionError else Ok (a / b)%Q.

(** ** Lists and strings *)

(** [l[-n:]] *)
Definition lastn {A : Type} (n : nat) (l : list A) : list A :=
  skipn (length l - n) l.

(** [l[-1]] *)
Definition getlast {A : Type} (l : list A) : res A :=
  match rev l with
  | [] => Raise IndexError
  | x :: _ => Ok x
  end.

(** [l.count(x)] *)
Definition count (x : string) (l : list string) : nat :=
  count_occ string_dec l x.

(** [''.join(l)] *)
Definition join (l : list string) : string := String.concat "" l.

Definition is_move (s : string) : Prop := s = "C" \/ s = "D".

(** [l.count('C') / len(l)] *)
Definition coop_fraction (l : list string) : res Q :=
  truediv (Qnat (count "C" l)) (Qnat (length l)).

(** [l[-3:].count('C') / min(3, len(l))] *)
Definition recent_fraction (l : list string) : res Q :=
  truediv (Qnat (count "C" (lastn 3 l))) (Qnat (Nat.min 3 (length l))).

(** ** Insertion-ordered dictionaries

    Used where the source iterates over a dict or takes [max] over its
    keys, so that the order of the keys decides the result. *)

Section Dict.
Context {V : Type}.

Fixpoint dict_get (d : list (string * V)) (k : string) : res V :=
  match d with
  | [] => Raise KeyError
  | (k', v) :: d' => if String.eqb k' k then Ok v else dict_get d' k
  end.

(** [d[k] = v] for a key already present keeps the key's position. *)
Fixpoint dict_set (d : list (string * V)) (k : string) (v : V) : list (string * V) :=
  match d with
  | [] => [(k, v)]
  | (k', v') :: d' =>
      if String.eqb k' k then (k, v) :: d' else (k', v') :: dict_set d' k v
  end.

Variable ltb : V -> V -> bool.

(** [max(d, key=d.get)]: the first key whose value no later value
    exceeds; the running best is replaced only by a strictly greater
    value. *)
Fixpoint max_from (best : string * V) (d : list (string * V)) : string :=
  match d with
  | [] => fst best
  | kv :: d' => max_from (if ltb (snd best) (snd kv) then kv else best) d'
  end.

Definition max_key (d : list (string * V)) : res string :=
  match d with
  | [] => Raise ValueError
  | kv :: d' => Ok (max_from kv d')
  end.
End Dict.

(** ** The random module *)

Definition Rng : Type := nat -> Q.

(** [random.random()] *)
Definition random (r : Rng) : Q * Rng := (r 0%nat, fun n => r (S n)).

(** [random.randint(a, b)], by scaling one uniform draw. *)
Definition randint (a b : Z) (r : Rng) : Z * Rng :=
  let (u, r') := random r in
  (Z.min b (Z.max a (a + Qfloor (u * inject_Z (b - a + 1)))), r').

(** [random.choice(['C', 'D'])] *)
Definition choice_CD (r : Rng) : string * Rng :=
  let (u, r') := random r in
  (if Qltb u (1 # 2) then "C" else "D", r').

Fixpoint accumulate (acc : Q) (ws : list Q) : list Q :=
  match ws with
  | [] => []
  | w :: ws' => (acc + w)%Q :: accumulate (acc + w)%Q ws'
  end.

(** [bisect(a, x, 0, hi)] on a non-decreasing list. *)
Fixpoint bisect (a : list Q) (x : Q) (hi : nat) : nat :=
  match hi, a with
  | S hi', c :: a' => if Qle_bool c x then S (bisect a' x hi') else 0%nat
  | _, _ => 0%nat
  end.

(** [random.choices(population, weights=weights)[0]] *)
Definition choices (population : list string) (weights : list Q) (r : Rng)
  : res (string * Rng) :=
  let cum := accumulate 0 weights in
  total <- getlast cum ;;
  if Qle_bool total 0 then Raise ValueError
  else
    let (u, r') := random r in
    match nth_error population
            (bisect cum (u * total)%Q (length population - 1)) with
    | Some s => Ok (s, r')
    | None => Raise IndexError
    end.

(** ** AdvancedStrategyAnalyzer *)

(** One entry of the ledger: [{"wins": w, "uses": u}]. *)
Record perf : Set := { wins : Z; uses : Z }.

Module AdvancedStrategyAnalyzer.

Record t : Type := {
  available_strategies : list string;
  current_strategy : string;
  opponent_pattern : list string;
  strategy_performance : gmap string perf;
  analysis_accuracy : Q;
  pattern_memory : Z;
  confidence_threshold : Q
}.

Definition strategy_names : list string :=
  ["minimax"; "fuzzy"; "tit_for_tat"; "adaptive"; "pattern_matcher"; "bayesian"].

(** [__init__] *)
Definition init : t := {|
  available_strategies := strategy_names;
  current_strategy := "minimax";
  opponent_pattern := [];
  strategy_performance :=
    list_to_map (map (fun s => (s, {| wins := 0; uses := 0 |})) strategy_names);
  analysis_accuracy := 0.85;
  pattern_memory := 15;
  confidence_threshold := 0.7
|}.

Definition performance_of (p : gmap string perf) (strategy : string) : res perf :=
  match p !! strategy with
  | Some e => Ok e
  | None => Raise KeyError
  end.

(** [strategy_performance[s]["wins"] / max(1, strategy_performance[s]["uses"])] *)
Definition success_rate (p : gmap string perf) (strategy : string) : res Q :=
  e <- performance_of p strategy ;;
  truediv (inject_Z (wins e)) (inject_Z (Z.max 1 (uses e))).

(** The strings [opp_history[i-1] + opp_history[i]] for [i] from 1. *)
Fixpoint transitions (h : list string) : list string :=
  match h with
  | a :: (b :: _) as h' => (a ++ b) :: transitions h'
  | _ => []
  end.

Definition calculate_pattern_consistency (opp_history : list string) : res Q :=
  if (length opp_history <? 3)%nat then Ok 0.5%Q
  else
    let trs := transitions opp_history in
    let unique_transitions := size (list_to_set trs : gset string) in
    let max_possible := Nat.min 4 (length trs) in
    q <- truediv (Qnat unique_transitions) (Qnat max_possible) ;;
    Ok (1 - q)%Q.

Definition calculate_analysis_confidence (opp_history : list string) : res Q :=
  if (length opp_history <? 5)%nat then Ok 0.5%Q
  else
    consistency <- calculate_pattern_consistency opp_history ;;
    data_quality <- (q <- truediv (Qnat (length opp_history)) 20 ;; Ok (Qmin 1 q)) ;;
    truediv (consistency + data_quality)%Q 2.

Fixpoint strategy_weights (p : gmap string perf) (ss : list string) : res (list Q) :=
  match ss with
  | [] => Ok []
  | s :: ss' =>
      rate <- success_rate p s ;;
      ws <- strategy_weights p ss' ;;
      Ok ((0.1 + rate)%Q :: ws)
  end.

Definition get_weighted_random_strategy (self : t) (r : Rng) : res (string * Rng) :=
  weights <- strategy_weights (strategy_performance self) (available_strategies self) ;;
  choices (available_strategies self) weights r.

(** The loop [for strategy in strategy_scores: strategy_scores[strategy] *= ...]. *)
Fixpoint reweigh (p : gmap string perf) (scores : list (string * Q))
  : res (list (string * Q)) :=
  match scores with
  | [] => Ok []
  | (s, v) :: scores' =>
      rate <- success_rate p s ;;
      rest <- reweigh p scores' ;;
      Ok ((s, v * (0.5 + rate))%Q :: rest)
  end.

Definition analyze_opponent (self : t) (opp_history : list string)
    (my_score opp_score : Z) (r : Rng) : res (string * Rng) :=
  if (length opp_history <? 3)%nat then Ok ("minimax", r)
  else
    analysis_confidence <- calculate_analysis_confidence opp_history ;;
    let (u, r1) := random r in
    if Qgtb u (analysis_accuracy self * analysis_confidence)%Q
    then get_weighted_random_strategy self r1
    else
      coop_rate <- coop_fraction opp_history ;;
      recent_coop <- recent_fraction opp_history ;;
      pattern_consistency <- calculate_pattern_consistency opp_history ;;
      let score_differential := (my_score - opp_score)%Z in
      let strategy_scores : list (string * Q) :=
        if Qgtb coop_rate 0.8 && Qgtb pattern_consistency 0.7 then
          [("pattern_matcher", 0.9%Q); ("adaptive", 0.6%Q)]
        else if Qltb coop_rate 0.2 && Qgtb pattern_consistency 0.6 then
          [("minimax", 0.9%Q); ("bayesian", 0.7%Q)]
        else if Qltb pattern_consistency 0.4 then
          [("adaptive", 0.8%Q); ("fuzzy", 0.7%Q)]
        else if Qltb (Qabs (coop_rate - 0.5)) 0.2 && (score_differential <? -5)%Z then
          [("minimax", 0.8%Q); ("pattern_matcher", 0.6%Q)]
        else
          [("adaptive", 0.7%Q); ("bayesian", 0.6%Q)] in
      strategy_scores <- reweigh (strategy_performance self) strategy_scores ;;
      best_strategy <- max_key Qltb strategy_scores ;;
      Ok (best_strategy, r1).

Definition set_strategy_performance (self : t) (p : gmap string perf) : t := {|
  available_strategies := available_strategies self;
  current_strategy := current_strategy self;
  opponent_pattern := opponent_pattern self;
  strategy_performance := p;
  analysis_accuracy := analysis_accuracy self;
  pattern_memory := pattern_memory self;
  confidence_threshold := confidence_threshold self
|}.

(** The two updates of [record_strategy_performance] on the ledger. *)
Definition record (p : gmap string perf) (strategy : string) (won_round : bool)
  : res (gmap string perf) :=
  e <- performance_of p strategy ;;
  let p1 := <[strategy := {| wins := wins e; uses := uses e + 1 |}]> p in
  if won_round then
    e1 <- performance_of p1 strategy ;;
    Ok (<[strategy := {| wins := wins e1 + 1; uses := uses e1 |}]> p1)
  else Ok p1.

Definition record_strategy_performance (self : t) (strategy : string)
    (won_round : bool) : res t :=
  p <- record (strategy_performance self) strategy won_round ;;
  Ok (set_strategy_performance self p).

End AdvancedStrategyAnalyzer.

(** ** PowerfulAdaptiveAI *)

Module PowerfulAdaptiveAI.

Record t : Type := {
  name : string;
  analyzer : AdvancedStrategyAnalyzer.t;
  my_history : list string;
  opp_history : list string;
  current_strategy : string;
  strategy_change_cooldown : Z;
  learning_rate : Q;
  prediction_accuracy : Q;
  risk_tolerance : Q;
  consecutive_losses : Z;
  aggression_level : Q;
  pattern_memory : list string;
  bayesian_prior : Q
}.

(** [__init__] *)
Definition init : t := {|
  name := "Adaptive AI";
  analyzer := AdvancedStrategyAnalyzer.init;
  my_history := [];
  opp_history := [];
  current_strategy := "minimax";
  strategy_change_cooldown := 0;
  learning_rate := 0.85;
  prediction_accuracy := 0.88;
  risk_tolerance := 0.4;
  consecutive_losses := 0;
  aggression_level := 0.3;
  pattern_memory := [];
  bayesian_prior := 0.5
|}.

(** Attribute assignments [self.f = v]. *)
Definition set_analyzer (self : t) (v : AdvancedStrategyAnalyzer.t) : t :=
  {| name := name self; analyzer := v; my_history := my_history self;
     opp_history := opp_history self; current_strategy := current_strategy self;
     strategy_change_cooldown := strategy_change_cooldown self;
     learning_rate := learning_rate self;
     prediction_accuracy := prediction_accuracy self;
     risk_tolerance := risk_tolerance self;
     consecutive_losses := consecutive_losses self;
     aggression_level := aggression_level self;
     pattern_memory := pattern_memory self; bayesian_prior := bayesian_prior self |}.

Definition set_my_history (self : t) (v : list string) : t :=
  {| name := name self; analyzer := analyzer self; my_history := v;
     opp_history := opp_history self; current_strategy := current_strategy self;
     strategy_change_cooldown := strategy_change_cooldown self;
     learning_rate := learning_rate self;
     prediction_accuracy := prediction_accuracy self;
     risk_tolerance := risk_tolerance self;
     consecutive_losses := consecutive_losses self;
     aggression_level := aggression_level self;
     pattern_memory := pattern_memory self; bayesian_prior := bayesian_prior self |}.

Definition set_opp_history (self : t) (v : list string) : t :=
  {| name := name self; analyzer := analyzer self; my_history := my_history self;
     opp_history := v; current_strategy := current_strategy self;
     strategy_change_cooldown := strategy_change_cooldown self;
     learning_rate := learning_rate self;
     prediction_accuracy := prediction_accuracy self;
     risk_tolerance := risk_tolerance self;
     consecutive_losses := consecutive_losses self;
     aggression_level := aggression_level self;
     pattern_memory := pattern_memory self; bayesian_prior := bayesian_prior self |}.

Definition set_current_strategy (self : t) (v : string) : t :=
  {| name := name self; analyzer := analyzer self; my_history := my_history self;
     opp_history := opp_history self; current_strategy := v;
     strategy_change_cooldown := strategy_change_cooldown self;
     learning_rate := learning_rate self;
     prediction_accuracy := prediction_accuracy self;
     risk_tolerance := risk_tolerance self;
     consecutive_losses := consecutive_losses self;
     aggression_level := aggression_level self;
     pattern_memory := pattern_memory self; bayesian_prior := bayesian_prior self |}.

Definition set_strategy_change_cooldown (self : t) (v : Z) : t :=
  {| name := name self; analyzer := analyzer self; my_history := my_history self;
     opp_history := opp_history self; current_strategy := current_strategy self;
     strategy_change_cooldown := v;
     learning_rate := learning_rate self;
     prediction_accuracy := prediction_accuracy self;
     risk_tolerance := risk_tolerance self;
     consecutive_losses := consecutive_losses self;
     aggression_level := aggression_level self;
     pattern_memory := pattern_memory self; bayesian_prior := bayesian_prior self |}.

Definition set_consecutive_losses (self : t) (v : Z) : t :=
  {| name := name self; analyzer := analyzer self; my_history := my_history self;
     opp_history := opp_history self; current_strategy := current_strategy self;
     strategy_change_cooldown := strategy_change_cooldown self;
     learning_rate := learning_rate self;
     prediction_accuracy := prediction_accuracy self;
     risk_tolerance := risk_tolerance self;
     consecutive_losses := v;
     aggression_level := aggression_level self;
     pattern_memory := pattern_memory self; bayesian_prior := bayesian_prior self |}.

Definition set_aggression_level (self : t) (v : Q) : t :=
  {| name := name self; analyzer := analyzer self; my_history := my_history self;
     opp_history := opp_history self; current_strategy := current_strategy self;
     strategy_change_cooldown := strategy_change_cooldown self;
     learning_rate := learning_rate self;
     prediction_accuracy := prediction_accuracy self;
     risk_tolerance := risk_tolerance self;
     consecutive_losses := consecutive_losses self;
     aggression_level := v;
     pattern_memory := pattern_memory self; bayesian_prior := bayesian_prior self |}.

Definition set_bayesian_prior (self : t) (v : Q) : t :=
  {| name := name self; analyzer := analyzer self; my_history := my_history self;
     opp_history := opp_history self; current_strategy := current_strategy self;
     strategy_change_cooldown := strategy_change_cooldown self;
     learning_rate := learning_rate self;
     prediction_accuracy := prediction_accuracy self;
     risk_tolerance := risk_tolerance self;
     consecutive_losses := consecutive_losses self;
     aggression_level := aggression_level self;
     pattern_memory := pattern_memory self; bayesian_prior := v |}.

Definition update_bayesian_prior (self : t) (move : string) : t :=
  if String.eqb move "C" then
    set_bayesian_prior self (Qmin 0.95 (bayesian_prior self * 1.1))
  else
    set_bayesian_prior self (Qmax 0.05 (bayesian_prior self * 0.9)).

Definition minimax_decision (self : t) : res string :=
  match opp_history self with
  | [] => Ok "C"
  | _ =>
      coop_rate <- coop_fraction (opp_history self) ;;
      recent_trend <- recent_fraction (opp_history self) ;;
      let weighted_coop := (coop_rate * 0.4 + recent_trend * 0.6)%Q in
      let risk_adjustment := (1 - risk_tolerance self)%Q in
      let ev_coop := (weighted_coop * 3 + (1 - weighted_coop) * 0)%Q in
      let ev_defect :=
        (weighted_coop * 5 * risk_adjustment + (1 - weighted_coop) * 1)%Q in
      ev_defect <-
        (if (10 <? length (my_history self))%nat then
           score_ratio <- truediv (Qnat (count "D" (my_history self)))
                                  (Qnat (length (my_history self))) ;;
           Ok (if Qgtb score_ratio 0.7 then (ev_defect * 0.9)%Q else ev_defect)
         else Ok ev_defect) ;;
      Ok (if Qgtb ev_coop ev_defect then "C" else "D")
  end.

(** The posterior's denominator in [bayesian_decision]. *)
Definition posterior_denominator (likelihood prior : Q) : Q :=
  (likelihood * prior + (1 - likelihood) * (1 - prior))%Q.

Definition bayesian_decision (self : t) : res string :=
  match opp_history self with
  | [] => Ok "C"
  | _ =>
      recent_coop <- recent_fraction (opp_history self) ;;
      evidence_strength <-
        (q <- truediv (Qnat (length (opp_history self))) 10 ;; Ok (Qmin 1 q)) ;;
      let likelihood := recent_coop in
      posterior <- truediv (likelihood * bayesian_prior self)%Q
                     (posterior_denominator likelihood (bayesian_prior self)) ;;
      let confidence := (Qabs (posterior - 0.5) * 2)%Q in
      if Qgtb confidence 0.6 then
        Ok (if Qgtb posterior 0.5 then "C" else "D")
      else minimax_decision self
  end.

(** The loop of [markov_prediction]: for [i] from 2, the window
    [h[i-2:i]] is compared with the state and [h[i]] is tallied. *)
Fixpoint tally (h : list string) (current_state : string)
    (transitions : list (string * Z)) : res (list (string * Z)) :=
  match h with
  | a :: (b :: next_move :: _) as h' =>
      if String.eqb (join [a; b]) current_state then
        n <- dict_get transitions next_move ;;
        tally h' current_state (dict_set transitions next_move (n + 1)%Z)
      else tally h' current_state transitions
  | _ => Ok transitions
  end.

Definition markov_prediction (self : t) : res string :=
  if (length (opp_history self) <? 3)%nat then minimax_decision self
  else
    let current_state := join (lastn 2 (opp_history self)) in
    transitions <- tally (opp_history self) current_state [("C", 0%Z); ("D", 0%Z)] ;;
    let total := fold_right Z.add 0%Z (map snd transitions) in
    if (total =? 0)%Z then minimax_decision self
    else
      predicted_move <- max_key Z.ltb transitions ;;
      Ok (if String.eqb predicted_move "C" then "D" else "C").

Definition pattern_matcher_decision (self : t) : res string :=
  if (length (opp_history self) <? 4)%nat then minimax_decision self
  else
    let recent_pattern := join (lastn 4 (opp_history self)) in
    last <- getlast (opp_history self) ;;
    let pattern_responses :=
      [("CCCC", "D"); ("DDDD", "C"); ("CDCD", last);
       ("DCDC", last); ("CCDC", "D"); ("DDCD", "C")] in
    match dict_get pattern_responses recent_pattern with
    | Ok response => Ok response
    | Raise _ => markov_prediction self
    end.

Definition tit_for_tat_decision (self : t) (r : Rng) : res (string * Rng) :=
  match opp_history self with
  | [] => Ok ("C", r)
  | _ =>
      last <- getlast (opp_history self) ;;
      if String.eqb last "D" then
        overall_coop <- coop_fraction (opp_history self) ;;
        let forgiveness_prob := (0.1 + overall_coop * 0.3)%Q in
        let (u, r') := random r in
        if Qltb u forgiveness_prob then Ok ("C", r')
        else Ok (last, r')
      else Ok (last, r)
  end.

Definition fuzzy_decision (self : t) (r : Rng) : res (string * Rng) :=
  match opp_history self with
  | [] => Ok ("C", r)
  | _ =>
      coop_rate <- coop_fraction (opp_history self) ;;
      recent_trend <- recent_fraction (opp_history self) ;;
      consistency <-
        AdvancedStrategyAnalyzer.calculate_pattern_consistency (opp_history self) ;;
      if Qgtb coop_rate 0.8 && Qgtb recent_trend 0.6 then
        let (u, r') := random r in
        Ok (if Qltb u 0.9 then "C" else "D", r')
      else if Qltb coop_rate 0.2 && Qltb recent_trend 0.4 then
        let (u, r') := random r in
        Ok (if Qltb u 0.9 then "D" else "C", r')
      else if Qgtb consistency 0.7 then
        m <- pattern_matcher_decision self ;; Ok (m, r)
      else if Qltb (Qabs (coop_rate - 0.5)) 0.3 && Qltb consistency 0.4 then
        tit_for_tat_decision self r
      else
        m <- bayesian_decision self ;; Ok (m, r)
  end.

Definition payoff_points (my_move opp_move : string) : Z :=
  if String.eqb my_move "C" && String.eqb opp_move "C" then 3
  else if String.eqb my_move "C" && String.eqb opp_move "D" then 0
  else if String.eqb my_move "D" && String.eqb opp_move "C" then 5
  else 1.

(** [for i in range(len(my_history))]: both histories are read at [i]. *)
Fixpoint score_loop (my opp : list string) (total_score max_possible : Z)
  : res (Z * Z) :=
  match my with
  | [] => Ok (total_score, max_possible)
  | my_move :: my' =>
      match opp with
      | [] => Raise IndexError
      | opp_move :: opp' =>
          score_loop my' opp' (total_score + payoff_points my_move opp_move)%Z
                     (max_possible + 5)%Z
      end
  end.

(** [sum(1 for i in range(len(my)) if my[i] == 'D' and opp[i] == 'C')];
    the opponent's move is read only after a 'D'. *)
Fixpoint exploit_count (my opp : list string) : res Z :=
  match my with
  | [] => Ok 0%Z
  | my_move :: my' =>
      if String.eqb my_move "D" then
        match opp with
        | [] => Raise IndexError
        | opp_move :: opp' =>
            n <- exploit_count my' opp' ;;
            Ok (if String.eqb opp_move "C" then (1 + n)%Z else n)
        end
      else exploit_count my' (tl opp)
  end.

Definition calculate_comprehensive_success (self : t) : res Q :=
  if (length (my_history self) <? 2)%nat then Ok 0.5%Q
  else
    totals <- score_loop (my_history self) (opp_history self) 0 0 ;;
    let '(total_score, max_possible) := totals in
    base_rate <- truediv (inject_Z total_score) (inject_Z max_possible) ;;
    exploits <- exploit_count (my_history self) (opp_history self) ;;
    exploit_success <- truediv (inject_Z exploits)
                         (Qnat (Nat.max 1 (length (my_history self)))) ;;
    let comprehensive_success := (base_rate * 0.7 + exploit_success * 0.3)%Q in
    Ok (Qmin 1 comprehensive_success).

Definition adaptive_decision (self : t) (r : Rng) : res (string * t * Rng) :=
  match opp_history self with
  | [] => Ok ("C", self, r)
  | _ =>
      success_rate <- calculate_comprehensive_success self ;;
      if Qgtb success_rate 0.7 then
        match my_history self with
        | [] => Ok ("C", self, r)
        | _ =>
            let (u, r') := random r in
            if Qltb u 0.8 then
              last <- getlast (my_history self) ;; Ok (last, self, r')
            else Ok ("D", self, r')
        end
      else if Qltb success_rate 0.4 then
        let self := set_consecutive_losses self (consecutive_losses self + 1) in
        let self := set_aggression_level self (Qmin 0.8 (aggression_level self + 0.1)) in
        if (2 <? consecutive_losses self)%Z then Ok ("D", self, r)
        else
          let (u, r') := random r in
          Ok (if Qltb u 0.3 then "C" else "D", self, r')
      else
        let self := set_consecutive_losses self 0 in
        let (u, r') := random r in
        Ok (if Qltb u 0.6 then "C" else "D", self, r')
  end.

(** The chain [if self.current_strategy == ... elif ... else] of
    [decide_move], which names the algorithm that supplies the move. *)
Definition dispatch (self : t) (r : Rng) : res (string * t * Rng) :=
  let pure (m : res string) := (move <- m ;; Ok (move, self, r)) in
  let drawn (m : res (string * Rng)) := (mr <- m ;; Ok (fst mr, self, snd mr)) in
  if String.eqb (current_strategy self) "minimax" then pure (minimax_decision self)
  else if String.eqb (current_strategy self) "fuzzy" then drawn (fuzzy_decision self r)
  else if String.eqb (current_strategy self) "tit_for_tat" then
    drawn (tit_for_tat_decision self r)
  else if String.eqb (current_strategy self) "adaptive" then adaptive_decision self r
  else if String.eqb (current_strategy self) "pattern_matcher" then
    pure (pattern_matcher_decision self)
  else if String.eqb (current_strategy self) "bayesian" then
    pure (bayesian_decision self)
  else pure (minimax_decision self).

Definition should_analyze (self : t) (round_num : Z) : bool :=
  (strategy_change_cooldown self <=? 0)%Z
  && (3 <=? length (opp_history self))%nat
  && ((round_num mod 3 =? 0)%Z || (length (opp_history self) <? 8)%nat).

(** The first half of [decide_move]: re-analysis or cooldown. *)
Definition select_strategy (self : t) (round_num my_score opp_score : Z) (r : Rng)
  : res (t * Rng) :=
  if should_analyze self round_num then
    analysis <-
      AdvancedStrategyAnalyzer.analyze_opponent (analyzer self) (opp_history self)
        my_score opp_score r ;;
    let '(new_strategy, r1) := analysis in
    if negb (String.eqb new_strategy (current_strategy self)) then
      let self := set_current_strategy self new_strategy in
      let (cooldown, r2) := randint 2 5 r1 in
      Ok (set_strategy_change_cooldown self cooldown, r2)
    else Ok (self, r1)
  else
    Ok (set_strategy_change_cooldown self
          (Z.max 0 (strategy_change_cooldown self - 1)), r).

Definition decide_move (self : t) (round_num my_score opp_score : Z) (r : Rng)
  : res (string * t * Rng) :=
  selected <- select_strategy self round_num my_score opp_score r ;;
  let '(self, r) := selected in
  let (u, r) := random r in
  if Qltb u 0.01 then
    let (move, r) := choice_CD r in Ok (move, self, r)
  else
    chosen <- dispatch self r ;;
    let '(move, self, r) := chosen in
    let self := update_bayesian_prior self move in
    Ok (move, self, r).

Definition reset (self : t) : t :=
  let self := set_my_history self [] in
  let self := set_opp_history self [] in
  let self := set_current_strategy self "minimax" in
  let self := set_strategy_change_cooldown self 0 in
  let self := set_consecutive_losses self 0 in
  let self := set_aggression_level self 0.3 in
  let self := set_bayesian_prior self 0.5 in
  set_analyzer self AdvancedStrategyAnalyzer.init.

End PowerfulAdaptiveAI.

(** ** StrategicOpponentAI *)

(** One personality profile: the dict with the four keys below. *)
Record personality_profile : Set := {
  coop_bias : Q;
  forgiveness : Q;
  aggression : Q;
  adaptability : Q
}.

Module StrategicOpponentAI.

Record t : Type := {
  ai_type : string;
  name : string;
  my_history : list string;
  opp_history : list string;
  personality : personality_profile
}.

Definition profile (c f a d : Q) : personality_profile :=
  {| coop_bias := c; forgiveness := f; aggression := a; adaptability := d |}.

Definition personalities : gmap string personality_profile :=
  list_to_map
    [("cooperative", profile 0.8 0.9 0.1 0.3);
     ("aggressive", profile 0.2 0.1 0.9 0.6);
     ("random", profile 0.5 0.5 0.5 1.0);
     ("tit_for_tat", profile 0.5 0.3 0.5 0.7);
     ("forgiving", profile 0.7 0.8 0.2 0.5);
     ("strategic", profile 0.6 0.4 0.6 0.9);
     ("unpredictable", profile 0.5 0.5 0.5 0.8);
     ("exploitative", profile 0.4 0.2 0.8 0.7);
     ("mirror", profile 0.5 0.5 0.5 0.6)].

(** [personalities.get(ai_type, personalities["random"])]; the default
    is evaluated first. *)
Definition initialize_personality (ai_type : string) : res personality_profile :=
  match personalities !! "random" with
  | None => Raise KeyError
  | Some fallback => Ok (default fallback (personalities !! ai_type))
  end.

Definition strengths : gmap string Q :=
  list_to_map
    [("cooperative", 0.6%Q); ("aggressive", 0.8%Q); ("random", 0.4%Q);
     ("tit_for_tat", 0.7%Q); ("forgiving", 0.5%Q); ("strategic", 0.9%Q);
     ("unpredictable", 0.75%Q); ("exploitative", 0.85%Q); ("mirror", 0.7%Q)].

Definition get_strength (self : t) : Q :=
  default 0.5%Q (strengths !! ai_type self).

(** [s.replace('_', ' ').title()] on ASCII text. *)
Definition is_upper (c : ascii) : bool :=
  let n := nat_of_ascii c in (65 <=? n)%nat && (n <=? 90)%nat.
Definition is_lower (c : ascii) : bool :=
  let n := nat_of_ascii c in (97 <=? n)%nat && (n <=? 122)%nat.
Definition to_upper (c : ascii) : ascii :=
  if is_lower c then ascii_of_nat (nat_of_ascii c - 32) else c.
Definition to_lower (c : ascii) : ascii :=
  if is_upper c then ascii_of_nat (nat_of_ascii c + 32) else c.

Fixpoint title_from (previous_is_cased : bool) (s : string) : string :=
  match s with
  | EmptyString => EmptyString
  | String c s' =>
      String (if previous_is_cased then to_lower c else to_upper c)
             (title_from (is_upper c || is_lower c) s')
  end.

Fixpoint replace_underscores (s : string) : string :=
  match s with
  | EmptyString => EmptyString
  | String c s' =>
      String (if Ascii.eqb c "_"%char then " "%char else c) (replace_underscores s')
  end.

Definition display_name (ai_type : string) : string :=
  title_from false (replace_underscores ai_type) ++ " AI".

(** [__init__] *)
Definition init (ai_type : string) : res t :=
  p <- initialize_personality ai_type ;;
  Ok {| ai_type := ai_type;
        name := display_name ai_type;
        my_history := [];
        opp_history := [];
        personality := p |}.

Definition set_my_history (self : t) (v : list string) : t :=
  {| ai_type := ai_type self; name := name self; my_history := v;
     opp_history := opp_history self; personality := personality self |}.

Definition set_opp_history (self : t) (v : list string) : t :=
  {| ai_type := ai_type self; name := name self; my_history := my_history self;
     opp_history := v; personality := personality self |}.

Definition opposite (move : string) : string :=
  if String.eqb move "C" then "D" else "C".

Definition all_equal (move : string) (l : list string) : bool :=
  forallb (fun m => String.eqb m move) l.

Definition decide_move (self : t) (round_num my_score opp_score : Z) (r : Rng)
  : res (string * Rng) :=
  if String.eqb (ai_type self) "cooperative" then
    let (u, r') := random r in Ok (if Qltb u 0.8 then "C" else "D", r')
  else if String.eqb (ai_type self) "aggressive" then
    let (u, r') := random r in Ok (if Qltb u 0.8 then "D" else "C", r')
  else if String.eqb (ai_type self) "random" then
    let (u, r') := random r in Ok (if Qltb u 0.5 then "C" else "D", r')
  else if String.eqb (ai_type self) "tit_for_tat" then
    match opp_history self with
    | [] => Ok ("C", r)
    | _ => last <- getlast (opp_history self) ;; Ok (last, r)
    end
  else if String.eqb (ai_type self) "forgiving" then
    match opp_history self with
    | [] => Ok ("C", r)
    | _ =>
        last <- getlast (opp_history self) ;;
        if String.eqb last "D" then
          let (u, r') := random r in
          if Qltb u (forgiveness (personality self)) then Ok ("C", r')
          else Ok (last, r')
        else Ok (last, r)
    end
  else if String.eqb (ai_type self) "strategic" then
    if (length (opp_history self) <? 3)%nat then Ok ("C", r)
    else
      let by_rate :=
        (coop_rate <- coop_fraction (opp_history self) ;;
         Ok (if Qgtb coop_rate 0.6 then "C" else "D", r)) in
      if (5 <=? length (opp_history self))%nat then
        let recent_pattern := lastn 3 (opp_history self) in
        if (size (list_to_set recent_pattern : gset string) =? 1)%nat then
          match recent_pattern with
          | [] => Raise IndexError
          | first :: _ => Ok (opposite first, r)
          end
        else by_rate
      else by_rate
  else if String.eqb (ai_type self) "unpredictable" then
    if (length (my_history self) <? 2)%nat then Ok ("C", r)
    else
      let (u, r') := random r in
      if Qltb u 0.3 then
        last <- getlast (my_history self) ;; Ok (opposite last, r')
      else
        match opp_history self with
        | [] => Ok ("C", r')
        | _ => last <- getlast (opp_history self) ;; Ok (last, r')
        end
  else if String.eqb (ai_type self) "exploitative" then
    if (length (opp_history self) <? 4)%nat then Ok ("C", r)
    else if all_equal "C" (lastn 2 (opp_history self)) then Ok ("D", r)
    else if all_equal "D" (lastn 2 (opp_history self)) then Ok ("C", r)
    else
      let (u, r') := random r in Ok (if Qltb u 0.6 then "D" else "C", r')
  else if String.eqb (ai_type self) "mirror" then
    match opp_history self with
    | [] => Ok ("C", r)
    | _ =>
        let (u, r') := random r in
        last <- getlast (opp_history self) ;;
        if Qltb u 0.1 then Ok (opposite last, r')
        else Ok (last, r')
    end
  else Ok ("C", r).

Definition reset (self : t) : t :=
  set_opp_history (set_my_history self []) [].

End StrategicOpponentAI.

(** ** The match driver *)

Inductive game_state : Set := INTRO | MENU | BATTLE | RESULTS | OUTRO.

Module Game.

(** The fields of the application object that the round logic reads or
    writes; [player1.ai] is [adaptive_ai] and [player2.ai] is
    [opponent_ai]. Drawing, sound and animation state is left out, and
    with it the draws that the visual effects of a round and of
    [end_game] take from the generator: the generator a driver function
    returns is the one left by the two agents' decisions, and says
    nothing of the position of the stream after the effects. *)
Record t : Type := {
  state : game_state;
  round_number : Z;
  max_rounds : Z;
  payoffs : gmap (string * string) (Z * Z);
  opponent_types : list string;
  current_opponent_type : string;
  adaptive_ai : PowerfulAdaptiveAI.t;
  opponent_ai : StrategicOpponentAI.t;
  player1_score : Z;
  player2_score : Z;
  player1_last_move : option string;
  player2_last_move : option string;
  history : list (string * string * Z * Z);
  adaptive_wins : Z;
  opponent_wins : Z;
  ties : Z
}.

(** The payoff matrix built by [setup_game]. *)
Definition payoff_matrix : gmap (string * string) (Z * Z) :=
  list_to_map
    [(("C", "C"), (3, 3)%Z);
     (("C", "D"), (0, 5)%Z);
     (("D", "C"), (5, 0)%Z);
     (("D", "D"), (1, 1)%Z)].

Definition all_opponent_types : list string :=
  ["cooperative"; "aggressive"; "random"; "tit_for_tat"; "forgiving";
   "strategic"; "unpredictable"; "exploitative"; "mirror"].

(** [self.payoffs[(move1, move2)]] *)
Definition score (payoffs : gmap (string * string) (Z * Z)) (move1 move2 : string)
  : res (Z * Z) :=
  match payoffs !! (move1, move2) with
  | Some s => Ok s
  | None => Raise KeyError
  end.

(** [random.choice(self.opponent_types)] *)
Definition choice (l : list string) (r : Rng) : res (string * Rng) :=
  let (u, r') := random r in
  let i := Z.to_nat (Z.min (Z.of_nat (length l) - 1)
                           (Z.max 0 (Qfloor (u * Qnat (length l))))) in
  match nth_error l i with
  | Some x => Ok (x, r')
  | None => Raise IndexError
  end.

Definition setup_game (r : Rng) : res (t * Rng) :=
  picked <- choice all_opponent_types r ;;
  let '(opponent_type, r') := picked in
  opponent <- StrategicOpponentAI.init opponent_type ;;
  Ok ({| state := INTRO;
         round_number := 0;
         max_rounds := 25;
         payoffs := payoff_matrix;
         opponent_types := all_opponent_types;
         current_opponent_type := opponent_type;
         adaptive_ai := PowerfulAdaptiveAI.init;
         opponent_ai := opponent;
         player1_score := 0;
         player2_score := 0;
         player1_last_move := None;
         player2_last_move := None;
         history := [];
         adaptive_wins := 0;
         opponent_wins := 0;
         ties := 0 |}, r').

Definition end_game (g : t) : t :=
  let a := (player2_score g <? player1_score g)%Z in
  let o := (player1_score g <? player2_score g)%Z in
  {| state := RESULTS;
     round_number := round_number g;
     max_rounds := max_rounds g;
     payoffs := payoffs g;
     opponent_types := opponent_types g;
     current_opponent_type := current_opponent_type g;
     adaptive_ai := adaptive_ai g;
     opponent_ai := opponent_ai g;
     player1_score := player1_score g;
     player2_score := player2_score g;
     player1_last_move := player1_last_move g;
     player2_last_move := player2_last_move g;
     history := history g;
     adaptive_wins := if a then (adaptive_wins g + 1)%Z else adaptive_wins g;
     opponent_wins :=
       if a then opponent_wins g
       else if o then (opponent_wins g + 1)%Z else opponent_wins g;
     ties := if a || o then ties g else (ties g + 1)%Z |}.

Definition start_battle (g : t) : t :=
  {| state := BATTLE;
     round_number := 0;
     max_rounds := max_rounds g;
     payoffs := payoffs g;
     opponent_types := opponent_types g;
     current_opponent_type := current_opponent_type g;
     adaptive_ai := PowerfulAdaptiveAI.reset (adaptive_ai g);
     opponent_ai := StrategicOpponentAI.reset (opponent_ai g);
     player1_score := 0;
     player2_score := 0;
     player1_last_move := player1_last_move g;
     player2_last_move := player2_last_move g;
     history := [];
     adaptive_wins := adaptive_wins g;
     opponent_wins := opponent_wins g;
     ties := ties g |}.

Definition play_round (g : t) (r : Rng) : res (t * Rng) :=
  if (max_rounds g <=? round_number g)%Z then Ok (end_game g, r)
  else
    d1 <- PowerfulAdaptiveAI.decide_move (adaptive_ai g) (round_number g)
            (player1_score g) (player2_score g) r ;;
    let '(move1, ai1, r1) := d1 in
    d2 <- StrategicOpponentAI.decide_move (opponent_ai g) (round_number g)
            (player2_score g) (player1_score g) r1 ;;
    let '(move2, r2) := d2 in
    let ai1 := PowerfulAdaptiveAI.set_my_history ai1
                 (PowerfulAdaptiveAI.my_history ai1 ++ [move1]) in
    let ai1 := PowerfulAdaptiveAI.set_opp_history ai1
                 (PowerfulAdaptiveAI.opp_history ai1 ++ [move2]) in
    let ai2 := StrategicOpponentAI.set_my_history (opponent_ai g)
                 (StrategicOpponentAI.my_history (opponent_ai g) ++ [move2]) in
    let ai2 := StrategicOpponentAI.set_opp_history ai2
                 (StrategicOpponentAI.opp_history ai2 ++ [move1]) in
    scores <- score (payoffs g) move1 move2 ;;
    let '(p1_score, p2_score) := scores in
    Ok ({| state := state g;
           round_number := (round_number g + 1)%Z;
           max_rounds := max_rounds g;
           payoffs := payoffs g;
           opponent_types := opponent_types g;
           current_opponent_type := current_opponent_type g;
           adaptive_ai := ai1;
           opponent_ai := ai2;
           player1_score := (player1_score g + p1_score)%Z;
           player2_score := (player2_score g + p2_score)%Z;
           player1_last_move := Some move1;
           player2_last_move := Some move2;
           history := history g ++ [(move1, move2, p1_score, p2_score)];
           adaptive_wins := adaptive_wins g;
           opponent_wins := opponent_wins g;
           ties := ties g |}, r2).




End Game.

(** * Vocabulary of the statements *)

(** The range the Bayesian prior is kept in. *)
Definition prior_in_range (p : Q) : Prop := (0.05 <= p <= 0.95)%Q.

(** A sequence of [record_strategy_performance(strategy, won_round)] calls
    on a ledger, and how many of them used, or were won by, a strategy. *)
Fixpoint record_all (p : gmap string perf) (calls : list (string * bool))
  : res (gmap string perf) :=
  match calls with
  | [] => Ok p
  | (strategy, won_round) :: calls' =>
      p' <- AdvancedStrategyAnalyzer.record p strategy won_round ;;
      record_all p' calls'
  end.

(** The same sequence as calls of the method itself, on an analyzer. *)
Fixpoint record_calls (a : AdvancedStrategyAnalyzer.t) (calls : list (string * bool))
  : res AdvancedStrategyAnalyzer.t :=
  match calls with
  | [] => Ok a
  | (strategy, won_round) :: calls' =>
      a' <- AdvancedStrategyAnalyzer.record_strategy_performance a strategy won_round ;;
      record_calls a' calls'
  end.

Fixpoint uses_of (s : string) (calls : list (string * bool)) : Z :=
  match calls with
  | [] => 0
  | (s', _) :: calls' => (if String.eqb s' s then 1 else 0) + uses_of s calls'
  end.

Fixpoint wins_of (s : string) (calls : list (string * bool)) : Z :=
  match calls with
  | [] => 0
  | (s', won) :: calls' => (if String.eqb s' s && won then 1 else 0) + wins_of s calls'
  end.

Definition entry_ok (e : perf) : Prop := (0 <= wins e <= uses e)%Z.

Definition ledger_ok (p : gmap string perf) : Prop :=
  forall s, In s AdvancedStrategyAnalyzer.strategy_names ->
            exists e, p !! s = Some e /\ entry_ok e.

(** The number of positions [i >= 2] of [h] at which the two moves before
    [i] spell [state] and the move at [i] is [move]: how often [move]
    followed an earlier occurrence of the state. *)
Fixpoint followers (h : list string) (state move : string) : Z :=
  match h with
  | a :: (b :: c :: _) as h' =>
      ((if String.eqb (a ++ b) state && String.eqb c move then 1 else 0)
       + followers h' state move)%Z
  | _ => 0%Z
  end.

Definition valid_history (h : list string) : Prop := Forall is_move h.

(** An agent that has defected twelve times against an opponent whose
    last two moves, C C, were followed once by D and once by C. *)
Definition tied_successors_agent : PowerfulAdaptiveAI.t :=
  PowerfulAdaptiveAI.set_opp_history
    (PowerfulAdaptiveAI.set_my_history PowerfulAdaptiveAI.init
       ["D"; "D"; "D"; "D"; "D"; "D"; "D"; "D"; "D"; "D"; "D"; "D"])
    ["D"; "D"; "D"; "D"; "D"; "C"; "C"; "D"; "D"; "C"; "C"; "C"].

(** What a call of [decide_move] leaves alone. *)
Definition frame (s : PowerfulAdaptiveAI.t) :=
  (PowerfulAdaptiveAI.name s, PowerfulAdaptiveAI.analyzer s,
   PowerfulAdaptiveAI.my_history s, PowerfulAdaptiveAI.opp_history s,
   PowerfulAdaptiveAI.learning_rate s, PowerfulAdaptiveAI.prediction_accuracy s,
   PowerfulAdaptiveAI.risk_tolerance s, PowerfulAdaptiveAI.pattern_memory s).

(** The states an adaptive agent can be in: built by [__init__], then
    changed by its own methods, by the analyzer's ledger method and by the
    driver's appends to the two histories. *)
Inductive adaptive_reachable : PowerfulAdaptiveAI.t -> Prop :=
  | reach_init : adaptive_reachable PowerfulAdaptiveAI.init
  | reach_decide_move s round_num my_score opp_score r move s' r' :
      adaptive_reachable s ->
      PowerfulAdaptiveAI.decide_move s round_num my_score opp_score r = Ok (move, s', r') ->
      adaptive_reachable s'
  | reach_adaptive_decision s r move s' r' :
      adaptive_reachable s ->
      PowerfulAdaptiveAI.adaptive_decision s r = Ok (move, s', r') ->
      adaptive_reachable s'
  | reach_update_bayesian_prior s move :
      adaptive_reachable s ->
      adaptive_reachable (PowerfulAdaptiveAI.update_bayesian_prior s move)
  | reach_record s strategy won_round a :
      adaptive_reachable s ->
      AdvancedStrategyAnalyzer.record_strategy_performance
        (PowerfulAdaptiveAI.analyzer s) strategy won_round = Ok a ->
      adaptive_reachable (PowerfulAdaptiveAI.set_analyzer s a)
  | reach_append s move1 move2 :
      adaptive_reachable s ->
      adaptive_reachable
        (PowerfulAdaptiveAI.set_opp_history
           (PowerfulAdaptiveAI.set_my_history s (PowerfulAdaptiveAI.my_history s ++ [move1]))
           (PowerfulAdaptiveAI.opp_history s ++ [move2]))
  | reach_reset s :
      adaptive_reachable s -> adaptive_reachable (PowerfulAdaptiveAI.reset s).

(** The states of an opponent built with [ai_type]. *)
Inductive opponent_reachable (ai_type : string) : StrategicOpponentAI.t -> Prop :=
  | oreach_init s :
      StrategicOpponentAI.init ai_type = Ok s -> opponent_reachable ai_type s
  | oreach_append s move1 move2 :
      opponent_reachable ai_type s ->
      opponent_reachable ai_type
        (StrategicOpponentAI.set_opp_history
           (StrategicOpponentAI.set_my_history s (StrategicOpponentAI.my_history s ++ [move2]))
           (StrategicOpponentAI.opp_history s ++ [move1]))
  | oreach_reset s :
      opponent_reachable ai_type s ->
      opponent_reachable ai_type (StrategicOpponentAI.reset s).

(** A battle about to play its first round: the fresh adaptive agent
    against a fresh "tit_for_tat" opponent. *)
Definition first_round_game : Game.t :=
  {| Game.state := BATTLE;
     Game.round_number := 0;
     Game.max_rounds := 25;
     Game.payoffs := Game.payoff_matrix;
     Game.opponent_types := Game.all_opponent_types;
     Game.current_opponent_type := "tit_for_tat";
     Game.adaptive_ai := PowerfulAdaptiveAI.init;
     Game.opponent_ai :=
       {| StrategicOpponentAI.ai_type := "tit_for_tat";
          StrategicOpponentAI.name := StrategicOpponentAI.display_name "tit_for_tat";
          StrategicOpponentAI.my_history := [];
          StrategicOpponentAI.opp_history := [];
          StrategicOpponentAI.personality := StrategicOpponentAI.profile 0.5 0.3 0.5 0.7 |};
     Game.player1_score := 0;
     Game.player2_score := 0;
     Game.player1_last_move := None;
     Game.player2_last_move := None;
     Game.history := [];
     Game.adaptive_wins := 0;
     Game.opponent_wins := 0;
     Game.ties := 0 |}.

(** The game after that round, with every draw of the generator 0.5. *)
Definition after_first_round : Game.t :=
  match Game.play_round first_round_game (fun _ => 0.5%Q) with
  | Ok (g, _) => g
  | Raise _ => first_round_game
  end.

(** The states in which the claims about decisions are made: histories
    of moves of equal length, a prior in its range, and an analyzer over
    the closed strategy set with a ledger satisfying wins <= uses. *)
Definition analyzer_ok (a : AdvancedStrategyAnalyzer.t) : Prop :=
  AdvancedStrategyAnalyzer.available_strategies a = AdvancedStrategyAnalyzer.strategy_names
  /\ ledger_ok (AdvancedStrategyAnalyzer.strategy_performance a).

Record agent_ok (s : PowerfulAdaptiveAI.t) : Prop := {
  ok_my_history : valid_history (PowerfulAdaptiveAI.my_history s);
  ok_opp_history : valid_history (PowerfulAdaptiveAI.opp_history s);
  ok_lengths :
    length (PowerfulAdaptiveAI.my_history s) = length (PowerfulAdaptiveAI.opp_history s);
  ok_prior : prior_in_range (PowerfulAdaptiveAI.bayesian_prior s);
  ok_analyzer : analyzer_ok (PowerfulAdaptiveAI.analyzer s)
}.

(** The bounds on the adaptive agent's own state. *)
Definition adaptive_state_ok (s : PowerfulAdaptiveAI.t) : Prop :=
  prior_in_range (PowerfulAdaptiveAI.bayesian_prior s)
  /\ (0.3 <= PowerfulAdaptiveAI.aggression_level s <= 0.8)%Q
  /\ (0 <= PowerfulAdaptiveAI.consecutive_losses s)%Z
  /\ (0 <= PowerfulAdaptiveAI.strategy_change_cooldown s <= 5)%Z
  /\ In (PowerfulAdaptiveAI.current_strategy s) AdvancedStrategyAnalyzer.strategy_names
  /\ AdvancedStrategyAnalyzer.available_strategies (PowerfulAdaptiveAI.analyzer s)
     = AdvancedStrategyAnalyzer.strategy_names.




(** A match in progress: a well-formed adaptive agent, an opponent whose
    two histories mirror the agent's, the payoff matrix of [setup_game],
    and a round history that lists the moves played, one entry per
    round. *)
Record match_ok (g : Game.t) : Prop := {
  mok_agent : agent_ok (Game.adaptive_ai g);
  mok_mine :
    StrategicOpponentAI.my_history (Game.opponent_ai g)
    = PowerfulAdaptiveAI.opp_history (Game.adaptive_ai g);
  mok_theirs :
    StrategicOpponentAI.opp_history (Game.opponent_ai g)
    = PowerfulAdaptiveAI.my_history (Game.adaptive_ai g);
  mok_payoffs : Game.payoffs g = Game.payoff_matrix;
  mok_moves1 :
    map (fun e => fst (fst (fst e))) (Game.history g)
    = PowerfulAdaptiveAI.my_history (Game.adaptive_ai g);
  mok_moves2 :
    map (fun e => snd (fst (fst e))) (Game.history g)
    = PowerfulAdaptiveAI.opp_history (Game.adaptive_ai g);
  mok_round : Game.round_number g = Z.of_nat (length (Game.history g))
}.

(** [n] calls of [play_round] in a row. *)
Fixpoint play_rounds (n : nat) (g : Game.t) (r : Rng) : res (Game.t * Rng) :=
  match n with
  | O => Ok (g, r)
  | S n' =>
      step <- Game.play_round g r ;;
      play_rounds n' (fst step) (snd step)
  end.




(** A "mirror" opponent three rounds into a match. *)
Definition mirror_opponent : StrategicOpponentAI.t :=
  {| StrategicOpponentAI.ai_type := "mirror";
     StrategicOpponentAI.name := StrategicOpponentAI.display_name "mirror";
     StrategicOpponentAI.my_history := ["C"; "C"; "D"];
     StrategicOpponentAI.opp_history := ["C"; "D"; "D"];
     StrategicOpponentAI.personality := StrategicOpponentAI.profile 0.5 0.5 0.5 0.6 |}.

(** * Properties *)

(** ** Results and divisions *)

Lemma bind_ok {A B : Type} (m : res A) (k : A -> res B) (a : A) :
  m = Ok a -> bind m k = k a.
Proof. intros ->. reflexivity. Qed.

Lemma bind_inv {A B : Type} (m : res A) (k : A -> res B) (b : B) :
  bind m k = Ok b -> exists a, m = Ok a /\ k a = Ok b.
Proof. destruct m as [a|e]; simpl; [eauto | discriminate]. Qed.

Lemma truediv_ok (a b : Q) : ~ (b == 0)%Q -> truediv a b = Ok (a / b)%Q.
Proof.
  intros Hb. unfold truediv.
  destruct (Qeq_bool b 0) eqn:E; [|reflexivity].
  apply Qeq_bool_eq in E. contradiction.
Qed.

Lemma Qnat_pos (n : nat) : (0 < n)%nat -> (0 < Qnat n)%Q.
Proof.
  intros Hn. unfold Qnat, Qlt. simpl. lia.
Qed.

Lemma Qnat_nonneg (n : nat) : (0 <= Qnat n)%Q.
Proof. unfold Qnat, Qle. simpl. lia. Qed.

Lemma Qnat_le (n m : nat) : (n <= m)%nat -> (Qnat n <= Qnat m)%Q.
Proof. intros H. unfold Qnat, Qle. simpl. lia. Qed.

Lemma Qnat_nonzero (n : nat) : (0 < n)%nat -> ~ (Qnat n == 0)%Q.
Proof. intros Hn E. apply Qnat_pos in Hn. rewrite E in Hn. lra. Qed.

Lemma Qltb_lt (x y : Q) : Qltb x y = true <-> (x < y)%Q.
Proof.
  unfold Qltb. rewrite negb_true_iff. split.
  - intros E. apply Qnot_le_lt. intros Hle.
    apply Qle_bool_iff in Hle. congruence.
  - intros Hlt. destruct (Qle_bool y x) eqn:E; [|reflexivity].
    apply Qle_bool_iff in E. lra.
Qed.

Lemma Qltb_ge (x y : Q) : Qltb x y = false <-> (y <= x)%Q.
Proof.
  unfold Qltb. rewrite negb_false_iff. apply Qle_bool_iff.
Qed.

(** A fraction [n / d] of two counts with [n <= d] and [0 < d]. *)
Lemma fraction_ok (n d : nat) :
  (n <= d)%nat -> (0 < d)%nat ->
  exists q, truediv (Qnat n) (Qnat d) = Ok q /\ (0 <= q <= 1)%Q.
Proof.
  intros Hnd Hd. exists (Qnat n / Qnat d)%Q. split.
  - apply truediv_ok, Qnat_nonzero, Hd.
  - pose proof (Qnat_pos d Hd) as Hp.
    pose proof (Qnat_nonneg n) as Hn.
    pose proof (Qnat_le n d Hnd) as Hle.
    split.
    + apply Qle_shift_div_l; [exact Hp | lra].
    + apply Qle_shift_div_r; [exact Hp | lra].
Qed.

(** ** The payoff matrix *)

(** C6: the payoff lookup of the match driver is defined on exactly the
    four ordered pairs of moves, with (C,C) -> (3,3), (C,D) -> (0,5),
    (D,C) -> (5,0) and (D,D) -> (1,1); the table is the one [setup_game]
    installs and a round leaves it as it was. *)
Theorem payoff_lookup_total :
  Game.score Game.payoff_matrix "C" "C" = Ok (3, 3)%Z /\
  Game.score Game.payoff_matrix "C" "D" = Ok (0, 5)%Z /\
  Game.score Game.payoff_matrix "D" "C" = Ok (5, 0)%Z /\
  Game.score Game.payoff_matrix "D" "D" = Ok (1, 1)%Z /\
  dom Game.payoff_matrix
    = ({[ ("C", "C"); ("C", "D"); ("D", "C"); ("D", "D") ]} : gset (string * string)) /\
  (forall r, match Game.setup_game r with
             | Ok (g, _) => Game.payoffs g = Game.payoff_matrix
             | Raise _ => True
             end) /\
  (forall g r, match Game.play_round g r with
               | Ok (g', _) => Game.payoffs g' = Game.payoffs g
               | Raise _ => True
               end).
Proof.
  do 4 (split; [reflexivity|]).
  split; [|split].
  - unfold Game.payoff_matrix. simpl.
    rewrite !dom_insert_L, dom_empty_L. set_solver.
  - intros r. unfold Game.setup_game.
    destruct (Game.choice Game.all_opponent_types r) as [[ty r']|e]; simpl; [|exact I].
    destruct (StrategicOpponentAI.init ty) as [o|e]; simpl; [reflexivity | exact I].
  - intros g r. unfold Game.play_round.
    destruct (Game.max_rounds g <=? Game.round_number g)%Z; [reflexivity|].
    destruct (PowerfulAdaptiveAI.decide_move _ _ _ _ _) as [[[m1 a1] r1]|e]; simpl; [|exact I].
    destruct (StrategicOpponentAI.decide_move _ _ _ _ _) as [[m2 r2]|e]; simpl; [|exact I].
    destruct (Game.score _ _ _) as [[p1 p2]|e]; simpl; [reflexivity | exact I].
Qed.

(** ** The Bayesian prior *)

Lemma update_bayesian_prior_range (self : PowerfulAdaptiveAI.t) (move : string) :
  prior_in_range (PowerfulAdaptiveAI.bayesian_prior self) ->
  prior_in_range
    (PowerfulAdaptiveAI.bayesian_prior (PowerfulAdaptiveAI.update_bayesian_prior self move)).
Proof.
  unfold prior_in_range, PowerfulAdaptiveAI.update_bayesian_prior.
  intros [Hlo Hhi].
  destruct (String.eqb move "C"); simpl.
  - destruct (Q.min_spec 0.95 (PowerfulAdaptiveAI.bayesian_prior self * 1.1))
      as [[Ho E]|[Ho E]]; rewrite E; lra.
  - destruct (Q.max_spec 0.05 (PowerfulAdaptiveAI.bayesian_prior self * 0.9))
      as [[Ho E]|[Ho E]]; rewrite E; lra.
Qed.

(** C7: from the initial prior 0.5, and from any prior in [0.05, 0.95],
    every sequence of [update_bayesian_prior] calls (times 1.1 capped at
    0.95 on 'C', times 0.9 floored at 0.05 otherwise) leaves the prior in
    [0.05, 0.95]. *)
Theorem bayesian_prior_stays_in_range :
  (forall moves : list string,
     prior_in_range
       (PowerfulAdaptiveAI.bayesian_prior
          (fold_left PowerfulAdaptiveAI.update_bayesian_prior moves
             PowerfulAdaptiveAI.init))) /\
  (forall (moves : list string) (self : PowerfulAdaptiveAI.t),
     prior_in_range (PowerfulAdaptiveAI.bayesian_prior self) ->
     prior_in_range
       (PowerfulAdaptiveAI.bayesian_prior
          (fold_left PowerfulAdaptiveAI.update_bayesian_prior moves self))) /\
  (forall self : PowerfulAdaptiveAI.t,
     PowerfulAdaptiveAI.bayesian_prior
       (PowerfulAdaptiveAI.update_bayesian_prior self "C")
     = Qmin 0.95 (PowerfulAdaptiveAI.bayesian_prior self * 1.1) /\
     PowerfulAdaptiveAI.bayesian_prior
       (PowerfulAdaptiveAI.update_bayesian_prior self "D")
     = Qmax 0.05 (PowerfulAdaptiveAI.bayesian_prior self * 0.9)).
Proof.
  assert (Hgen : forall moves self,
             prior_in_range (PowerfulAdaptiveAI.bayesian_prior self) ->
             prior_in_range
               (PowerfulAdaptiveAI.bayesian_prior
                  (fold_left PowerfulAdaptiveAI.update_bayesian_prior moves self))).
  { induction moves as [|m moves IH]; intros self Hself; simpl.
    - exact Hself.
    - apply IH, update_bayesian_prior_range, Hself. }
  split; [|split].
  - intros moves. apply Hgen. unfold prior_in_range. simpl. lra.
  - exact Hgen.
  - intros self. split; reflexivity.
Qed.

Lemma bayesian_prior_stays_in_range_witness :
  prior_in_range
    (PowerfulAdaptiveAI.bayesian_prior
       (fold_left PowerfulAdaptiveAI.update_bayesian_prior
          ["C"; "C"; "C"; "C"; "C"; "C"; "C"; "C"; "D"]
          (PowerfulAdaptiveAI.set_bayesian_prior PowerfulAdaptiveAI.init 0.9))).
Proof.
  apply (proj1 (proj2 bayesian_prior_stays_in_range)).
  unfold prior_in_range. simpl. lra.
Defined.

(** ** The strategy performance ledger *)

Lemma record_step (p : gmap string perf) (s : string) (won : bool) (e : perf) :
  p !! s = Some e ->
  AdvancedStrategyAnalyzer.record p s won
  = Ok (<[s := {| wins := (wins e + if won then 1 else 0)%Z;
                  uses := (uses e + 1)%Z |}]> p).
Proof.
  intros Hs. unfold AdvancedStrategyAnalyzer.record, AdvancedStrategyAnalyzer.performance_of.
  rewrite Hs. simpl. destruct won; simpl.
  - rewrite lookup_insert_eq. simpl. rewrite insert_insert_eq. reflexivity.
  - rewrite Z.add_0_r. reflexivity.
Qed.

Lemma success_rate_entry (p : gmap string perf) (s : string) (e : perf) :
  p !! s = Some e -> entry_ok e ->
  exists q, AdvancedStrategyAnalyzer.success_rate p s = Ok q
            /\ (0 <= q <= 1)%Q /\ (uses e = 0%Z -> (q == 0)%Q).
Proof.
  intros Hs [Hw Hu].
  unfold AdvancedStrategyAnalyzer.success_rate, AdvancedStrategyAnalyzer.performance_of.
  rewrite Hs. simpl.
  assert (Hpos : (0 < inject_Z (Z.max 1 (uses e)))%Q).
  { unfold Qlt. simpl. lia. }
  rewrite truediv_ok by lra.
  eexists. split; [reflexivity|]. split; [split|].
  - apply Qle_shift_div_l; [exact Hpos|].
    rewrite Qmult_0_l. unfold Qle. simpl. lia.
  - apply Qle_shift_div_r; [exact Hpos|].
    rewrite Qmult_1_l. unfold Qle. simpl. lia.
  - intros U. assert (wins e = 0%Z) as -> by lia. reflexivity.
Qed.

Lemma wins_of_le_uses_of (s : string) (calls : list (string * bool)) :
  (0 <= wins_of s calls <= uses_of s calls)%Z.
Proof.
  induction calls as [|[s' won] calls IH]; simpl; [lia|].
  destruct (String.eqb s' s), won; simpl; lia.
Qed.

Lemma record_all_counts (calls : list (string * bool)) :
  forall p : gmap string perf,
    ledger_ok p ->
    Forall (fun c => In (fst c) AdvancedStrategyAnalyzer.strategy_names) calls ->
    exists p', record_all p calls = Ok p' /\
      forall s e, p !! s = Some e ->
        exists e', p' !! s = Some e'
                   /\ uses e' = (uses e + uses_of s calls)%Z
                   /\ wins e' = (wins e + wins_of s calls)%Z.
Proof.
  induction calls as [|[s0 won] calls IH]; intros p Hp Hcalls.
  - exists p. split; [reflexivity|]. intros s e Hs. exists e. simpl.
    split; [exact Hs | lia].
  - inversion Hcalls as [|c cs Hin Hrest]; subst. simpl in Hin.
    destruct (Hp s0 Hin) as (e0 & He0 & Hok0).
    simpl. rewrite (record_step p s0 won e0 He0). simpl.
    set (p1 := <[s0 := _]> p).
    assert (Hp1 : ledger_ok p1).
    { intros s Hs. destruct (decide (s0 = s)) as [->|Hne].
      - eexists. split; [apply lookup_insert_eq|].
        unfold entry_ok in *. simpl. destruct won; lia.
      - destruct (Hp s Hs) as (e & He & Hok). exists e. split; [|exact Hok].
        unfold p1. rewrite lookup_insert_ne by exact Hne. exact He. }
    destruct (IH p1 Hp1 Hrest) as (p' & Hrun & Hcount).
    exists p'. split; [exact Hrun|].
    intros s e Hs. destruct (decide (s0 = s)) as [->|Hne].
    + assert (e = e0) as -> by congruence.
      destruct (Hcount s _ (lookup_insert_eq p s _)) as (e' & He' & Hu & Hw).
      exists e'. split; [exact He'|]. simpl in Hu, Hw.
      rewrite String.eqb_refl. simpl. destruct won; lia.
    + assert (Hs1 : p1 !! s = Some e).
      { unfold p1. rewrite lookup_insert_ne by exact Hne. exact Hs. }
      destruct (Hcount s e Hs1) as (e' & He' & Hu & Hw).
      exists e'. split; [exact He'|].
      apply String.eqb_neq in Hne. rewrite Hne. simpl. lia.
Qed.

Lemma fresh_ledger_ok :
  ledger_ok
    (AdvancedStrategyAnalyzer.strategy_performance AdvancedStrategyAnalyzer.init).
Proof.
  intros s Hs. exists {| wins := 0; uses := 0 |}.
  split; [|unfold entry_ok; simpl; lia].
  simpl in Hs.
  repeat (destruct Hs as [<-|Hs]; [reflexivity|]). contradiction.
Qed.

Lemma success_rate_value (p : gmap string perf) (s : string) (e : perf) :
  p !! s = Some e ->
  AdvancedStrategyAnalyzer.success_rate p s
  = Ok (inject_Z (wins e) / inject_Z (Z.max 1 (uses e)))%Q.
Proof.
  intros Hs.
  unfold AdvancedStrategyAnalyzer.success_rate, AdvancedStrategyAnalyzer.performance_of.
  rewrite Hs. cbn [bind]. apply truediv_ok.
  intros E. unfold Qeq in E. simpl in E. lia.
Qed.

Lemma record_strategy_performance_step (a : AdvancedStrategyAnalyzer.t)
    (s : string) (won : bool) :
  match AdvancedStrategyAnalyzer.strategy_performance a !! s with
  | Some e =>
      AdvancedStrategyAnalyzer.record_strategy_performance a s won
      = Ok (AdvancedStrategyAnalyzer.set_strategy_performance a
              (<[s := {| wins := (wins e + if won then 1 else 0)%Z;
                         uses := (uses e + 1)%Z |}]>
                 (AdvancedStrategyAnalyzer.strategy_performance a)))
  | None =>
      AdvancedStrategyAnalyzer.record_strategy_performance a s won = Raise KeyError
  end.
Proof.
  unfold AdvancedStrategyAnalyzer.record_strategy_performance.
  destruct (AdvancedStrategyAnalyzer.strategy_performance a !! s) as [e|] eqn:Hs.
  - rewrite (record_step _ s won e Hs). reflexivity.
  - unfold AdvancedStrategyAnalyzer.record, AdvancedStrategyAnalyzer.performance_of.
    rewrite Hs. reflexivity.
Qed.

(** A run of method calls is the run of ledger updates, stored back into
    the analyzer. *)
Lemma record_calls_ledger (calls : list (string * bool)) :
  forall a : AdvancedStrategyAnalyzer.t,
    record_calls a calls
    = bind (record_all (AdvancedStrategyAnalyzer.strategy_performance a) calls)
           (fun p => Ok (AdvancedStrategyAnalyzer.set_strategy_performance a p)).
Proof.
  induction calls as [|[s won] calls IH]; intros a.
  - destruct a. reflexivity.
  - cbn [record_calls record_all].
    unfold AdvancedStrategyAnalyzer.record_strategy_performance.
    destruct (AdvancedStrategyAnalyzer.record _ s won) as [p|e]; cbn [bind];
      [|reflexivity].
    rewrite IH. simpl AdvancedStrategyAnalyzer.strategy_performance.
    destruct (record_all p calls) as [p'|e]; reflexivity.
Qed.

(** C8: recording in the ledger. One call of
    [record_strategy_performance] on a strategy of the ledger adds one to
    its uses and one to its wins exactly when won_round is true, and
    raises KeyError on a name the ledger lacks. On an analyzer whose
    ledger holds the closed strategy set with 0 <= wins <= uses (the
    freshly built one does), every sequence of such calls on strategies of
    the set succeeds; afterwards each strategy's uses and wins have grown
    by the number of calls, and of won calls, made for it, wins <= uses
    still holds, and the success rate evaluates without raising to
    wins / max(1, uses), which lies in [0, 1] and is 0 for a strategy
    with no uses. *)
Theorem ledger_record_success_rate :
  ledger_ok
    (AdvancedStrategyAnalyzer.strategy_performance AdvancedStrategyAnalyzer.init) /\
  (forall (a : AdvancedStrategyAnalyzer.t) (s : string) (won : bool),
     match AdvancedStrategyAnalyzer.strategy_performance a !! s with
     | Some e =>
         AdvancedStrategyAnalyzer.record_strategy_performance a s won
         = Ok (AdvancedStrategyAnalyzer.set_strategy_performance a
                 (<[s := {| wins := (wins e + if won then 1 else 0)%Z;
                            uses := (uses e + 1)%Z |}]>
                    (AdvancedStrategyAnalyzer.strategy_performance a)))
     | None =>
         AdvancedStrategyAnalyzer.record_strategy_performance a s won = Raise KeyError
     end) /\
  forall (a : AdvancedStrategyAnalyzer.t) (calls : list (string * bool)),
    ledger_ok (AdvancedStrategyAnalyzer.strategy_performance a) ->
    Forall (fun c => In (fst c) AdvancedStrategyAnalyzer.strategy_names) calls ->
    exists a',
      record_calls a calls = Ok a' /\
      AdvancedStrategyAnalyzer.available_strategies a'
      = AdvancedStrategyAnalyzer.available_strategies a /\
      forall s e,
        In s AdvancedStrategyAnalyzer.strategy_names ->
        AdvancedStrategyAnalyzer.strategy_performance a !! s = Some e ->
        exists e',
          AdvancedStrategyAnalyzer.strategy_performance a' !! s = Some e'
          /\ uses e' = (uses e + uses_of s calls)%Z
          /\ wins e' = (wins e + wins_of s calls)%Z
          /\ (0 <= wins e' <= uses e')%Z
          /\ AdvancedStrategyAnalyzer.success_rate
               (AdvancedStrategyAnalyzer.strategy_performance a') s
             = Ok (inject_Z (wins e') / inject_Z (Z.max 1 (uses e')))%Q
          /\ (0 <= inject_Z (wins e') / inject_Z (Z.max 1 (uses e')) <= 1)%Q
          /\ (uses e' = 0%Z ->
              (inject_Z (wins e') / inject_Z (Z.max 1 (uses e')) == 0)%Q).
Proof.
  split; [exact fresh_ledger_ok|].
  split; [exact record_strategy_performance_step|].
  intros a calls Hp Hcalls.
  destruct (record_all_counts calls _ Hp Hcalls) as (p' & Hrun & Hcount).
  exists (AdvancedStrategyAnalyzer.set_strategy_performance a p').
  split; [rewrite record_calls_ledger, Hrun; reflexivity|].
  split; [reflexivity|].
  intros s e Hin Hs.
  destruct (Hcount s e Hs) as (e' & He' & Hu & Hw).
  destruct (Hp s Hin) as (e0 & He0 & Hok0).
  assert (e0 = e) as -> by congruence.
  pose proof (wins_of_le_uses_of s calls) as Hle.
  assert (Hok' : entry_ok e') by (unfold entry_ok in *; lia).
  destruct (success_rate_entry p' s e' He' Hok') as (q & Hq & Hrange & Hzero).
  pose proof (success_rate_value p' s e' He') as Hvalue.
  assert (q = (inject_Z (wins e') / inject_Z (Z.max 1 (uses e')))%Q) as Eq
    by congruence.
  rewrite Eq in Hrange, Hzero.
  exists e'. simpl AdvancedStrategyAnalyzer.strategy_performance.
  split; [exact He'|]. split; [exact Hu|]. split; [exact Hw|].
  split; [exact Hok'|]. split; [exact Hvalue|]. split; [exact Hrange | exact Hzero].
Qed.

Lemma ledger_record_success_rate_witness :
  exists a',
    record_calls AdvancedStrategyAnalyzer.init
      [("minimax", true); ("fuzzy", false); ("minimax", false)] = Ok a' /\
    exists e',
      AdvancedStrategyAnalyzer.strategy_performance a' !! "minimax" = Some e'
      /\ uses e' = 2%Z /\ wins e' = 1%Z
      /\ AdvancedStrategyAnalyzer.success_rate
           (AdvancedStrategyAnalyzer.strategy_performance a') "minimax"
         = Ok (inject_Z (wins e') / inject_Z (Z.max 1 (uses e')))%Q
      /\ (inject_Z (wins e') / inject_Z (Z.max 1 (uses e')) == 1 # 2)%Q.
Proof.
  destruct (proj2 (proj2 ledger_record_success_rate)
              AdvancedStrategyAnalyzer.init
              [("minimax", true); ("fuzzy", false); ("minimax", false)])
    as (a' & Hrun & _ & Hall).
  - exact (proj1 ledger_record_success_rate).
  - repeat constructor; simpl; tauto.
  - exists a'. split; [exact Hrun|].
    destruct (Hall "minimax" {| wins := 0; uses := 0 |})
      as (e' & H1 & H2 & H3 & _ & H5 & _ & _).
    + simpl. tauto.
    + reflexivity.
    + exists e'. simpl in H2, H3.
      split; [exact H1|]. split; [exact H2|]. split; [exact H3|].
      split; [exact H5|]. rewrite H2, H3. reflexivity.
Defined.

(** ** Pattern consistency and analysis confidence *)

Lemma transitions_length (h : list string) :
  length (AdvancedStrategyAnalyzer.transitions h) = (length h - 1)%nat.
Proof.
  induction h as [|a h IH]; [reflexivity|].
  destruct h as [|b h]; [reflexivity|].
  change (AdvancedStrategyAnalyzer.transitions (a :: b :: h))
    with ((a ++ b) :: AdvancedStrategyAnalyzer.transitions (b :: h)).
  simpl length in *. rewrite IH. lia.
Qed.

Lemma calculate_pattern_consistency_ok (h : list string) :
  exists q, AdvancedStrategyAnalyzer.calculate_pattern_consistency h = Ok q.
Proof.
  unfold AdvancedStrategyAnalyzer.calculate_pattern_consistency.
  destruct (length h <? 3)%nat eqn:E; [eexists; reflexivity|].
  apply Nat.ltb_ge in E.
  rewrite truediv_ok.
  - eexists. reflexivity.
  - apply Qnat_nonzero. rewrite transitions_length. lia.
Qed.

(** C3 (as amended): for an opponent history of length at least 5 the
    analysis confidence is the average of the pattern consistency and the
    data-quality ramp min(1, len/20); for a shorter history, lengths 3 and
    4 included, it is the constant 0.5. *)
Theorem analysis_confidence_average :
  forall h : list string,
    ((5 <= length h)%nat ->
     exists pc,
       AdvancedStrategyAnalyzer.calculate_pattern_consistency h = Ok pc /\
       AdvancedStrategyAnalyzer.calculate_analysis_confidence h
       = Ok ((pc + Qmin 1 (Qnat (length h) / 20)) / 2)%Q) /\
    ((length h < 5)%nat ->
     AdvancedStrategyAnalyzer.calculate_analysis_confidence h = Ok 0.5%Q).
Proof.
  intros h. unfold AdvancedStrategyAnalyzer.calculate_analysis_confidence. split.
  - intros Hlen. apply Nat.ltb_ge in Hlen. rewrite Hlen.
    destruct (calculate_pattern_consistency_ok h) as (pc & Hpc).
    exists pc. split; [exact Hpc|]. rewrite Hpc. reflexivity.
  - intros Hlen. apply Nat.ltb_lt in Hlen. rewrite Hlen. reflexivity.
Qed.

Lemma analysis_confidence_average_witness :
  (exists pc,
     AdvancedStrategyAnalyzer.calculate_pattern_consistency
       ["C"; "C"; "C"; "D"; "C"; "C"] = Ok pc /\
     AdvancedStrategyAnalyzer.calculate_analysis_confidence
       ["C"; "C"; "C"; "D"; "C"; "C"]
     = Ok ((pc + Qmin 1 (Qnat 6 / 20)) / 2)%Q) /\
  AdvancedStrategyAnalyzer.calculate_analysis_confidence ["C"; "D"; "C"; "C"]
  = Ok 0.5%Q.
Proof.
  split.
  - apply (proj1 (analysis_confidence_average ["C"; "C"; "C"; "D"; "C"; "C"])).
    simpl. lia.
  - apply (proj2 (analysis_confidence_average ["C"; "D"; "C"; "C"])).
    simpl. lia.
Defined.

(** C3 as stated fails on the history C, C, C of length 3: its pattern
    consistency is 1/2 and the ramp is 3/20, so the average is 13/40, but
    the confidence returned is 0.5. *)
Lemma analysis_confidence_short_history :
  (3 <= length ["C"; "C"; "C"])%nat /\
  AdvancedStrategyAnalyzer.calculate_pattern_consistency ["C"; "C"; "C"] = Ok (1 # 2) /\
  AdvancedStrategyAnalyzer.calculate_analysis_confidence ["C"; "C"; "C"] = Ok 0.5%Q /\
  ~ (0.5 == ((1 # 2) + Qmin 1 (Qnat (length ["C"; "C"; "C"]) / 20)) / 2)%Q.
Proof.
  split; [simpl; lia|].
  split; [vm_compute; reflexivity|].
  split; [reflexivity|].
  vm_compute. discriminate.
Qed.

(** ** Opponent types outside the nine policies *)

Lemma not_in_eqb (s : string) (l : list string) (x : string) :
  ~ In s l -> In x l -> String.eqb s x = false.
Proof.
  intros Hs Hx. apply String.eqb_neq. intros ->. contradiction.
Qed.

(** C10: an opponent whose ai_type is none of the nine named types
    cooperates on every call, whatever the histories, round number, scores
    and random draws, and draws nothing; its personality is the profile of
    "random", whose cooperation bias is 0.5. *)
Theorem unknown_opponent_always_cooperates :
  forall (self : StrategicOpponentAI.t) (round_num my_score opp_score : Z) (r : Rng),
    ~ In (StrategicOpponentAI.ai_type self) Game.all_opponent_types ->
    StrategicOpponentAI.decide_move self round_num my_score opp_score r = Ok ("C", r) /\
    StrategicOpponentAI.initialize_personality (StrategicOpponentAI.ai_type self)
    = Ok (StrategicOpponentAI.profile 0.5 0.5 0.5 1.0) /\
    StrategicOpponentAI.personalities !! "random"
    = Some (StrategicOpponentAI.profile 0.5 0.5 0.5 1.0).
Proof.
  intros self round_num my_score opp_score r Hty.
  split; [|split].
  - unfold StrategicOpponentAI.decide_move.
    rewrite !(not_in_eqb _ _ _ Hty) by (simpl; tauto).
    reflexivity.
  - unfold StrategicOpponentAI.initialize_personality.
    assert (Hnone : StrategicOpponentAI.personalities
                    !! StrategicOpponentAI.ai_type self = None).
    { apply not_elem_of_list_to_map_1. rewrite list_elem_of_In. exact Hty. }
    rewrite Hnone. reflexivity.
  - reflexivity.
Qed.

Lemma unknown_opponent_always_cooperates_witness :
  StrategicOpponentAI.decide_move
    {| StrategicOpponentAI.ai_type := "grudger";
       StrategicOpponentAI.name := StrategicOpponentAI.display_name "grudger";
       StrategicOpponentAI.my_history := ["C"; "C"];
       StrategicOpponentAI.opp_history := ["D"; "D"];
       StrategicOpponentAI.personality := StrategicOpponentAI.profile 0.5 0.5 0.5 1.0 |}
    2 3 10 (fun _ => 0%Q)
  = Ok ("C", fun _ => 0%Q).
Proof.
  apply unknown_opponent_always_cooperates.
  simpl. intros H.
  repeat (destruct H as [H|H]; [discriminate H|]). exact H.
Defined.

(** ** The Markov predictor *)

Lemma tally_step (a b c : string) (h : list string) (state : string)
    (tr : list (string * Z)) :
  PowerfulAdaptiveAI.tally (a :: b :: c :: h) state tr
  = if String.eqb (a ++ b) state then
      bind (dict_get tr c)
           (fun n => PowerfulAdaptiveAI.tally (b :: c :: h) state (dict_set tr c (n + 1)%Z))
    else PowerfulAdaptiveAI.tally (b :: c :: h) state tr.
Proof. reflexivity. Qed.

Lemma followers_step (a b c : string) (h : list string) (state move : string) :
  followers (a :: b :: c :: h) state move
  = ((if String.eqb (a ++ b) state && String.eqb c move then 1 else 0)
     + followers (b :: c :: h) state move)%Z.
Proof. reflexivity. Qed.

Lemma followers_nonneg (h : list string) (state move : string) :
  (0 <= followers h state move)%Z.
Proof.
  induction h as [|a h IH]; [reflexivity|].
  destruct h as [|b [|c h]]; try reflexivity.
  rewrite followers_step.
  destruct (String.eqb (a ++ b) state && String.eqb c move); lia.
Qed.

(** On a history of moves the loop never meets a missing key, and its
    two counters are the follower counts. *)
Lemma tally_followers (h : list string) (state : string) :
  valid_history h ->
  forall c d : Z,
    PowerfulAdaptiveAI.tally h state [("C", c); ("D", d)]
    = Ok [("C", (c + followers h state "C")%Z); ("D", (d + followers h state "D")%Z)].
Proof.
  unfold valid_history.
  induction h as [|a h IH]; intros Hv c d.
  - simpl. rewrite !Z.add_0_r. reflexivity.
  - destruct h as [|b [|x h]].
    + simpl. rewrite !Z.add_0_r. reflexivity.
    + simpl. rewrite !Z.add_0_r. reflexivity.
    + inversion Hv as [|? ? _ Hv']; subst.
      assert (Hx : is_move x).
      { inversion Hv' as [|? ? _ Hv'']; subst.
        inversion Hv'' as [|? ? Hx _]; subst. exact Hx. }
      rewrite tally_step, !followers_step.
      destruct (String.eqb (a ++ b) state); simpl andb.
      * destruct Hx as [-> | ->].
        -- change (dict_get [("C", c); ("D", d)] "C") with (Ok c).
           unfold bind.
           change (dict_set [("C", c); ("D", d)] "C" (c + 1)%Z)
             with [("C", (c + 1)%Z); ("D", d)].
           rewrite (IH Hv'). simpl String.eqb.
           rewrite !Z.add_assoc, Z.add_0_r. reflexivity.
        -- change (dict_get [("C", c); ("D", d)] "D") with (Ok d).
           unfold bind.
           change (dict_set [("C", c); ("D", d)] "D" (d + 1)%Z)
             with [("C", c); ("D", (d + 1)%Z)].
           rewrite (IH Hv'). simpl String.eqb.
           rewrite !Z.add_assoc, Z.add_0_r. reflexivity.
      * rewrite (IH Hv'). repeat f_equal.
Qed.

(** C2 (as amended): on an opponent history of moves of length at least
    3, with c and d the numbers of times Cooperate and Defect followed an
    earlier occurrence of the last two moves: if the state never occurred
    earlier (c + d = 0) the Markov predictor returns the minimax decision;
    if it occurred and d <= c, a tie included, it predicts Cooperate and
    returns Defect; if c < d it predicts Defect and returns Cooperate. *)
Theorem markov_prediction_cases :
  forall self : PowerfulAdaptiveAI.t,
    valid_history (PowerfulAdaptiveAI.opp_history self) ->
    (3 <= length (PowerfulAdaptiveAI.opp_history self))%nat ->
    let h := PowerfulAdaptiveAI.opp_history self in
    let c := followers h (join (lastn 2 h)) "C" in
    let d := followers h (join (lastn 2 h)) "D" in
    ((c + d = 0)%Z ->
     PowerfulAdaptiveAI.markov_prediction self = PowerfulAdaptiveAI.minimax_decision self) /\
    ((0 < c + d)%Z -> (d <= c)%Z ->
     PowerfulAdaptiveAI.markov_prediction self = Ok "D") /\
    ((c < d)%Z ->
     PowerfulAdaptiveAI.markov_prediction self = Ok "C").
Proof.
  intros self Hv Hlen h c d.
  pose proof (followers_nonneg h (join (lastn 2 h)) "C") as Hc.
  pose proof (followers_nonneg h (join (lastn 2 h)) "D") as Hd.
  fold c in Hc. fold d in Hd.
  assert (Hrun : PowerfulAdaptiveAI.markov_prediction self
                 = if (c + (d + 0) =? 0)%Z then PowerfulAdaptiveAI.minimax_decision self
                   else Ok (if String.eqb (if (c <? d)%Z then "D" else "C") "C"
                            then "D" else "C")).
  { unfold PowerfulAdaptiveAI.markov_prediction.
    apply Nat.ltb_ge in Hlen. rewrite Hlen.
    fold h. rewrite (tally_followers h _ Hv 0 0). simpl bind.
    rewrite !Z.add_0_l. fold c. fold d. simpl.
    destruct (c + (d + 0) =? 0)%Z; [reflexivity|].
    destruct (c <? d)%Z; reflexivity. }
  rewrite Hrun. repeat split.
  - intros H0. assert (E : (c + (d + 0) =? 0)%Z = true) by (apply Z.eqb_eq; lia).
    rewrite E. reflexivity.
  - intros Hpos Hle.
    assert (E : (c + (d + 0) =? 0)%Z = false) by (apply Z.eqb_neq; lia).
    assert (E' : (c <? d)%Z = false) by (apply Z.ltb_ge; lia).
    rewrite E, E'. reflexivity.
  - intros Hlt.
    assert (E : (c + (d + 0) =? 0)%Z = false) by (apply Z.eqb_neq; lia).
    assert (E' : (c <? d)%Z = true) by (apply Z.ltb_lt; lia).
    rewrite E, E'. reflexivity.
Qed.

Lemma markov_prediction_cases_witness :
  PowerfulAdaptiveAI.markov_prediction tied_successors_agent = Ok "D".
Proof.
  apply (proj1 (proj2 (markov_prediction_cases tied_successors_agent
                         ltac:(repeat constructor; unfold is_move; tauto)
                         ltac:(simpl; lia)))).
  - vm_compute. reflexivity.
  - vm_compute. discriminate.
Defined.

(** C2 as stated fails on a tie: in the opponent history
    D D D D D C C D D C C C the state C C was followed once by D and once
    by C, the minimax decision of the agent is Cooperate, and the Markov
    predictor returns Defect. *)
Lemma markov_prediction_tie_not_minimax :
  let self := tied_successors_agent in
  let h := PowerfulAdaptiveAI.opp_history self in
  (3 <= length h)%nat /\
  followers h (join (lastn 2 h)) "C" = followers h (join (lastn 2 h)) "D" /\
  PowerfulAdaptiveAI.minimax_decision self = Ok "C" /\
  PowerfulAdaptiveAI.markov_prediction self = Ok "D" /\
  PowerfulAdaptiveAI.markov_prediction self <> PowerfulAdaptiveAI.minimax_decision self.
Proof.
  cbv zeta.
  split; [simpl; lia|].
  split; [vm_compute; reflexivity|].
  split; [vm_compute; reflexivity|].
  split; [vm_compute; reflexivity|].
  vm_compute. discriminate.
Qed.

(** ** What a decision leaves unchanged *)

Ltac res_step H :=
  match type of H with
  | Ok _ = Ok _ => inversion H; subst; clear H
  | Raise _ = Ok _ => discriminate H
  | bind ?m _ = Ok _ =>
      let E := fresh "E" in
      destruct m eqn:E; cbn [bind] in H; [|discriminate H]
  | (if ?b then _ else _) = Ok _ => destruct b eqn:?
  | (let (_, _) := ?p in _) = Ok _ => destruct p eqn:?
  | match ?x with _ => _ end = Ok _ => destruct x eqn:?
  end.

Lemma adaptive_decision_frame (s : PowerfulAdaptiveAI.t) (r : Rng) move s' r' :
  PowerfulAdaptiveAI.adaptive_decision s r = Ok (move, s', r') ->
  frame s' = frame s
  /\ PowerfulAdaptiveAI.bayesian_prior s' = PowerfulAdaptiveAI.bayesian_prior s
  /\ PowerfulAdaptiveAI.current_strategy s' = PowerfulAdaptiveAI.current_strategy s.
Proof.
  unfold PowerfulAdaptiveAI.adaptive_decision. intros H.
  repeat res_step H; auto.
Qed.

Lemma dispatch_frame (s : PowerfulAdaptiveAI.t) (r : Rng) move s' r' :
  PowerfulAdaptiveAI.dispatch s r = Ok (move, s', r') ->
  frame s' = frame s
  /\ PowerfulAdaptiveAI.bayesian_prior s' = PowerfulAdaptiveAI.bayesian_prior s.
Proof.
  unfold PowerfulAdaptiveAI.dispatch. intros H.
  repeat match type of H with
         | (if ?b then _ else _) = Ok _ => destruct b
         end;
    try (apply adaptive_decision_frame in H; tauto);
    repeat res_step H; auto.
Qed.

Lemma select_strategy_frame (s : PowerfulAdaptiveAI.t) n a b (r : Rng) s' r' :
  PowerfulAdaptiveAI.select_strategy s n a b r = Ok (s', r') ->
  frame s' = frame s
  /\ PowerfulAdaptiveAI.bayesian_prior s' = PowerfulAdaptiveAI.bayesian_prior s.
Proof.
  unfold PowerfulAdaptiveAI.select_strategy. intros H.
  repeat res_step H; auto.
Qed.

Lemma update_bayesian_prior_frame (s : PowerfulAdaptiveAI.t) (move : string) :
  frame (PowerfulAdaptiveAI.update_bayesian_prior s move) = frame s.
Proof.
  unfold PowerfulAdaptiveAI.update_bayesian_prior.
  destruct (String.eqb move "C"); reflexivity.
Qed.

Lemma decide_move_frame (s : PowerfulAdaptiveAI.t) n a b (r : Rng) move s' r' :
  PowerfulAdaptiveAI.decide_move s n a b r = Ok (move, s', r') ->
  frame s' = frame s.
Proof.
  unfold PowerfulAdaptiveAI.decide_move. intros H.
  destruct (PowerfulAdaptiveAI.select_strategy s n a b r) as [[s1 r1]|e] eqn:E1;
    cbn [bind] in H; [|discriminate H].
  apply select_strategy_frame in E1. destruct E1 as [F1 _].
  destruct (random r1) as [u r2].
  destruct (Qltb u 0.01).
  - destruct (choice_CD r2) as [m r3]. inversion H; subst. exact F1.
  - destruct (PowerfulAdaptiveAI.dispatch s1 r2) as [[[m s2] r3]|e] eqn:E2;
      cbn [bind] in H; [|discriminate H].
    apply dispatch_frame in E2. destruct E2 as [F2 _].
    inversion H; subst.
    rewrite update_bayesian_prior_frame. congruence.
Qed.

(** ** Reset *)

Lemma adaptive_reachable_constants (s : PowerfulAdaptiveAI.t) :
  adaptive_reachable s ->
  PowerfulAdaptiveAI.name s = PowerfulAdaptiveAI.name PowerfulAdaptiveAI.init
  /\ PowerfulAdaptiveAI.learning_rate s
     = PowerfulAdaptiveAI.learning_rate PowerfulAdaptiveAI.init
  /\ PowerfulAdaptiveAI.prediction_accuracy s
     = PowerfulAdaptiveAI.prediction_accuracy PowerfulAdaptiveAI.init
  /\ PowerfulAdaptiveAI.risk_tolerance s
     = PowerfulAdaptiveAI.risk_tolerance PowerfulAdaptiveAI.init
  /\ PowerfulAdaptiveAI.pattern_memory s
     = PowerfulAdaptiveAI.pattern_memory PowerfulAdaptiveAI.init.
Proof.
  induction 1 as [ | s n a b r m s' r' _ IH Hd | s r m s' r' _ IH Hd
                 | s m _ IH | s st w an _ IH _ | s m1 m2 _ IH | s _ IH ].
  - repeat split.
  - apply decide_move_frame in Hd. unfold frame in Hd.
    inversion Hd as [[E1 E2 E3 E4 E5 E6 E7 E8]].
    rewrite E1, E5, E6, E7, E8. exact IH.
  - apply adaptive_decision_frame in Hd. destruct Hd as [Hd _]. unfold frame in Hd.
    inversion Hd as [[E1 E2 E3 E4 E5 E6 E7 E8]].
    rewrite E1, E5, E6, E7, E8. exact IH.
  - pose proof (update_bayesian_prior_frame s m) as Hd. unfold frame in Hd.
    inversion Hd as [[E1 E2 E3 E4 E5 E6 E7 E8]].
    rewrite E1, E5, E6, E7, E8. exact IH.
  - exact IH.
  - exact IH.
  - exact IH.
Qed.

Lemma opponent_reachable_constants (ty : string) (s : StrategicOpponentAI.t) :
  opponent_reachable ty s ->
  StrategicOpponentAI.ai_type s = ty
  /\ StrategicOpponentAI.name s = StrategicOpponentAI.display_name ty
  /\ StrategicOpponentAI.initialize_personality ty
     = Ok (StrategicOpponentAI.personality s).
Proof.
  induction 1 as [s Hinit | s m1 m2 _ IH | s _ IH]; try exact IH.
  unfold StrategicOpponentAI.init in Hinit.
  destruct (StrategicOpponentAI.initialize_personality ty) as [p|e];
    cbn [bind] in Hinit; [|discriminate Hinit].
  inversion Hinit; subst. repeat split.
Qed.

(** C9: [reset] on an adaptive agent in any reachable state gives exactly
    the freshly constructed agent, and [reset] on a reachable opponent
    gives exactly the opponent constructed with the same ai_type; the
    fresh adaptive agent has empty histories, strategy "minimax", zero
    cooldown and consecutive losses, prior 0.5, aggression 0.3 and a new
    analyzer whose ledger holds wins 0 and uses 0 for each strategy. *)
Theorem reset_restores_fresh_state :
  (forall s : PowerfulAdaptiveAI.t,
     adaptive_reachable s -> PowerfulAdaptiveAI.reset s = PowerfulAdaptiveAI.init) /\
  (forall (ai_type : string) (s fresh : StrategicOpponentAI.t),
     opponent_reachable ai_type s ->
     StrategicOpponentAI.init ai_type = Ok fresh ->
     StrategicOpponentAI.reset s = fresh) /\
  (PowerfulAdaptiveAI.my_history PowerfulAdaptiveAI.init = []
   /\ PowerfulAdaptiveAI.opp_history PowerfulAdaptiveAI.init = []
   /\ PowerfulAdaptiveAI.current_strategy PowerfulAdaptiveAI.init = "minimax"
   /\ PowerfulAdaptiveAI.strategy_change_cooldown PowerfulAdaptiveAI.init = 0%Z
   /\ PowerfulAdaptiveAI.consecutive_losses PowerfulAdaptiveAI.init = 0%Z
   /\ PowerfulAdaptiveAI.bayesian_prior PowerfulAdaptiveAI.init = 0.5%Q
   /\ PowerfulAdaptiveAI.aggression_level PowerfulAdaptiveAI.init = 0.3%Q
   /\ PowerfulAdaptiveAI.analyzer PowerfulAdaptiveAI.init = AdvancedStrategyAnalyzer.init
   /\ Forall (fun strategy =>
                AdvancedStrategyAnalyzer.strategy_performance AdvancedStrategyAnalyzer.init
                !! strategy = Some {| wins := 0; uses := 0 |})
             AdvancedStrategyAnalyzer.strategy_names).
Proof.
  split; [|split].
  - intros s Hs.
    destruct (adaptive_reachable_constants s Hs) as (E1 & E2 & E3 & E4 & E5).
    unfold PowerfulAdaptiveAI.reset. destruct s; simpl in *. subst. reflexivity.
  - intros ty s fresh Hs Hinit.
    destruct (opponent_reachable_constants ty s Hs) as (E1 & E2 & E3).
    unfold StrategicOpponentAI.init in Hinit. rewrite E3 in Hinit.
    cbn [bind] in Hinit. inversion Hinit; subst.
    unfold StrategicOpponentAI.reset. destruct s; simpl in *. subst. reflexivity.
  - repeat split. repeat constructor.
Qed.

Lemma reset_restores_fresh_state_witness :
  (let s := PowerfulAdaptiveAI.update_bayesian_prior PowerfulAdaptiveAI.init "C" in
   PowerfulAdaptiveAI.reset
     (PowerfulAdaptiveAI.set_opp_history
        (PowerfulAdaptiveAI.set_my_history s (PowerfulAdaptiveAI.my_history s ++ ["C"]))
        (PowerfulAdaptiveAI.opp_history s ++ ["D"]))
   = PowerfulAdaptiveAI.init) /\
  (let s := Game.opponent_ai first_round_game in
   StrategicOpponentAI.reset
     (StrategicOpponentAI.set_opp_history
        (StrategicOpponentAI.set_my_history s (StrategicOpponentAI.my_history s ++ ["D"]))
        (StrategicOpponentAI.opp_history s ++ ["C"]))
   = s).
Proof.
  split.
  - apply (proj1 reset_restores_fresh_state).
    apply reach_append, reach_update_bayesian_prior, reach_init.
  - apply (proj1 (proj2 reset_restores_fresh_state) "tit_for_tat").
    + apply oreach_append, oreach_init. vm_compute. reflexivity.
    + vm_compute. reflexivity.
Defined.

(** ** The random override of [decide_move] *)

(** C4: a call on which the override fires. For the fresh agent and a
    generator whose draws are all 0.005, [decide_move] returns "C" from
    the override and the prior is still 0.5, whereas updating the prior
    with the returned move gives 0.55. *)
Theorem override_leaves_prior_unchanged :
  exists (s' : PowerfulAdaptiveAI.t) (r' : Rng),
    PowerfulAdaptiveAI.decide_move PowerfulAdaptiveAI.init 0 0 0 (fun _ => 0.005%Q)
    = Ok ("C", s', r')
    /\ PowerfulAdaptiveAI.bayesian_prior s' = 0.5%Q
    /\ PowerfulAdaptiveAI.bayesian_prior
         (PowerfulAdaptiveAI.update_bayesian_prior PowerfulAdaptiveAI.init "C")
       = Qmin 0.95 (0.5 * 1.1)
    /\ ~ (Qmin 0.95 (0.5 * 1.1) == 0.5)%Q.
Proof.
  eexists. eexists. split; [reflexivity|].
  split; [reflexivity|].
  split; [reflexivity|].
  vm_compute. discriminate.
Qed.

(** On every call whose override draw is below 0.01 the prior after the
    call is the prior before it. *)
Lemma decide_move_override (s : PowerfulAdaptiveAI.t) n a b (r : Rng) s1 r1 :
  PowerfulAdaptiveAI.select_strategy s n a b r = Ok (s1, r1) ->
  Qltb (r1 0%nat) 0.01 = true ->
  exists move r',
    PowerfulAdaptiveAI.decide_move s n a b r = Ok (move, s1, r')
    /\ is_move move
    /\ PowerfulAdaptiveAI.bayesian_prior s1 = PowerfulAdaptiveAI.bayesian_prior s.
Proof.
  intros Hsel Hdraw. unfold PowerfulAdaptiveAI.decide_move.
  rewrite Hsel. cbn [bind]. unfold random at 1. rewrite Hdraw.
  unfold choice_CD, random.
  eexists. eexists. split; [reflexivity|]. split.
  - destruct (Qltb (r1 1%nat) (1 # 2)); [left | right]; reflexivity.
  - apply select_strategy_frame in Hsel. tauto.
Qed.

(** ** The ledger during a round *)

(** Every returning [play_round] hands back the analyzer it was given:
    nothing in the round calls [record_strategy_performance]. *)
Lemma play_round_keeps_ledger :
  forall (g g' : Game.t) (r r' : Rng),
    Game.play_round g r = Ok (g', r') ->
    PowerfulAdaptiveAI.analyzer (Game.adaptive_ai g')
    = PowerfulAdaptiveAI.analyzer (Game.adaptive_ai g).
Proof.
  intros g g' r r'. unfold Game.play_round.
  destruct (Game.max_rounds g <=? Game.round_number g)%Z.
  - intros H. inversion H; subst. reflexivity.
  - destruct (PowerfulAdaptiveAI.decide_move _ _ _ _ _) as [[[m1 a1] r1]|e] eqn:E1;
      cbn [bind]; [|discriminate].
    destruct (StrategicOpponentAI.decide_move _ _ _ _ _) as [[m2 r2]|e];
      cbn [bind]; [|discriminate].
    destruct (Game.score _ _ _) as [[p1 p2]|e]; cbn [bind]; [|discriminate].
    intros H. inversion H; subst. simpl.
    apply decide_move_frame in E1. unfold frame in E1. congruence.
Qed.

Lemma play_round_keeps_ledger_witness :
  PowerfulAdaptiveAI.analyzer (Game.adaptive_ai after_first_round)
  = PowerfulAdaptiveAI.analyzer (Game.adaptive_ai first_round_game).
Proof.
  eapply play_round_keeps_ledger with (r := fun _ => 0.5%Q).
  reflexivity.
Defined.

(** C1: the round outcome should reach the ledger, and does not. On the
    first round of a battle both agents cooperate and the adaptive agent
    scores 3 against 3 while using "minimax";
    [record_strategy_performance] for "minimax" with won_round = (3 >= 3)
    gives that strategy one use and one win, as the claim requires, but
    the ledger after [play_round] still holds wins 0 and uses 0. The
    analyzer defines the recorder and reads the ledger in
    [analyze_opponent] and [get_weighted_random_strategy]; the driver
    never calls it. *)
Theorem play_round_records_nothing :
  exists (g' : Game.t) (r' : Rng) (claimed : AdvancedStrategyAnalyzer.t),
    Game.play_round first_round_game (fun _ => 0.5%Q) = Ok (g', r')
    /\ Game.history g' = [("C", "C", 3%Z, 3%Z)]
    /\ PowerfulAdaptiveAI.current_strategy (Game.adaptive_ai g') = "minimax"
    /\ AdvancedStrategyAnalyzer.record_strategy_performance
         (PowerfulAdaptiveAI.analyzer (Game.adaptive_ai first_round_game))
         "minimax" (3 <=? 3)%Z = Ok claimed
    /\ AdvancedStrategyAnalyzer.strategy_performance claimed !! "minimax"
       = Some {| wins := 1; uses := 1 |}
    /\ AdvancedStrategyAnalyzer.strategy_performance
         (PowerfulAdaptiveAI.analyzer (Game.adaptive_ai g')) !! "minimax"
       = Some {| wins := 0; uses := 0 |}
    /\ PowerfulAdaptiveAI.analyzer (Game.adaptive_ai g') <> claimed.
Proof.
  eexists. eexists. eexists.
  split; [reflexivity|].
  split; [reflexivity|].
  split; [reflexivity|].
  split; [vm_compute; reflexivity|].
  split; [vm_compute; reflexivity|].
  split; [vm_compute; reflexivity|].
  intros E.
  apply (f_equal (fun a => AdvancedStrategyAnalyzer.strategy_performance a !! "minimax")) in E.
  vm_compute in E. discriminate E.
Qed.

(** ** Every decision is a move *)

Lemma count_le_length (x : string) (l : list string) : (count x l <= length l)%nat.
Proof. unfold count. apply count_occ_bound. Qed.

Lemma lastn_length {A : Type} (n : nat) (l : list A) :
  length (lastn n l) = Nat.min n (length l).
Proof. unfold lastn. rewrite length_skipn. lia. Qed.

Lemma coop_fraction_ok (h : list string) :
  h <> [] -> exists q, coop_fraction h = Ok q /\ (0 <= q <= 1)%Q.
Proof.
  intros Hne. apply fraction_ok.
  - apply count_le_length.
  - destruct h; [contradiction | simpl; lia].
Qed.

Lemma recent_fraction_ok (h : list string) :
  h <> [] -> exists q, recent_fraction h = Ok q /\ (0 <= q <= 1)%Q.
Proof.
  intros Hne. apply fraction_ok.
  - rewrite <- (lastn_length 3 h). apply count_le_length.
  - destruct h; [contradiction | simpl; lia].
Qed.

Lemma getlast_ok (h : list string) :
  valid_history h -> h <> [] -> exists m, getlast h = Ok m /\ is_move m.
Proof.
  intros Hv Hne. unfold getlast.
  destruct (rev h) as [|x t] eqn:E.
  - apply (f_equal (@length string)) in E. rewrite length_rev in E.
    destruct h; [contradiction | discriminate E].
  - exists x. split; [reflexivity|].
    unfold valid_history in Hv. rewrite List.Forall_forall in Hv. apply Hv.
    apply in_rev. rewrite E. left. reflexivity.
Qed.

Lemma is_move_if (b : bool) : is_move (if b then "C" else "D").
Proof. destruct b; [left | right]; reflexivity. Qed.

Lemma is_move_if' (b : bool) : is_move (if b then "D" else "C").
Proof. destruct b; [right | left]; reflexivity. Qed.

Lemma minimax_decision_ok (s : PowerfulAdaptiveAI.t) :
  returns (PowerfulAdaptiveAI.minimax_decision s) is_move.
Proof.
  unfold PowerfulAdaptiveAI.minimax_decision, returns.
  pose proof (coop_fraction_ok (PowerfulAdaptiveAI.opp_history s)) as Hc.
  pose proof (recent_fraction_ok (PowerfulAdaptiveAI.opp_history s)) as Hr.
  destruct (PowerfulAdaptiveAI.opp_history s) as [|x t].
  - exists "C". split; [reflexivity | left; reflexivity].
  - destruct Hc as (c & Hc & _); [discriminate|].
    destruct Hr as (q & Hr & _); [discriminate|].
    rewrite Hc, Hr. cbn [bind].
    destruct (10 <? length (PowerfulAdaptiveAI.my_history s))%nat eqn:E.
    + apply Nat.ltb_lt in E.
      rewrite truediv_ok by (apply Qnat_nonzero; lia).
      cbn [bind]. eexists. split; [reflexivity | apply is_move_if].
    + cbn [bind]. eexists. split; [reflexivity | apply is_move_if].
Qed.

Lemma posterior_denominator_pos (likelihood prior : Q) :
  (0 <= likelihood <= 1)%Q -> prior_in_range prior ->
  (0 < PowerfulAdaptiveAI.posterior_denominator likelihood prior)%Q.
Proof.
  unfold prior_in_range, PowerfulAdaptiveAI.posterior_denominator.
  intros Hl Hp. nra.
Qed.

Lemma bayesian_decision_ok (s : PowerfulAdaptiveAI.t) :
  prior_in_range (PowerfulAdaptiveAI.bayesian_prior s) ->
  returns (PowerfulAdaptiveAI.bayesian_decision s) is_move.
Proof.
  intros Hp. unfold PowerfulAdaptiveAI.bayesian_decision.
  pose proof (minimax_decision_ok s) as Hm.
  pose proof (recent_fraction_ok (PowerfulAdaptiveAI.opp_history s)) as Hr.
  destruct (PowerfulAdaptiveAI.opp_history s) as [|x t].
  - exists "C". split; [reflexivity | left; reflexivity].
  - destruct Hr as (q & Hr & Hq); [discriminate|].
    rewrite Hr. cbn [bind].
    rewrite (truediv_ok _ 10) by (intros E; discriminate E).
    cbn [bind].
    pose proof (posterior_denominator_pos q _ Hq Hp) as Hd.
    rewrite truediv_ok by lra.
    cbn [bind].
    destruct (Qgtb _ 0.6); [|exact Hm].
    eexists. split; [reflexivity | apply is_move_if].
Qed.

Lemma markov_prediction_ok (s : PowerfulAdaptiveAI.t) :
  valid_history (PowerfulAdaptiveAI.opp_history s) ->
  returns (PowerfulAdaptiveAI.markov_prediction s) is_move.
Proof.
  intros Hv. unfold PowerfulAdaptiveAI.markov_prediction.
  pose proof (minimax_decision_ok s) as Hm.
  destruct (length (PowerfulAdaptiveAI.opp_history s) <? 3)%nat; [exact Hm|].
  rewrite (tally_followers _ _ Hv). cbn [bind].
  destruct (_ =? 0)%Z; [exact Hm|].
  cbn [max_key bind]. eexists. split; [reflexivity | apply is_move_if'].
Qed.

Lemma dict_get_responses (last key : string) :
  is_move last ->
  match dict_get [("CCCC", "D"); ("DDDD", "C"); ("CDCD", last);
                  ("DCDC", last); ("CCDC", "D"); ("DDCD", "C")] key with
  | Ok response => is_move response
  | Raise _ => True
  end.
Proof.
  intros Hl. cbn [dict_get].
  repeat match goal with
         | |- context [String.eqb ?a key] => destruct (String.eqb a key)
         end;
    first [exact Hl | left; reflexivity | right; reflexivity | exact I].
Qed.

Lemma pattern_matcher_decision_ok (s : PowerfulAdaptiveAI.t) :
  valid_history (PowerfulAdaptiveAI.opp_history s) ->
  returns (PowerfulAdaptiveAI.pattern_matcher_decision s) is_move.
Proof.
  intros Hv. unfold PowerfulAdaptiveAI.pattern_matcher_decision.
  destruct (length (PowerfulAdaptiveAI.opp_history s) <? 4)%nat eqn:E.
  - apply minimax_decision_ok.
  - apply Nat.ltb_ge in E.
    destruct (getlast_ok _ Hv) as (last & Hlast & Hmove).
    { intros E0. rewrite E0 in E. simpl in E. lia. }
    rewrite Hlast. cbn [bind].
    pose proof (dict_get_responses last
                  (join (lastn 4 (PowerfulAdaptiveAI.opp_history s))) Hmove) as Hd.
    destruct (dict_get _ _) as [response|e].
    + exists response. split; [reflexivity | exact Hd].
    + apply markov_prediction_ok, Hv.
Qed.

Lemma tit_for_tat_decision_ok (s : PowerfulAdaptiveAI.t) (r : Rng) :
  valid_history (PowerfulAdaptiveAI.opp_history s) ->
  returns (PowerfulAdaptiveAI.tit_for_tat_decision s r) (fun mr => is_move (fst mr)).
Proof.
  intros Hv. unfold PowerfulAdaptiveAI.tit_for_tat_decision.
  pose proof (getlast_ok _ Hv) as Hl.
  pose proof (coop_fraction_ok (PowerfulAdaptiveAI.opp_history s)) as Hc.
  destruct (PowerfulAdaptiveAI.opp_history s) as [|x t].
  - eexists. split; [reflexivity | left; reflexivity].
  - destruct Hl as (last & Hl & Hmove); [discriminate|].
    destruct Hc as (c & Hc & _); [discriminate|].
    rewrite Hl. cbn [bind].
    destruct (String.eqb last "D").
    + rewrite Hc. cbn [bind]. destruct (random r) as [u r'].
      destruct (Qltb u _); eexists; (split; [reflexivity|]);
        [left; reflexivity | exact Hmove].
    + eexists. split; [reflexivity | exact Hmove].
Qed.

Lemma lift_move (m : res string) (r : Rng) :
  returns m is_move ->
  returns (bind m (fun move => Ok (move, r))) (fun mr => is_move (fst mr)).
Proof.
  intros (move & -> & Hmove). eexists. split; [reflexivity | exact Hmove].
Qed.

Lemma fuzzy_decision_ok (s : PowerfulAdaptiveAI.t) (r : Rng) :
  agent_ok s ->
  returns (PowerfulAdaptiveAI.fuzzy_decision s r) (fun mr => is_move (fst mr)).
Proof.
  intros Hs. unfold PowerfulAdaptiveAI.fuzzy_decision.
  pose proof (coop_fraction_ok (PowerfulAdaptiveAI.opp_history s)) as Hc.
  pose proof (recent_fraction_ok (PowerfulAdaptiveAI.opp_history s)) as Hr.
  pose proof (calculate_pattern_consistency_ok (PowerfulAdaptiveAI.opp_history s))
    as (pc & Hpc).
  pose proof (pattern_matcher_decision_ok s (ok_opp_history s Hs)) as Hpm.
  pose proof (tit_for_tat_decision_ok s r (ok_opp_history s Hs)) as Htft.
  pose proof (bayesian_decision_ok s (ok_prior s Hs)) as Hb.
  destruct (PowerfulAdaptiveAI.opp_history s) as [|x t].
  - eexists. split; [reflexivity | left; reflexivity].
  - destruct Hc as (c & Hc & _); [discriminate|].
    destruct Hr as (q & Hr & _); [discriminate|].
    rewrite Hc, Hr, Hpc. cbn [bind].
    destruct (Qgtb c 0.8 && Qgtb q 0.6).
    { destruct (random r) as [u r']. eexists.
      split; [reflexivity | apply is_move_if]. }
    destruct (Qltb c 0.2 && Qltb q 0.4).
    { destruct (random r) as [u r']. eexists.
      split; [reflexivity | apply is_move_if']. }
    destruct (Qgtb pc 0.7); [apply lift_move, Hpm|].
    destruct (Qltb (Qabs (c - 0.5)) 0.3 && Qltb pc 0.4); [exact Htft|].
    apply lift_move, Hb.
Qed.

Lemma score_loop_ok (my : list string) :
  forall (opp : list string) (total possible : Z),
    length my = length opp ->
    exists total',
      PowerfulAdaptiveAI.score_loop my opp total possible
      = Ok (total', (possible + 5 * Z.of_nat (length my))%Z).
Proof.
  induction my as [|m my IH]; intros opp total possible Hlen.
  - exists total. simpl. rewrite Z.add_0_r. reflexivity.
  - destruct opp as [|o opp]; [discriminate Hlen|].
    simpl in Hlen. injection Hlen as Hlen.
    destruct (IH opp (total + PowerfulAdaptiveAI.payoff_points m o)%Z
                (possible + 5)%Z Hlen) as (total' & Hrun).
    exists total'. cbn [PowerfulAdaptiveAI.score_loop]. rewrite Hrun.
    f_equal. f_equal. simpl length. lia.
Qed.

Lemma exploit_count_ok (my : list string) :
  forall opp : list string,
    length my = length opp ->
    exists n, PowerfulAdaptiveAI.exploit_count my opp = Ok n.
Proof.
  induction my as [|m my IH]; intros opp Hlen.
  - exists 0%Z. reflexivity.
  - destruct opp as [|o opp]; [discriminate Hlen|].
    simpl in Hlen. injection Hlen as Hlen.
    destruct (IH opp Hlen) as (n & Hn).
    cbn [PowerfulAdaptiveAI.exploit_count tl].
    destruct (String.eqb m "D"); rewrite Hn; cbn [bind]; eexists; reflexivity.
Qed.

Lemma calculate_comprehensive_success_ok (s : PowerfulAdaptiveAI.t) :
  length (PowerfulAdaptiveAI.my_history s) = length (PowerfulAdaptiveAI.opp_history s) ->
  exists q, PowerfulAdaptiveAI.calculate_comprehensive_success s = Ok q.
Proof.
  intros Hlen. unfold PowerfulAdaptiveAI.calculate_comprehensive_success.
  destruct (length (PowerfulAdaptiveAI.my_history s) <? 2)%nat eqn:E;
    [eexists; reflexivity|].
  apply Nat.ltb_ge in E.
  destruct (score_loop_ok _ _ 0%Z 0%Z Hlen) as (total & Hrun).
  rewrite Hrun. cbn [bind].
  rewrite truediv_ok.
  2:{ intros E0. unfold Qeq in E0. simpl in E0. lia. }
  cbn [bind].
  destruct (exploit_count_ok _ _ Hlen) as (n & Hn). rewrite Hn. cbn [bind].
  rewrite truediv_ok by (apply Qnat_nonzero; lia).
  cbn [bind]. eexists. reflexivity.
Qed.

Lemma adaptive_decision_ok (s : PowerfulAdaptiveAI.t) (r : Rng) :
  agent_ok s ->
  returns (PowerfulAdaptiveAI.adaptive_decision s r)
          (fun out => is_move (fst (fst out))).
Proof.
  intros Hs. unfold PowerfulAdaptiveAI.adaptive_decision.
  destruct (calculate_comprehensive_success_ok s (ok_lengths s Hs)) as (q & Hq).
  pose proof (getlast_ok _ (ok_my_history s Hs)) as Hl.
  destruct (PowerfulAdaptiveAI.opp_history s) as [|x t].
  - eexists. split; [reflexivity | left; reflexivity].
  - rewrite Hq. cbn [bind].
    destruct (Qgtb q 0.7).
    { destruct (PowerfulAdaptiveAI.my_history s) as [|y u].
      - eexists. split; [reflexivity | left; reflexivity].
      - destruct Hl as (last & Hl & Hmove); [discriminate|].
        destruct (random r) as [v r']. destruct (Qltb v 0.8).
        + rewrite Hl. cbn [bind]. eexists. split; [reflexivity | exact Hmove].
        + eexists. split; [reflexivity | right; reflexivity]. }
    destruct (Qltb q 0.4).
    { cbv zeta. destruct (2 <? _)%Z.
      - eexists. split; [reflexivity | right; reflexivity].
      - destruct (random r) as [v r']. eexists.
        split; [reflexivity | apply is_move_if]. }
    cbv zeta. destruct (random r) as [v r']. eexists.
    split; [reflexivity | apply is_move_if].
Qed.

(** ** The analyzer always recommends a strategy *)

Lemma getlast_Forall {A : Type} (P : A -> Prop) (l : list A) :
  Forall P l -> l <> [] -> exists x, getlast l = Ok x /\ P x.
Proof.
  intros Hall Hne. unfold getlast.
  destruct (rev l) as [|x t] eqn:E.
  - apply (f_equal (@length A)) in E. rewrite length_rev in E.
    destruct l; [contradiction | discriminate E].
  - exists x. split; [reflexivity|].
    rewrite List.Forall_forall in Hall. apply Hall.
    apply in_rev. rewrite E. left. reflexivity.
Qed.

Lemma success_rate_ok (p : gmap string perf) (s : string) :
  ledger_ok p -> In s AdvancedStrategyAnalyzer.strategy_names ->
  exists q, AdvancedStrategyAnalyzer.success_rate p s = Ok q /\ (0 <= q <= 1)%Q.
Proof.
  intros Hp Hs. destruct (Hp s Hs) as (e & He & Hok).
  destruct (success_rate_entry p s e He Hok) as (q & Hq & Hr & _).
  exists q. split; assumption.
Qed.

Lemma strategy_weights_ok (p : gmap string perf) (ss : list string) :
  ledger_ok p ->
  Forall (fun s => In s AdvancedStrategyAnalyzer.strategy_names) ss ->
  exists ws, AdvancedStrategyAnalyzer.strategy_weights p ss = Ok ws
             /\ length ws = length ss /\ Forall (fun w => (0 < w)%Q) ws.
Proof.
  intros Hp. induction 1 as [|s ss Hs _ IH].
  - exists []. repeat split. constructor.
  - destruct (success_rate_ok p s Hp Hs) as (q & Hq & Hr).
    destruct IH as (ws & Hws & Hlen & Hpos).
    exists ((0.1 + q)%Q :: ws).
    cbn [AdvancedStrategyAnalyzer.strategy_weights]. rewrite Hq. cbn [bind].
    rewrite Hws. cbn [bind]. split; [reflexivity|]. split.
    + simpl. rewrite Hlen. reflexivity.
    + constructor; [lra | exact Hpos].
Qed.

Lemma accumulate_pos (ws : list Q) :
  Forall (fun w => (0 < w)%Q) ws ->
  forall acc : Q, (0 <= acc)%Q ->
    Forall (fun c => (0 < c)%Q) (accumulate acc ws)
    /\ length (accumulate acc ws) = length ws.
Proof.
  induction 1 as [|w ws Hw _ IH]; intros acc Hacc.
  - split; [constructor | reflexivity].
  - destruct (IH (acc + w)%Q) as [Hall Hlen]; [lra|].
    split.
    + cbn [accumulate]. constructor; [lra | exact Hall].
    + cbn [accumulate]. simpl. rewrite Hlen. reflexivity.
Qed.

Lemma bisect_le (a : list Q) (x : Q) (hi : nat) : (bisect a x hi <= hi)%nat.
Proof.
  revert a. induction hi as [|hi IH]; intros a.
  - destruct a; simpl; lia.
  - destruct a as [|c a]; simpl; [lia|].
    destruct (Qle_bool c x); [|lia].
    specialize (IH a). lia.
Qed.

Lemma choices_ok (population : list string) (weights : list Q) (r : Rng) :
  population <> [] ->
  length weights = length population ->
  Forall (fun w => (0 < w)%Q) weights ->
  exists s r', choices population weights r = Ok (s, r').
Proof.
  intros Hne Hlen Hpos. unfold choices.
  destruct (accumulate_pos weights Hpos 0%Q) as [Hall Hacc]; [lra|].
  destruct (getlast_Forall _ _ Hall) as (total & Htotal & Htpos).
  { intros E. rewrite E in Hacc. simpl in Hacc.
    destruct population; [contradiction|]. simpl in Hlen. lia. }
  rewrite Htotal. cbn [bind].
  destruct (Qle_bool total 0) eqn:E.
  { apply Qle_bool_iff in E. lra. }
  destruct (random r) as [u r'].
  pose proof (bisect_le (accumulate 0 weights) (u * total)%Q (length population - 1)) as Hb.
  destruct (nth_error population _) as [s|] eqn:En.
  - exists s, r'. reflexivity.
  - apply nth_error_None in En.
    destruct population; [contradiction|]. simpl in *. lia.
Qed.

Lemma reweigh_ok (p : gmap string perf) (scores : list (string * Q)) :
  ledger_ok p ->
  Forall (fun kv => In (fst kv) AdvancedStrategyAnalyzer.strategy_names) scores ->
  exists l, AdvancedStrategyAnalyzer.reweigh p scores = Ok l
            /\ length l = length scores.
Proof.
  intros Hp. induction 1 as [|[k v] scores Hk _ IH].
  - exists []. split; reflexivity.
  - simpl in Hk. destruct (success_rate_ok p k Hp Hk) as (q & Hq & _).
    destruct IH as (l & Hl & Hlen).
    cbn [AdvancedStrategyAnalyzer.reweigh]. rewrite Hq. cbn [bind].
    rewrite Hl. cbn [bind]. eexists. split; [reflexivity|].
    simpl. rewrite Hlen. reflexivity.
Qed.

Lemma calculate_analysis_confidence_ok (h : list string) :
  exists q, AdvancedStrategyAnalyzer.calculate_analysis_confidence h = Ok q.
Proof.
  unfold AdvancedStrategyAnalyzer.calculate_analysis_confidence.
  destruct (length h <? 5)%nat; [eexists; reflexivity|].
  destruct (calculate_pattern_consistency_ok h) as (pc & Hpc).
  rewrite Hpc. eexists. reflexivity.
Qed.

Lemma analyze_opponent_ok (a : AdvancedStrategyAnalyzer.t) (h : list string)
    (my_score opp_score : Z) (r : Rng) :
  analyzer_ok a ->
  exists strategy r',
    AdvancedStrategyAnalyzer.analyze_opponent a h my_score opp_score r
    = Ok (strategy, r').
Proof.
  intros [Havail Hledger]. unfold AdvancedStrategyAnalyzer.analyze_opponent.
  destruct (length h <? 3)%nat eqn:E; [eexists; eexists; reflexivity|].
  apply Nat.ltb_ge in E.
  assert (Hne : h <> []) by (intros ->; simpl in E; lia).
  destruct (calculate_analysis_confidence_ok h) as (conf & Hconf).
  rewrite Hconf. cbn [bind].
  destruct (random r) as [u r1].
  destruct (Qgtb u _).
  - unfold AdvancedStrategyAnalyzer.get_weighted_random_strategy.
    rewrite Havail.
    destruct (strategy_weights_ok _ AdvancedStrategyAnalyzer.strategy_names Hledger)
      as (ws & Hws & Hlen & Hpos).
    { rewrite List.Forall_forall. auto. }
    rewrite Hws. cbn [bind].
    apply choices_ok; [discriminate | exact Hlen | exact Hpos].
  - destruct (coop_fraction_ok h Hne) as (c & Hc & _).
    destruct (recent_fraction_ok h Hne) as (q & Hq & _).
    destruct (calculate_pattern_consistency_ok h) as (pc & Hpc).
    rewrite Hc, Hq, Hpc. cbn [bind].
    match goal with
    | |- context [AdvancedStrategyAnalyzer.reweigh _ ?scores] =>
        assert (Hscores :
                  Forall (fun kv => In (fst kv) AdvancedStrategyAnalyzer.strategy_names)
                         scores /\ length scores = 2%nat);
        [|destruct Hscores as [Hin Hlen];
          destruct (reweigh_ok _ scores Hledger Hin) as (l & Hl & Hll);
          rewrite Hl, Hlen in *]
    end.
    { repeat match goal with
             | |- context [if ?b then _ else _] => destruct b
             end;
        (split; [repeat constructor; simpl; tauto | reflexivity]). }
    cbn [bind]. destruct l as [|kv l]; [discriminate Hll|].
    cbn [max_key bind]. eexists. eexists. reflexivity.
Qed.

(** ** The dispatching [decide_move] *)

Lemma agent_ok_frame (s s' : PowerfulAdaptiveAI.t) :
  frame s' = frame s ->
  PowerfulAdaptiveAI.bayesian_prior s' = PowerfulAdaptiveAI.bayesian_prior s ->
  agent_ok s -> agent_ok s'.
Proof.
  unfold frame. intros F P [H1 H2 H3 H4 H5].
  inversion F as [[E1 E2 E3 E4 E5 E6 E7 E8]].
  constructor; rewrite ?E2, ?E3, ?E4, ?P; assumption.
Qed.

Lemma select_strategy_ok (s : PowerfulAdaptiveAI.t) (n a b : Z) (r : Rng) :
  agent_ok s ->
  exists s' r',
    PowerfulAdaptiveAI.select_strategy s n a b r = Ok (s', r') /\ agent_ok s'.
Proof.
  intros Hs.
  assert (Hrun : exists s' r',
             PowerfulAdaptiveAI.select_strategy s n a b r = Ok (s', r')).
  { unfold PowerfulAdaptiveAI.select_strategy.
    destruct (PowerfulAdaptiveAI.should_analyze s n); [|eexists; eexists; reflexivity].
    destruct (analyze_opponent_ok (PowerfulAdaptiveAI.analyzer s)
                (PowerfulAdaptiveAI.opp_history s) a b r (ok_analyzer s Hs))
      as (strategy & r1 & Hrun).
    rewrite Hrun. cbn [bind].
    destruct (negb _); [|eexists; eexists; reflexivity].
    cbv zeta. destruct (randint 2 5 r1) as [cooldown r2].
    eexists. eexists. reflexivity. }
  destruct Hrun as (s' & r' & Hrun). exists s', r'. split; [exact Hrun|].
  destruct (select_strategy_frame _ _ _ _ _ _ _ Hrun) as [F P].
  exact (agent_ok_frame s s' F P Hs).
Qed.

Lemma lift_state (m : res string) (s : PowerfulAdaptiveAI.t) (r : Rng) :
  returns m is_move ->
  returns (bind m (fun move => Ok (move, s, r))) (fun out => is_move (fst (fst out))).
Proof.
  intros (move & -> & Hmove). eexists. split; [reflexivity | exact Hmove].
Qed.

Lemma lift_drawn (m : res (string * Rng)) (s : PowerfulAdaptiveAI.t) :
  returns m (fun mr => is_move (fst mr)) ->
  returns (bind m (fun mr => Ok (fst mr, s, snd mr)))
          (fun out => is_move (fst (fst out))).
Proof.
  intros (mr & -> & Hmove). eexists. split; [reflexivity | exact Hmove].
Qed.

Lemma dispatch_ok (s : PowerfulAdaptiveAI.t) (r : Rng) :
  agent_ok s ->
  returns (PowerfulAdaptiveAI.dispatch s r) (fun out => is_move (fst (fst out))).
Proof.
  intros Hs. unfold PowerfulAdaptiveAI.dispatch. cbv zeta.
  destruct (String.eqb _ "minimax"); [apply lift_state, minimax_decision_ok|].
  destruct (String.eqb _ "fuzzy"); [apply lift_drawn, fuzzy_decision_ok, Hs|].
  destruct (String.eqb _ "tit_for_tat");
    [apply lift_drawn, tit_for_tat_decision_ok, (ok_opp_history s Hs)|].
  destruct (String.eqb _ "adaptive"); [apply adaptive_decision_ok, Hs|].
  destruct (String.eqb _ "pattern_matcher");
    [apply lift_state, pattern_matcher_decision_ok, (ok_opp_history s Hs)|].
  destruct (String.eqb _ "bayesian");
    [apply lift_state, bayesian_decision_ok, (ok_prior s Hs)|].
  apply lift_state, minimax_decision_ok.
Qed.

Lemma decide_move_ok (s : PowerfulAdaptiveAI.t) (n a b : Z) (r : Rng) :
  agent_ok s ->
  returns (PowerfulAdaptiveAI.decide_move s n a b r)
          (fun out => is_move (fst (fst out))).
Proof.
  intros Hs. unfold PowerfulAdaptiveAI.decide_move.
  destruct (select_strategy_ok s n a b r Hs) as (s1 & r1 & Hsel & Hs1).
  rewrite Hsel. cbn [bind].
  destruct (random r1) as [u r2].
  destruct (Qltb u 0.01).
  - unfold choice_CD. destruct (random r2) as [v r3].
    eexists. split; [reflexivity | apply is_move_if].
  - destruct (dispatch_ok s1 r2 Hs1) as ([[move s2] r3] & Hd & Hmove).
    rewrite Hd. cbn [bind]. eexists. split; [reflexivity | exact Hmove].
Qed.

(** C5: in every state with equal-length histories over {C, D}, a prior
    in [0.05, 0.95] and an analyzer over the closed strategy set, each
    decision algorithm (minimax, fuzzy, tit_for_tat, adaptive,
    pattern_matcher, markov, bayesian) and the dispatching [decide_move]
    return, without raising, a move that is "C" or "D", for every stream of
    random draws and every value of current_strategy; the Bayesian
    posterior's denominator is nonzero for every likelihood in [0, 1], in
    particular for the one computed from the history; and a
    current_strategy outside the six names is dispatched to the minimax
    decision. *)
Theorem decisions_return_a_move :
  forall (s : PowerfulAdaptiveAI.t) (r : Rng),
    agent_ok s ->
    returns (PowerfulAdaptiveAI.minimax_decision s) is_move /\
    returns (PowerfulAdaptiveAI.fuzzy_decision s r) (fun mr => is_move (fst mr)) /\
    returns (PowerfulAdaptiveAI.tit_for_tat_decision s r) (fun mr => is_move (fst mr)) /\
    returns (PowerfulAdaptiveAI.adaptive_decision s r)
            (fun out => is_move (fst (fst out))) /\
    returns (PowerfulAdaptiveAI.pattern_matcher_decision s) is_move /\
    returns (PowerfulAdaptiveAI.markov_prediction s) is_move /\
    returns (PowerfulAdaptiveAI.bayesian_decision s) is_move /\
    (forall round_num my_score opp_score : Z,
       returns (PowerfulAdaptiveAI.decide_move s round_num my_score opp_score r)
               (fun out => is_move (fst (fst out)))) /\
    (forall likelihood : Q,
       (0 <= likelihood <= 1)%Q ->
       ~ (PowerfulAdaptiveAI.posterior_denominator likelihood
            (PowerfulAdaptiveAI.bayesian_prior s) == 0)%Q) /\
    (forall likelihood : Q,
       recent_fraction (PowerfulAdaptiveAI.opp_history s) = Ok likelihood ->
       ~ (PowerfulAdaptiveAI.posterior_denominator likelihood
            (PowerfulAdaptiveAI.bayesian_prior s) == 0)%Q) /\
    (~ In (PowerfulAdaptiveAI.current_strategy s) AdvancedStrategyAnalyzer.strategy_names ->
     PowerfulAdaptiveAI.dispatch s r
     = bind (PowerfulAdaptiveAI.minimax_decision s) (fun move => Ok (move, s, r))).
Proof.
  intros s r Hs.
  assert (Hden : forall likelihood : Q,
             (0 <= likelihood <= 1)%Q ->
             ~ (PowerfulAdaptiveAI.posterior_denominator likelihood
                  (PowerfulAdaptiveAI.bayesian_prior s) == 0)%Q).
  { intros l Hl E.
    pose proof (posterior_denominator_pos l _ Hl (ok_prior s Hs)) as Hpos.
    rewrite E in Hpos. lra. }
  split; [apply minimax_decision_ok|].
  split; [apply fuzzy_decision_ok, Hs|].
  split; [apply tit_for_tat_decision_ok, (ok_opp_history s Hs)|].
  split; [apply adaptive_decision_ok, Hs|].
  split; [apply pattern_matcher_decision_ok, (ok_opp_history s Hs)|].
  split; [apply markov_prediction_ok, (ok_opp_history s Hs)|].
  split; [apply bayesian_decision_ok, (ok_prior s Hs)|].
  split; [intros n a b; apply decide_move_ok, Hs|].
  split; [exact Hden|].
  split.
  - intros l Hl. apply Hden.
    destruct (PowerfulAdaptiveAI.opp_history s) as [|x t] eqn:E.
    + vm_compute in Hl. discriminate Hl.
    + destruct (recent_fraction_ok (x :: t)) as (q & Hq & Hr); [discriminate|].
      congruence.
  - intros Hname. unfold PowerfulAdaptiveAI.dispatch. cbv zeta.
    rewrite !(not_in_eqb _ _ _ Hname) by (simpl; tauto).
    reflexivity.
Qed.

Lemma decisions_return_a_move_witness :
  returns (PowerfulAdaptiveAI.decide_move tied_successors_agent 3 0 0 (fun _ => 0.5%Q))
          (fun out => is_move (fst (fst out)))
  /\ returns (PowerfulAdaptiveAI.bayesian_decision tied_successors_agent) is_move.
Proof.
  assert (Hok : agent_ok tied_successors_agent).
  { constructor.
    - repeat constructor; unfold is_move; tauto.
    - repeat constructor; unfold is_move; tauto.
    - reflexivity.
    - unfold prior_in_range. simpl. lra.
    - split; [reflexivity | exact fresh_ledger_ok]. }
  destruct (decisions_return_a_move tied_successors_agent (fun _ => 0.5%Q) Hok)
    as (_ & _ & _ & _ & _ & _ & Hb & Hd & _).
  split; [apply Hd | exact Hb].
Defined.

(** * Further properties of the analyzer *)

Lemma size_list_to_set_le (l : list string) :
  (size (list_to_set l : gset string) <= length l)%nat.
Proof.
  induction l as [|x l IH].
  - rewrite list_to_set_nil, size_empty. simpl. lia.
  - rewrite list_to_set_cons, size_union_alt, size_singleton. simpl length.
    assert (Hsub : (list_to_set l ∖ {[x]} : gset string) ⊆ list_to_set l)
      by (apply subseteq_difference_l; reflexivity).
    apply subseteq_size in Hsub. lia.
Qed.

Lemma transitions_valid (h : list string) :
  valid_history h ->
  Forall (fun t => In t ["CC"; "CD"; "DC"; "DD"]) (AdvancedStrategyAnalyzer.transitions h).
Proof.
  unfold valid_history. induction h as [|a h IH]; intros Hv; [constructor|].
  destruct h as [|b h]; [constructor|].
  change (AdvancedStrategyAnalyzer.transitions (a :: b :: h))
    with ((a ++ b) :: AdvancedStrategyAnalyzer.transitions (b :: h)).
  inversion Hv as [|? ? Ha Hv']; subst.
  constructor; [|exact (IH Hv')].
  inversion Hv' as [|? ? Hb _]; subst.
  destruct Ha as [-> | ->], Hb as [-> | ->]; simpl; tauto.
Qed.

Lemma unique_transitions_bounds (h : list string) :
  valid_history h -> (2 <= length h)%nat ->
  let u := size (list_to_set (AdvancedStrategyAnalyzer.transitions h) : gset string) in
  (1 <= u)%nat /\ (u <= Nat.min 4 (length (AdvancedStrategyAnalyzer.transitions h)))%nat.
Proof.
  intros Hv Hlen u.
  pose proof (transitions_length h) as Hl.
  pose proof (size_list_to_set_le (AdvancedStrategyAnalyzer.transitions h)) as Hle.
  pose proof (transitions_valid h Hv) as Hin.
  fold u in Hle. split; [|apply Nat.min_glb; [|exact Hle]].
  - destruct (AdvancedStrategyAnalyzer.transitions h) as [|t ts] eqn:E.
    { simpl in Hl. lia. }
    assert (Hpos : u <> 0%nat).
    { unfold u. apply size_non_empty_iff. intros Hempty.
      assert (Ht : t ∈ (list_to_set (t :: ts) : gset string)) by set_solver.
      rewrite Hempty in Ht. set_solver. }
    lia.
  - assert (Hsub : (list_to_set (AdvancedStrategyAnalyzer.transitions h) : gset string)
                   ⊆ list_to_set ["CC"; "CD"; "DC"; "DD"]).
    { intros t Ht. apply elem_of_list_to_set in Ht. apply elem_of_list_to_set.
      rewrite List.Forall_forall in Hin. apply list_elem_of_In, Hin, list_elem_of_In, Ht. }
    apply subseteq_size in Hsub. fold u in Hsub.
    assert (Hfour : size (list_to_set ["CC"; "CD"; "DC"; "DD"] : gset string) = 4%nat)
      by (vm_compute; reflexivity).
    lia.
Qed.

Lemma pattern_consistency_bounds (h : list string) :
  valid_history h ->
  exists pc,
    AdvancedStrategyAnalyzer.calculate_pattern_consistency h = Ok pc
    /\ (0 <= pc <= 3 # 4)%Q.
Proof.
  intros Hv. unfold AdvancedStrategyAnalyzer.calculate_pattern_consistency.
  destruct (length h <? 3)%nat eqn:E.
  { exists 0.5%Q. split; [reflexivity | lra]. }
  apply Nat.ltb_ge in E.
  destruct (unique_transitions_bounds h Hv) as [Hu1 Hu2]; [lia|].
  pose proof (transitions_length h) as Hl.
  set (u := size _) in *. set (m := Nat.min 4 _) in *.
  assert (Hm : (1 <= m <= 4)%nat) by (unfold m; lia).
  rewrite truediv_ok by (apply Qnat_nonzero; lia).
  cbn [bind]. eexists. split; [reflexivity|].
  assert (Hmpos : (0 < Qnat m)%Q) by (apply Qnat_pos; lia).
  assert (Hum : (Qnat u <= Qnat m)%Q) by (apply Qnat_le; lia).
  assert (Hu : (1 <= Qnat u)%Q) by (apply (Qnat_le 1 u); lia).
  assert (Hm4 : (Qnat m <= 4)%Q) by (apply (Qnat_le m 4); lia).
  assert (Hq1 : (Qnat u / Qnat m <= 1)%Q)
    by (apply Qle_shift_div_r; [exact Hmpos | lra]).
  assert (Hq2 : (1 # 4 <= Qnat u / Qnat m)%Q)
    by (apply Qle_shift_div_l; [exact Hmpos | lra]).
  split; lra.
Qed.

(** X1: on a history of moves, [calculate_pattern_consistency] returns a
    value between 0 and 3/4 (it never reaches 1), and exactly 0.5 on a
    history shorter than 3. *)
Theorem pattern_consistency_range :
  forall h : list string,
    valid_history h ->
    exists pc,
      AdvancedStrategyAnalyzer.calculate_pattern_consistency h = Ok pc
      /\ (0 <= pc <= 3 # 4)%Q
      /\ ((length h < 3)%nat -> pc = 0.5%Q).
Proof.
  intros h Hv.
  destruct (pattern_consistency_bounds h Hv) as (pc & Hpc & Hrange).
  exists pc. split; [exact Hpc|]. split; [exact Hrange|].
  intros Hlen. apply Nat.ltb_lt in Hlen.
  unfold AdvancedStrategyAnalyzer.calculate_pattern_consistency in Hpc.
  rewrite Hlen in Hpc. congruence.
Qed.

Lemma pattern_consistency_range_witness :
  exists pc,
    AdvancedStrategyAnalyzer.calculate_pattern_consistency ["C"; "D"; "D"; "C"; "C"] = Ok pc
    /\ (0 <= pc <= 3 # 4)%Q.
Proof.
  destruct (pattern_consistency_range ["C"; "D"; "D"; "C"; "C"]) as (pc & H1 & H2 & _).
  - repeat constructor; unfold is_move; tauto.
  - exists pc. split; assumption.
Defined.

(** X2: on a history of moves, [calculate_analysis_confidence] returns a
    value between 1/8 and 7/8. *)
Theorem analysis_confidence_range :
  forall h : list string,
    valid_history h ->
    exists c,
      AdvancedStrategyAnalyzer.calculate_analysis_confidence h = Ok c
      /\ (1 # 8 <= c <= 7 # 8)%Q.
Proof.
  intros h Hv. unfold AdvancedStrategyAnalyzer.calculate_analysis_confidence.
  destruct (length h <? 5)%nat eqn:E.
  { exists 0.5%Q. split; [reflexivity | lra]. }
  apply Nat.ltb_ge in E.
  destruct (pattern_consistency_bounds h Hv) as (pc & Hpc & Hrange).
  rewrite Hpc. cbn [bind].
  rewrite (truediv_ok _ 20) by (intros E0; discriminate E0). cbn [bind].
  rewrite (truediv_ok _ 2) by (intros E0; discriminate E0).
  eexists. split; [reflexivity|].
  assert (Hlen : (5 <= Qnat (length h))%Q) by (apply (Qnat_le 5); lia).
  assert (Hdq : (1 # 4 <= Qmin 1 (Qnat (length h) / 20) <= 1)%Q).
  { split; [apply Q.min_glb; [lra|] | apply Q.le_min_l].
    apply Qle_shift_div_l; lra. }
  split.
  - apply Qle_shift_div_l; lra.
  - apply Qle_shift_div_r; lra.
Qed.

Lemma analysis_confidence_range_witness :
  exists c,
    AdvancedStrategyAnalyzer.calculate_analysis_confidence
      ["C"; "D"; "D"; "C"; "C"; "C"] = Ok c
    /\ (1 # 8 <= c <= 7 # 8)%Q.
Proof.
  apply analysis_confidence_range.
  repeat constructor; unfold is_move; tauto.
Defined.

Lemma choices_in (population : list string) (weights : list Q) (r : Rng) s r' :
  choices population weights r = Ok (s, r') ->
  In s population /\ r' = snd (random r).
Proof.
  unfold choices. intros H.
  destruct (getlast (accumulate 0 weights)) as [total|e]; cbn [bind] in H;
    [|discriminate H].
  destruct (Qle_bool total 0); [discriminate H|].
  unfold random in *.
  destruct (nth_error population _) as [x|] eqn:E; [|discriminate H].
  inversion H; subst. split; [|reflexivity].
  apply nth_error_In in E. exact E.
Qed.

Lemma max_from_in {V : Type} (ltb : V -> V -> bool) (d : list (string * V)) :
  forall best, In (max_from ltb best d) (fst best :: map fst d).
Proof.
  induction d as [|kv d IH]; intros best; simpl.
  - left. reflexivity.
  - specialize (IH (if ltb (snd best) (snd kv) then kv else best)).
    destruct (ltb (snd best) (snd kv)); simpl in IH; tauto.
Qed.

Lemma reweigh_keys (p : gmap string perf) (scores : list (string * Q)) :
  forall l, AdvancedStrategyAnalyzer.reweigh p scores = Ok l ->
            map fst l = map fst scores.
Proof.
  induction scores as [|[k v] scores IH]; intros l H.
  - inversion H. reflexivity.
  - cbn [AdvancedStrategyAnalyzer.reweigh] in H.
    destruct (AdvancedStrategyAnalyzer.success_rate p k) as [q|e];
      cbn [bind] in H; [|discriminate H].
    destruct (AdvancedStrategyAnalyzer.reweigh p scores) as [rest|e];
      cbn [bind] in H; [|discriminate H].
    inversion H; subst. simpl. rewrite (IH rest eq_refl). reflexivity.
Qed.

Lemma analyze_opponent_in (a : AdvancedStrategyAnalyzer.t) (h : list string)
    (my_score opp_score : Z) (r : Rng) strategy r' :
  AdvancedStrategyAnalyzer.available_strategies a
  = AdvancedStrategyAnalyzer.strategy_names ->
  AdvancedStrategyAnalyzer.analyze_opponent a h my_score opp_score r = Ok (strategy, r') ->
  In strategy AdvancedStrategyAnalyzer.strategy_names.
Proof.
  intros Havail. unfold AdvancedStrategyAnalyzer.analyze_opponent. intros H.
  destruct (length h <? 3)%nat.
  { inversion H; subst. simpl. tauto. }
  destruct (AdvancedStrategyAnalyzer.calculate_analysis_confidence h) as [conf|e];
    cbn [bind] in H; [|discriminate H].
  destruct (random r) as [u r1].
  destruct (Qgtb u _).
  - unfold AdvancedStrategyAnalyzer.get_weighted_random_strategy in H.
    destruct (AdvancedStrategyAnalyzer.strategy_weights _ _) as [ws|e];
      cbn [bind] in H; [|discriminate H].
    apply choices_in in H. rewrite Havail in H. tauto.
  - destruct (coop_fraction h) as [c|e]; cbn [bind] in H; [|discriminate H].
    destruct (recent_fraction h) as [q|e]; cbn [bind] in H; [|discriminate H].
    destruct (AdvancedStrategyAnalyzer.calculate_pattern_consistency h) as [pc|e];
      cbn [bind] in H; [|discriminate H].
    match type of H with
    | context [AdvancedStrategyAnalyzer.reweigh _ ?scores] =>
        assert (Hkeys : Forall (fun k => In k AdvancedStrategyAnalyzer.strategy_names)
                               (map fst scores));
        [|destruct (AdvancedStrategyAnalyzer.reweigh _ scores) as [l|e] eqn:El;
          cbn [bind] in H; [|discriminate H];
          apply reweigh_keys in El; rewrite <- El in Hkeys]
    end.
    { clear H.
      repeat match goal with
             | |- context [if ?b then _ else _] => destruct b
             end;
        (do 2 (constructor; [simpl; tauto|]); constructor). }
    destruct l as [|kv l]; cbn [max_key bind] in H; [discriminate H|].
    inversion H; subst.
    rewrite List.Forall_forall in Hkeys. apply Hkeys.
    exact (max_from_in Qltb l kv).
Qed.

(** X3: on an analyzer over the closed strategy set whose ledger keeps
    wins <= uses, [analyze_opponent] never raises and recommends one of
    the six strategy names, for every history, score pair and random
    stream; on a history shorter than 3 it recommends "minimax" and draws
    nothing. *)
Theorem analyze_opponent_recommends_known_strategy :
  forall (a : AdvancedStrategyAnalyzer.t) (h : list string)
         (my_score opp_score : Z) (r : Rng),
    analyzer_ok a ->
    exists strategy r',
      AdvancedStrategyAnalyzer.analyze_opponent a h my_score opp_score r
      = Ok (strategy, r')
      /\ In strategy AdvancedStrategyAnalyzer.strategy_names
      /\ ((length h < 3)%nat -> strategy = "minimax" /\ r' = r).
Proof.
  intros a h my_score opp_score r Ha.
  destruct (analyze_opponent_ok a h my_score opp_score r Ha) as (strategy & r' & Hrun).
  exists strategy, r'. split; [exact Hrun|]. split.
  - exact (analyze_opponent_in a h my_score opp_score r strategy r' (proj1 Ha) Hrun).
  - intros Hlen. apply Nat.ltb_lt in Hlen.
    unfold AdvancedStrategyAnalyzer.analyze_opponent in Hrun.
    rewrite Hlen in Hrun. inversion Hrun. split; reflexivity.
Qed.

Lemma analyze_opponent_recommends_known_strategy_witness :
  exists strategy r',
    AdvancedStrategyAnalyzer.analyze_opponent AdvancedStrategyAnalyzer.init
      ["C"; "D"; "D"; "C"; "C"; "C"] 4 9 (fun _ => 0.5%Q) = Ok (strategy, r')
    /\ In strategy AdvancedStrategyAnalyzer.strategy_names.
Proof.
  destruct (analyze_opponent_recommends_known_strategy AdvancedStrategyAnalyzer.init
              ["C"; "D"; "D"; "C"; "C"; "C"] 4 9 (fun _ => 0.5%Q))
    as (strategy & r' & H1 & H2 & _).
  - split; [reflexivity | exact fresh_ledger_ok].
  - exists strategy, r'. split; assumption.
Defined.

(** X4: on such an analyzer [get_weighted_random_strategy] never raises,
    returns one of the available strategies and consumes exactly one
    draw. *)
Theorem weighted_random_strategy_is_available :
  forall (a : AdvancedStrategyAnalyzer.t) (r : Rng),
    analyzer_ok a ->
    exists strategy,
      AdvancedStrategyAnalyzer.get_weighted_random_strategy a r
      = Ok (strategy, snd (random r))
      /\ In strategy (AdvancedStrategyAnalyzer.available_strategies a).
Proof.
  intros a r [Havail Hledger].
  unfold AdvancedStrategyAnalyzer.get_weighted_random_strategy.
  rewrite Havail.
  destruct (strategy_weights_ok _ AdvancedStrategyAnalyzer.strategy_names Hledger)
    as (ws & Hws & Hlen & Hpos).
  { rewrite List.Forall_forall. auto. }
  rewrite Hws. cbn [bind].
  destruct (choices_ok AdvancedStrategyAnalyzer.strategy_names ws r)
    as (strategy & r' & Hrun); [discriminate | exact Hlen | exact Hpos |].
  destruct (choices_in _ _ _ _ _ Hrun) as [Hin ->].
  exists strategy. split; [exact Hrun | exact Hin].
Qed.

Lemma weighted_random_strategy_is_available_witness :
  exists strategy,
    AdvancedStrategyAnalyzer.get_weighted_random_strategy
      AdvancedStrategyAnalyzer.init (fun _ => 0.5%Q)
    = Ok (strategy, snd (random (fun _ => 0.5%Q)))
    /\ In strategy
         (AdvancedStrategyAnalyzer.available_strategies AdvancedStrategyAnalyzer.init).
Proof.
  apply weighted_random_strategy_is_available.
  split; [reflexivity | exact fresh_ledger_ok].
Defined.

(** * Further properties of the decision algorithms *)

Lemma lastn_app {A : Type} (n : nat) (p l : list A) :
  length l = n -> lastn n (p ++ l) = l.
Proof.
  intros Hl. unfold lastn. rewrite length_app, Hl.
  replace (length p + n - n)%nat with (length p + 0)%nat by lia.
  rewrite skipn_app, Nat.add_0_r, skipn_all.
  replace (length p - length p)%nat with 0%nat by lia. reflexivity.
Qed.

Lemma getlast_app {A : Type} (p : list A) (x : A) : getlast (p ++ [x]) = Ok x.
Proof. unfold getlast. rewrite rev_app_distr. reflexivity. Qed.

Lemma weighted_coop_range (c q : Q) :
  (0 <= c <= 1)%Q -> (0 <= q <= 1)%Q -> (0 <= c * 0.4 + q * 0.6 <= 1)%Q.
Proof. intros Hc Hq. lra. Qed.

(** Without the dampening the expected value of defecting is never below
    that of cooperating. *)
Lemma ev_defect_dominates (w rt : Q) :
  (0 <= w <= 1)%Q -> (rt <= 0.4)%Q ->
  (w * 3 + (1 - w) * 0 <= w * 5 * (1 - rt) + (1 - w) * 1)%Q.
Proof. intros Hw Hrt. nra. Qed.

(** X5: with a risk tolerance of at most 0.4 (the constructor sets 0.4)
    and a non-empty opponent history, [minimax_decision] returns "D"
    whenever at most 10 own moves are on record; it can return "C" only
    when more than 10 own moves are on record and more than 70% of them
    are defections. *)
Theorem minimax_defects_unless_dampened :
  forall s : PowerfulAdaptiveAI.t,
    (PowerfulAdaptiveAI.risk_tolerance s <= 0.4)%Q ->
    PowerfulAdaptiveAI.opp_history s <> [] ->
    ((length (PowerfulAdaptiveAI.my_history s) <= 10)%nat ->
     PowerfulAdaptiveAI.minimax_decision s = Ok "D") /\
    (PowerfulAdaptiveAI.minimax_decision s = Ok "C" ->
     (10 < length (PowerfulAdaptiveAI.my_history s))%nat /\
     (0.7 * Qnat (length (PowerfulAdaptiveAI.my_history s))
      < Qnat (count "D" (PowerfulAdaptiveAI.my_history s)))%Q).
Proof.
  intros s Hrt Hne. unfold PowerfulAdaptiveAI.minimax_decision.
  destruct (coop_fraction_ok _ Hne) as (c & Hc & Hcr).
  destruct (recent_fraction_ok _ Hne) as (q & Hq & Hqr).
  destruct (PowerfulAdaptiveAI.opp_history s) as [|x t]; [contradiction|].
  rewrite Hc, Hq. cbn [bind].
  pose proof (weighted_coop_range c q Hcr Hqr) as Hw.
  pose proof (ev_defect_dominates _ _ Hw Hrt) as Hev.
  set (w := (c * 0.4 + q * 0.6)%Q) in *.
  set (ev_coop := (w * 3 + (1 - w) * 0)%Q) in *.
  set (ev_defect := (w * 5 * (1 - PowerfulAdaptiveAI.risk_tolerance s) + (1 - w) * 1)%Q) in *.
  assert (Hplain : Qgtb ev_coop ev_defect = false) by (apply Qltb_ge; exact Hev).
  destruct (10 <? length (PowerfulAdaptiveAI.my_history s))%nat eqn:E.
  - apply Nat.ltb_lt in E. split; [lia|].
    rewrite truediv_ok by (apply Qnat_nonzero; lia). cbn [bind].
    destruct (Qgtb _ 0.7) eqn:Er.
    + intros _. split; [exact E|].
      apply Qltb_lt in Er.
      assert (Hpos : (0 < Qnat (length (PowerfulAdaptiveAI.my_history s)))%Q)
        by (apply Qnat_pos; lia).
      apply (Qmult_lt_r _ _ _ Hpos) in Er.
      assert (Hcancel :
                (Qnat (count "D" (PowerfulAdaptiveAI.my_history s))
                 / Qnat (length (PowerfulAdaptiveAI.my_history s))
                 * Qnat (length (PowerfulAdaptiveAI.my_history s))
                 == Qnat (count "D" (PowerfulAdaptiveAI.my_history s)))%Q)
        by (field; lra).
      rewrite Hcancel in Er. exact Er.
    + rewrite Hplain. intros H. discriminate H.
  - apply Nat.ltb_ge in E. cbn [bind]. rewrite Hplain. split.
    + intros _. reflexivity.
    + intros H. discriminate H.
Qed.

Lemma minimax_defects_unless_dampened_witness :
  PowerfulAdaptiveAI.minimax_decision
    (PowerfulAdaptiveAI.set_opp_history
       (PowerfulAdaptiveAI.set_my_history PowerfulAdaptiveAI.init ["C"; "C"; "C"])
       ["C"; "C"; "C"]) = Ok "D".
Proof.
  apply minimax_defects_unless_dampened.
  - simpl. lra.
  - simpl. discriminate.
  - simpl. lia.
Defined.

Lemma pattern_matcher_table (s : PowerfulAdaptiveAI.t) (earlier : list string)
    (a b c d : string) :
  PowerfulAdaptiveAI.opp_history s = (earlier ++ [a; b; c; d])%list ->
  PowerfulAdaptiveAI.pattern_matcher_decision s
  = match dict_get [("CCCC", "D"); ("DDDD", "C"); ("CDCD", d);
                    ("DCDC", d); ("CCDC", "D"); ("DDCD", "C")]
                   (join [a; b; c; d]) with
    | Ok response => Ok response
    | Raise _ => PowerfulAdaptiveAI.markov_prediction s
    end.
Proof.
  intros Hh. unfold PowerfulAdaptiveAI.pattern_matcher_decision.
  rewrite Hh.
  assert (Hlen : (length ((earlier ++ [a; b; c; d])%list) <? 4)%nat = false).
  { apply Nat.ltb_ge. rewrite length_app. simpl. lia. }
  rewrite Hlen, (lastn_app 4 earlier [a; b; c; d] eq_refl).
  replace (earlier ++ [a; b; c; d])%list with ((earlier ++ [a; b; c]) ++ [d])%list
    by (rewrite <- app_assoc; reflexivity).
  rewrite getlast_app. reflexivity.
Qed.

(** X6: the response table of [pattern_matcher_decision]. Whatever came
    before, an opponent history ending in C C C C yields "D", D D D D
    yields "C", C D C D yields "D", D C D C yields "C", C C D C yields "D"
    and D D C D yields "C"; no other field of the agent matters. *)
Theorem pattern_matcher_table_responses :
  forall (s : PowerfulAdaptiveAI.t) (earlier : list string),
    (PowerfulAdaptiveAI.opp_history s = (earlier ++ ["C"; "C"; "C"; "C"])%list ->
     PowerfulAdaptiveAI.pattern_matcher_decision s = Ok "D") /\
    (PowerfulAdaptiveAI.opp_history s = (earlier ++ ["D"; "D"; "D"; "D"])%list ->
     PowerfulAdaptiveAI.pattern_matcher_decision s = Ok "C") /\
    (PowerfulAdaptiveAI.opp_history s = (earlier ++ ["C"; "D"; "C"; "D"])%list ->
     PowerfulAdaptiveAI.pattern_matcher_decision s = Ok "D") /\
    (PowerfulAdaptiveAI.opp_history s = (earlier ++ ["D"; "C"; "D"; "C"])%list ->
     PowerfulAdaptiveAI.pattern_matcher_decision s = Ok "C") /\
    (PowerfulAdaptiveAI.opp_history s = (earlier ++ ["C"; "C"; "D"; "C"])%list ->
     PowerfulAdaptiveAI.pattern_matcher_decision s = Ok "D") /\
    (PowerfulAdaptiveAI.opp_history s = (earlier ++ ["D"; "D"; "C"; "D"])%list ->
     PowerfulAdaptiveAI.pattern_matcher_decision s = Ok "C").
Proof.
  intros s earlier.
  repeat split; intros Hh; rewrite (pattern_matcher_table s earlier _ _ _ _ Hh);
    reflexivity.
Qed.

Lemma pattern_matcher_table_responses_witness :
  PowerfulAdaptiveAI.pattern_matcher_decision
    (PowerfulAdaptiveAI.set_opp_history PowerfulAdaptiveAI.init
       (["D"; "C"] ++ ["C"; "C"; "C"; "C"])%list) = Ok "D".
Proof.
  apply (proj1 (pattern_matcher_table_responses
                  (PowerfulAdaptiveAI.set_opp_history PowerfulAdaptiveAI.init
                     (["D"; "C"] ++ ["C"; "C"; "C"; "C"])%list)
                  ["D"; "C"])).
  reflexivity.
Defined.

Lemma Qgtb_lt (x y : Q) : Qgtb x y = true <-> (y < x)%Q.
Proof. unfold Qgtb. apply Qltb_lt. Qed.

Lemma Qgtb_le (x y : Q) : Qgtb x y = false <-> (x <= y)%Q.
Proof. unfold Qgtb. apply Qltb_ge. Qed.

(** The decision taken from a posterior. *)
Lemma bayesian_decision_likelihood (s : PowerfulAdaptiveAI.t) (likelihood : Q) :
  PowerfulAdaptiveAI.opp_history s <> [] ->
  prior_in_range (PowerfulAdaptiveAI.bayesian_prior s) ->
  (0 <= likelihood <= 1)%Q ->
  recent_fraction (PowerfulAdaptiveAI.opp_history s) = Ok likelihood ->
  let posterior :=
    (likelihood * PowerfulAdaptiveAI.bayesian_prior s
     / PowerfulAdaptiveAI.posterior_denominator likelihood
         (PowerfulAdaptiveAI.bayesian_prior s))%Q in
  PowerfulAdaptiveAI.bayesian_decision s
  = if Qgtb (Qabs (posterior - 0.5) * 2) 0.6 then
      Ok (if Qgtb posterior 0.5 then "C" else "D")
    else PowerfulAdaptiveAI.minimax_decision s.
Proof.
  intros Hne Hp Hl Hrecent posterior.
  unfold PowerfulAdaptiveAI.bayesian_decision.
  destruct (PowerfulAdaptiveAI.opp_history s) as [|x t]; [contradiction|].
  rewrite Hrecent. cbn [bind].
  rewrite (truediv_ok _ 10) by (intros E; discriminate E). cbn [bind].
  pose proof (posterior_denominator_pos likelihood _ Hl Hp) as Hd.
  rewrite truediv_ok by lra. cbn [bind]. reflexivity.
Qed.

(** X7: with a prior in [0.05, 0.95], [bayesian_decision] returns "C"
    when every one of the opponent's last (up to three) moves is 'C', and
    "D" when none of them is. *)
Theorem bayesian_decision_follows_unanimous_recent_moves :
  forall s : PowerfulAdaptiveAI.t,
    prior_in_range (PowerfulAdaptiveAI.bayesian_prior s) ->
    PowerfulAdaptiveAI.opp_history s <> [] ->
    (count "C" (lastn 3 (PowerfulAdaptiveAI.opp_history s))
     = Nat.min 3 (length (PowerfulAdaptiveAI.opp_history s)) ->
     PowerfulAdaptiveAI.bayesian_decision s = Ok "C") /\
    (count "C" (lastn 3 (PowerfulAdaptiveAI.opp_history s)) = 0%nat ->
     PowerfulAdaptiveAI.bayesian_decision s = Ok "D").
Proof.
  intros s Hp Hne.
  assert (Hmin : (0 < Nat.min 3 (length (PowerfulAdaptiveAI.opp_history s)))%nat).
  { destruct (PowerfulAdaptiveAI.opp_history s); [contradiction | simpl; lia]. }
  pose proof (Qnat_pos _ Hmin) as Hpos.
  destruct Hp as [Hlo Hhi].
  set (p := PowerfulAdaptiveAI.bayesian_prior s) in *.
  set (n := Qnat (Nat.min 3 (length (PowerfulAdaptiveAI.opp_history s)))) in *.
  split; intros Hcount.
  - assert (Hrecent : recent_fraction (PowerfulAdaptiveAI.opp_history s) = Ok (n / n)%Q).
    { unfold recent_fraction. rewrite Hcount. apply truediv_ok. fold n. lra. }
    assert (Hone : (n / n == 1)%Q) by (field; lra).
    rewrite (bayesian_decision_likelihood s (n / n)%Q Hne (conj Hlo Hhi)
               ltac:(rewrite Hone; lra) Hrecent).
    fold p. unfold PowerfulAdaptiveAI.posterior_denominator.
    assert (Hpost : (n / n * p / (n / n * p + (1 - n / n) * (1 - p)) == 1)%Q).
    { rewrite Hone. field. lra. }
    assert (E1 : Qgtb (Qabs (n / n * p / (n / n * p + (1 - n / n) * (1 - p)) - 0.5) * 2) 0.6
                 = true).
    { apply Qgtb_lt. rewrite Hpost. rewrite Qabs_pos; lra. }
    assert (E2 : Qgtb (n / n * p / (n / n * p + (1 - n / n) * (1 - p))) 0.5 = true).
    { apply Qgtb_lt. rewrite Hpost. lra. }
    rewrite E1, E2. reflexivity.
  - assert (Hrecent : recent_fraction (PowerfulAdaptiveAI.opp_history s)
                      = Ok (Qnat 0 / n)%Q).
    { unfold recent_fraction. rewrite Hcount. apply truediv_ok. fold n. lra. }
    assert (Hzero : (Qnat 0 / n == 0)%Q) by (unfold Qnat; simpl; field; lra).
    rewrite (bayesian_decision_likelihood s (Qnat 0 / n)%Q Hne (conj Hlo Hhi)
               ltac:(rewrite Hzero; lra) Hrecent).
    fold p. unfold PowerfulAdaptiveAI.posterior_denominator.
    assert (Hpost : (Qnat 0 / n * p / (Qnat 0 / n * p + (1 - Qnat 0 / n) * (1 - p))
                     == 0)%Q).
    { rewrite Hzero. field. lra. }
    assert (E1 : Qgtb (Qabs (Qnat 0 / n * p
                             / (Qnat 0 / n * p + (1 - Qnat 0 / n) * (1 - p)) - 0.5) * 2)
                      0.6 = true).
    { apply Qgtb_lt. rewrite Hpost. rewrite Qabs_neg; lra. }
    assert (E2 : Qgtb (Qnat 0 / n * p / (Qnat 0 / n * p + (1 - Qnat 0 / n) * (1 - p)))
                      0.5 = false).
    { apply Qgtb_le. rewrite Hpost. lra. }
    rewrite E1, E2. reflexivity.
Qed.

Lemma bayesian_decision_follows_unanimous_recent_moves_witness :
  PowerfulAdaptiveAI.bayesian_decision tied_successors_agent = Ok "C".
Proof.
  apply bayesian_decision_follows_unanimous_recent_moves.
  - unfold prior_in_range. simpl. lra.
  - simpl. discriminate.
  - vm_compute. reflexivity.
Defined.



Lemma payoff_points_range (my_move opp_move : string) :
  (0 <= PowerfulAdaptiveAI.payoff_points my_move opp_move <= 5)%Z.
Proof.
  unfold PowerfulAdaptiveAI.payoff_points.
  repeat match goal with
         | |- context [if ?b then _ else _] => destruct b
         end; lia.
Qed.

Lemma score_loop_bounds (my : list string) :
  forall (opp : list string) (total possible total' possible' : Z),
    PowerfulAdaptiveAI.score_loop my opp total possible = Ok (total', possible') ->
    (total <= total' <= total + 5 * Z.of_nat (length my))%Z
    /\ possible' = (possible + 5 * Z.of_nat (length my))%Z.
Proof.
  induction my as [|m my IH]; intros opp total possible total' possible' H.
  - inversion H; subst. simpl. lia.
  - destruct opp as [|o opp]; [discriminate H|].
    cbn [PowerfulAdaptiveAI.score_loop] in H.
    apply IH in H. pose proof (payoff_points_range m o) as Hp.
    simpl length. lia.
Qed.

Lemma exploit_count_bounds (my : list string) :
  forall (opp : list string) (n : Z),
    PowerfulAdaptiveAI.exploit_count my opp = Ok n ->
    (0 <= n <= Z.of_nat (length my))%Z.
Proof.
  induction my as [|m my IH]; intros opp n H.
  - inversion H; subst. simpl. lia.
  - cbn [PowerfulAdaptiveAI.exploit_count] in H.
    destruct (String.eqb m "D").
    + destruct opp as [|o opp]; [discriminate H|].
      destruct (PowerfulAdaptiveAI.exploit_count my opp) as [k|e] eqn:E;
        cbn [bind] in H; [|discriminate H].
      apply IH in E. inversion H; subst.
      simpl length. destruct (String.eqb o "C"); lia.
    + apply IH in H. simpl length. lia.
Qed.

Lemma Zfraction_range (a b : Z) :
  (0 <= a <= b)%Z -> (0 < b)%Z -> (0 <= inject_Z a / inject_Z b <= 1)%Q.
Proof.
  intros Ha Hb.
  assert (Hpos : (0 < inject_Z b)%Q) by (unfold Qlt; simpl; lia).
  split.
  - apply Qle_shift_div_l; [exact Hpos|]. rewrite Qmult_0_l. unfold Qle. simpl. lia.
  - apply Qle_shift_div_r; [exact Hpos|]. rewrite Qmult_1_l. unfold Qle. simpl. lia.
Qed.

(** X9: on histories of equal length [calculate_comprehensive_success]
    never raises and returns a value in [0, 1]; with fewer than two own
    moves on record it returns 0.5. *)
Theorem comprehensive_success_range :
  forall s : PowerfulAdaptiveAI.t,
    length (PowerfulAdaptiveAI.my_history s) = length (PowerfulAdaptiveAI.opp_history s) ->
    exists q,
      PowerfulAdaptiveAI.calculate_comprehensive_success s = Ok q
      /\ (0 <= q <= 1)%Q
      /\ ((length (PowerfulAdaptiveAI.my_history s) < 2)%nat -> q = 0.5%Q).
Proof.
  intros s Hlen. unfold PowerfulAdaptiveAI.calculate_comprehensive_success.
  destruct (length (PowerfulAdaptiveAI.my_history s) <? 2)%nat eqn:E.
  { exists 0.5%Q. split; [reflexivity|]. split; [lra | reflexivity]. }
  apply Nat.ltb_ge in E.
  destruct (score_loop_ok _ _ 0%Z 0%Z Hlen) as (total & Hrun).
  pose proof (score_loop_bounds _ _ _ _ _ _ Hrun) as [Htotal _].
  rewrite Hrun. cbn [bind].
  destruct (exploit_count_ok _ _ Hlen) as (n & Hn).
  pose proof (exploit_count_bounds _ _ _ Hn) as Hnb.
  set (len := length (PowerfulAdaptiveAI.my_history s)) in *.
  pose proof (Zfraction_range total (0 + 5 * Z.of_nat len)) as Hbase.
  pose proof (Zfraction_range n (Z.of_nat (Nat.max 1 len))) as Hexp.
  rewrite truediv_ok.
  2:{ intros E0. unfold Qeq in E0. simpl in E0. lia. }
  cbn [bind]. rewrite Hn. cbn [bind].
  rewrite truediv_ok by (apply Qnat_nonzero; lia).
  cbn [bind]. eexists. split; [reflexivity|].
  split; [|intros Hshort; lia].
  unfold Qnat.
  destruct Hbase as [Hb1 Hb2]; [lia | lia|].
  destruct Hexp as [He1 He2]; [lia | lia|].
  split.
  - apply Q.min_glb; lra.
  - apply Q.le_min_l.
Qed.

Lemma comprehensive_success_range_witness :
  exists q,
    PowerfulAdaptiveAI.calculate_comprehensive_success tied_successors_agent = Ok q
    /\ (0 <= q <= 1)%Q.
Proof.
  destruct (comprehensive_success_range tied_successors_agent) as (q & H1 & H2 & _).
  - reflexivity.
  - exists q. split; assumption.
Defined.

(** * The adaptive agent's state over time *)

Lemma randint_range (a b : Z) (r : Rng) :
  (a <= b)%Z -> (a <= fst (randint a b r) <= b)%Z.
Proof. intros Hab. unfold randint, random. simpl. lia. Qed.

(** What [adaptive_decision] does to the agent's counters. *)
Lemma adaptive_decision_state (s : PowerfulAdaptiveAI.t) (r : Rng) move s' r' :
  PowerfulAdaptiveAI.adaptive_decision s r = Ok (move, s', r') ->
  PowerfulAdaptiveAI.strategy_change_cooldown s'
  = PowerfulAdaptiveAI.strategy_change_cooldown s
  /\ (PowerfulAdaptiveAI.aggression_level s' = PowerfulAdaptiveAI.aggression_level s
      \/ PowerfulAdaptiveAI.aggression_level s'
         = Qmin 0.8 (PowerfulAdaptiveAI.aggression_level s + 0.1))
  /\ (PowerfulAdaptiveAI.consecutive_losses s' = PowerfulAdaptiveAI.consecutive_losses s
      \/ PowerfulAdaptiveAI.consecutive_losses s'
         = (PowerfulAdaptiveAI.consecutive_losses s + 1)%Z
      \/ PowerfulAdaptiveAI.consecutive_losses s' = 0%Z).
Proof.
  unfold PowerfulAdaptiveAI.adaptive_decision. intros H.
  repeat res_step H; simpl; auto.
Qed.

Lemma dispatch_state (s : PowerfulAdaptiveAI.t) (r : Rng) move s' r' :
  PowerfulAdaptiveAI.dispatch s r = Ok (move, s', r') ->
  PowerfulAdaptiveAI.current_strategy s' = PowerfulAdaptiveAI.current_strategy s
  /\ PowerfulAdaptiveAI.strategy_change_cooldown s'
     = PowerfulAdaptiveAI.strategy_change_cooldown s
  /\ (PowerfulAdaptiveAI.aggression_level s' = PowerfulAdaptiveAI.aggression_level s
      \/ PowerfulAdaptiveAI.aggression_level s'
         = Qmin 0.8 (PowerfulAdaptiveAI.aggression_level s + 0.1))
  /\ (PowerfulAdaptiveAI.consecutive_losses s' = PowerfulAdaptiveAI.consecutive_losses s
      \/ PowerfulAdaptiveAI.consecutive_losses s'
         = (PowerfulAdaptiveAI.consecutive_losses s + 1)%Z
      \/ PowerfulAdaptiveAI.consecutive_losses s' = 0%Z).
Proof.
  unfold PowerfulAdaptiveAI.dispatch. intros H.
  repeat match type of H with
         | (if ?b then _ else _) = Ok _ => destruct b
         end;
    try (pose proof (adaptive_decision_frame _ _ _ _ _ H) as (_ & _ & Hcs);
         apply adaptive_decision_state in H; tauto);
    repeat res_step H; auto.
Qed.

(** The two ways [select_strategy] can end. *)
Lemma select_strategy_cases (s : PowerfulAdaptiveAI.t) (n a b : Z) (r : Rng) s' r' :
  PowerfulAdaptiveAI.select_strategy s n a b r = Ok (s', r') ->
  PowerfulAdaptiveAI.aggression_level s' = PowerfulAdaptiveAI.aggression_level s
  /\ PowerfulAdaptiveAI.consecutive_losses s' = PowerfulAdaptiveAI.consecutive_losses s
  /\ ((PowerfulAdaptiveAI.current_strategy s' = PowerfulAdaptiveAI.current_strategy s
       /\ (PowerfulAdaptiveAI.should_analyze s n = false ->
           PowerfulAdaptiveAI.strategy_change_cooldown s'
           = Z.max 0 (PowerfulAdaptiveAI.strategy_change_cooldown s - 1))
       /\ (PowerfulAdaptiveAI.should_analyze s n = true ->
           PowerfulAdaptiveAI.strategy_change_cooldown s'
           = PowerfulAdaptiveAI.strategy_change_cooldown s))
      \/ (PowerfulAdaptiveAI.current_strategy s' <> PowerfulAdaptiveAI.current_strategy s
          /\ PowerfulAdaptiveAI.should_analyze s n = true
          /\ (2 <= PowerfulAdaptiveAI.strategy_change_cooldown s' <= 5)%Z
          /\ exists r1,
               AdvancedStrategyAnalyzer.analyze_opponent (PowerfulAdaptiveAI.analyzer s)
                 (PowerfulAdaptiveAI.opp_history s) a b r
               = Ok (PowerfulAdaptiveAI.current_strategy s', r1))).
Proof.
  unfold PowerfulAdaptiveAI.select_strategy. intros H.
  destruct (PowerfulAdaptiveAI.should_analyze s n) eqn:Es.
  - destruct (AdvancedStrategyAnalyzer.analyze_opponent _ _ _ _ _) as [[new r1]|e];
      cbn [bind] in H; [|discriminate H].
    destruct (String.eqb new (PowerfulAdaptiveAI.current_strategy s)) eqn:En;
      cbn [negb] in H.
    + inversion H; subst. split; [reflexivity|]. split; [reflexivity|].
      left. split; [reflexivity|]. split; [discriminate | reflexivity].
    + cbv zeta in H. pose proof (randint_range 2 5 r1 ltac:(lia)) as Hr.
      destruct (randint 2 5 r1) as [cooldown r2]. inversion H; subst.
      split; [reflexivity|]. split; [reflexivity|].
      right. simpl. apply String.eqb_neq in En.
      split; [exact En|]. split; [reflexivity|]. split; [exact Hr|].
      exists r1. reflexivity.
  - inversion H; subst. split; [reflexivity|]. split; [reflexivity|].
    left. split; [reflexivity|]. split; [reflexivity | discriminate].
Qed.

(** A returning [decide_move] is a [select_strategy] followed by the
    override or by [dispatch] and the prior update. *)
Lemma decide_move_steps (s : PowerfulAdaptiveAI.t) (n a b : Z) (r : Rng) move s' r' :
  PowerfulAdaptiveAI.decide_move s n a b r = Ok (move, s', r') ->
  exists s1 r1,
    PowerfulAdaptiveAI.select_strategy s n a b r = Ok (s1, r1)
    /\ (s' = s1
        \/ exists s2 r2,
             PowerfulAdaptiveAI.dispatch s1 (snd (random r1)) = Ok (move, s2, r2)
             /\ s' = PowerfulAdaptiveAI.update_bayesian_prior s2 move).
Proof.
  unfold PowerfulAdaptiveAI.decide_move. intros H.
  destruct (PowerfulAdaptiveAI.select_strategy s n a b r) as [[s1 r1]|e];
    cbn [bind] in H; [|discriminate H].
  exists s1, r1. split; [reflexivity|].
  unfold random at 1 in H. cbv beta iota in H.
  destruct (Qltb (r1 0%nat) 0.01).
  - destruct (choice_CD _) as [m r3]. inversion H; subst. left. reflexivity.
  - destruct (PowerfulAdaptiveAI.dispatch s1 _) as [[[m s2] r3]|e] eqn:E;
      cbn [bind] in H; [|discriminate H].
    inversion H; subst. right. exists s2, r'. split; reflexivity.
Qed.

Lemma update_bayesian_prior_state (s : PowerfulAdaptiveAI.t) (move : string) :
  PowerfulAdaptiveAI.current_strategy (PowerfulAdaptiveAI.update_bayesian_prior s move)
  = PowerfulAdaptiveAI.current_strategy s
  /\ PowerfulAdaptiveAI.strategy_change_cooldown
       (PowerfulAdaptiveAI.update_bayesian_prior s move)
     = PowerfulAdaptiveAI.strategy_change_cooldown s
  /\ PowerfulAdaptiveAI.aggression_level (PowerfulAdaptiveAI.update_bayesian_prior s move)
     = PowerfulAdaptiveAI.aggression_level s
  /\ PowerfulAdaptiveAI.consecutive_losses (PowerfulAdaptiveAI.update_bayesian_prior s move)
     = PowerfulAdaptiveAI.consecutive_losses s.
Proof.
  unfold PowerfulAdaptiveAI.update_bayesian_prior.
  destruct (String.eqb move "C"); repeat split.
Qed.

(** X10: switching strategies is damped. A returning [decide_move] keeps
    the current strategy and lowers the cooldown by one (not below 0)
    whenever the cooldown is positive or fewer than 3 opponent moves are
    on record; and when it does change the strategy, the cooldown was at
    most 0, at least 3 opponent moves were on record, and the new
    cooldown lies in [2, 5]. *)
Theorem strategy_switch_is_damped :
  forall (s : PowerfulAdaptiveAI.t) (round_num my_score opp_score : Z) (r : Rng)
         (move : string) (s' : PowerfulAdaptiveAI.t) (r' : Rng),
    PowerfulAdaptiveAI.decide_move s round_num my_score opp_score r = Ok (move, s', r') ->
    ((0 < PowerfulAdaptiveAI.strategy_change_cooldown s)%Z
     \/ (length (PowerfulAdaptiveAI.opp_history s) < 3)%nat ->
     PowerfulAdaptiveAI.current_strategy s' = PowerfulAdaptiveAI.current_strategy s
     /\ PowerfulAdaptiveAI.strategy_change_cooldown s'
        = Z.max 0 (PowerfulAdaptiveAI.strategy_change_cooldown s - 1)) /\
    (PowerfulAdaptiveAI.current_strategy s' <> PowerfulAdaptiveAI.current_strategy s ->
     (PowerfulAdaptiveAI.strategy_change_cooldown s <= 0)%Z
     /\ (3 <= length (PowerfulAdaptiveAI.opp_history s))%nat
     /\ (2 <= PowerfulAdaptiveAI.strategy_change_cooldown s' <= 5)%Z).
Proof.
  intros s n a b r move s' r' H.
  destruct (decide_move_steps _ _ _ _ _ _ _ _ H) as (s1 & r1 & Hsel & Hrest).
  assert (Hsame : PowerfulAdaptiveAI.current_strategy s'
                  = PowerfulAdaptiveAI.current_strategy s1
                  /\ PowerfulAdaptiveAI.strategy_change_cooldown s'
                     = PowerfulAdaptiveAI.strategy_change_cooldown s1).
  { destruct Hrest as [-> | (s2 & r2 & Hd & ->)]; [split; reflexivity|].
    destruct (dispatch_state _ _ _ _ _ Hd) as (E1 & E2 & _).
    destruct (update_bayesian_prior_state s2 move) as (E3 & E4 & _).
    split; congruence. }
  destruct Hsame as [Ecs Ecd]. rewrite Ecs, Ecd.
  destruct (select_strategy_cases _ _ _ _ _ _ _ Hsel) as (_ & _ & Hcases).
  split.
  - intros Hquiet.
    assert (Hno : PowerfulAdaptiveAI.should_analyze s n = false).
    { unfold PowerfulAdaptiveAI.should_analyze.
      destruct Hquiet as [Hcd | Hlen].
      - assert (E : (PowerfulAdaptiveAI.strategy_change_cooldown s <=? 0)%Z = false)
          by (apply Z.leb_gt; exact Hcd).
        rewrite E. reflexivity.
      - assert (E : (3 <=? length (PowerfulAdaptiveAI.opp_history s))%nat = false)
          by (apply Nat.leb_gt; exact Hlen).
        rewrite E. apply andb_false_iff. left. apply andb_false_r. }
    destruct Hcases as [(E1 & E2 & _) | (_ & Hyes & _)]; [|congruence].
    split; [exact E1 | exact (E2 Hno)].
  - intros Hchanged.
    destruct Hcases as [(E1 & _) | (_ & Hyes & Hcd & _)]; [contradiction|].
    unfold PowerfulAdaptiveAI.should_analyze in Hyes.
    apply andb_true_iff in Hyes. destruct Hyes as [Hyes _].
    apply andb_true_iff in Hyes. destruct Hyes as [H1 H2].
    apply Z.leb_le in H1. apply Nat.leb_le in H2.
    split; [exact H1|]. split; [exact H2 | exact Hcd].
Qed.

Lemma strategy_switch_is_damped_witness :
  exists (move : string) (s' : PowerfulAdaptiveAI.t) (r' : Rng),
    PowerfulAdaptiveAI.decide_move tied_successors_agent 3 0 0 (fun _ => 0.5%Q)
    = Ok (move, s', r')
    /\ (2 <= PowerfulAdaptiveAI.strategy_change_cooldown s' <= 5)%Z.
Proof.
  eexists. eexists. eexists. split; [reflexivity|].
  eapply (proj2 (strategy_switch_is_damped tied_successors_agent 3 0 0
                   (fun _ => 0.5%Q) _ _ _ eq_refl)).
  intros E. vm_compute in E. discriminate E.
Defined.

Lemma aggression_step (x y : Q) :
  (0.3 <= x <= 0.8)%Q -> y = x \/ y = Qmin 0.8 (x + 0.1) -> (0.3 <= y <= 0.8)%Q.
Proof.
  intros Hx [-> | ->]; [exact Hx|].
  destruct (Q.min_spec 0.8 (x + 0.1)) as [[Ho E] | [Ho E]]; rewrite E; lra.
Qed.

Lemma adaptive_decision_keeps_state_ok (s : PowerfulAdaptiveAI.t) (r : Rng) move s' r' :
  PowerfulAdaptiveAI.adaptive_decision s r = Ok (move, s', r') ->
  adaptive_state_ok s -> adaptive_state_ok s'.
Proof.
  intros H (Hp & Ha & Hl & Hc & Hs & Hav).
  destruct (adaptive_decision_frame _ _ _ _ _ H) as (F & P & S).
  destruct (adaptive_decision_state _ _ _ _ _ H) as (C & A & L).
  unfold frame in F. inversion F as [[E1 E2 E3 E4 E5 E6 E7 E8]].
  unfold adaptive_state_ok. rewrite P, S, C, E2.
  split; [exact Hp|]. split; [exact (aggression_step _ _ Ha A)|].
  split; [lia|]. split; [exact Hc|]. split; [exact Hs | exact Hav].
Qed.

Lemma decide_move_keeps_state_ok (s : PowerfulAdaptiveAI.t) (n a b : Z) (r : Rng)
    move s' r' :
  PowerfulAdaptiveAI.decide_move s n a b r = Ok (move, s', r') ->
  adaptive_state_ok s -> adaptive_state_ok s'.
Proof.
  intros H (Hp & Ha & Hl & Hc & Hs & Hav).
  destruct (decide_move_steps _ _ _ _ _ _ _ _ H) as (s1 & r1 & Hsel & Hrest).
  assert (H1 : adaptive_state_ok s1).
  { destruct (select_strategy_frame _ _ _ _ _ _ _ Hsel) as [F P].
    destruct (select_strategy_cases _ _ _ _ _ _ _ Hsel) as (A & L & Hcases).
    unfold frame in F. inversion F as [[E1 E2 E3 E4 E5 E6 E7 E8]].
    unfold adaptive_state_ok. rewrite P, A, L, E2.
    split; [exact Hp|]. split; [exact Ha|]. split; [exact Hl|].
    destruct Hcases as [(Ecs & Eno & Eyes) | (_ & _ & Hcd & r2 & Hrun)].
    - rewrite Ecs. split; [|split; [exact Hs | exact Hav]].
      destruct (PowerfulAdaptiveAI.should_analyze s n);
        [rewrite (Eyes eq_refl) | rewrite (Eno eq_refl)]; lia.
    - split; [lia|]. split; [|exact Hav].
      exact (analyze_opponent_in _ _ _ _ _ _ _ Hav Hrun). }
  destruct Hrest as [-> | (s2 & r2 & Hd & ->)]; [exact H1|].
  destruct H1 as (Hp1 & Ha1 & Hl1 & Hc1 & Hs1 & Hav1).
  destruct (dispatch_frame _ _ _ _ _ Hd) as [F P].
  destruct (dispatch_state _ _ _ _ _ Hd) as (S & C & A & L).
  destruct (update_bayesian_prior_state s2 move) as (S' & C' & A' & L').
  pose proof (update_bayesian_prior_frame s2 move) as F'.
  unfold frame in F, F'.
  inversion F as [[E1 E2 E3 E4 E5 E6 E7 E8]].
  inversion F' as [[G1 G2 G3 G4 G5 G6 G7 G8]].
  unfold adaptive_state_ok. rewrite S', C', A', L', G2, S, C, E2.
  split; [apply update_bayesian_prior_range; rewrite P; exact Hp1|].
  split; [exact (aggression_step _ _ Ha1 A)|].
  split; [lia|]. split; [exact Hc1|]. split; [exact Hs1 | exact Hav1].
Qed.

(** X11: in every state an adaptive agent can reach (through its own
    methods, through [record_strategy_performance] and through appends to
    its histories) the prior lies in [0.05, 0.95], the aggression level in
    [0.3, 0.8], the cooldown in [0, 5], the consecutive-loss counter is not
    negative, and the current strategy is one of the six names. *)
Theorem reachable_state_bounds :
  forall s : PowerfulAdaptiveAI.t,
    adaptive_reachable s ->
    prior_in_range (PowerfulAdaptiveAI.bayesian_prior s)
    /\ (0.3 <= PowerfulAdaptiveAI.aggression_level s <= 0.8)%Q
    /\ (0 <= PowerfulAdaptiveAI.consecutive_losses s)%Z
    /\ (0 <= PowerfulAdaptiveAI.strategy_change_cooldown s <= 5)%Z
    /\ In (PowerfulAdaptiveAI.current_strategy s) AdvancedStrategyAnalyzer.strategy_names.
Proof.
  intros s Hs.
  assert (Hok : adaptive_state_ok s).
  { induction Hs as [ | s n a b r m s' r' _ IH Hd | s r m s' r' _ IH Hd
                    | s m _ IH | s st w an _ IH Hrec | s m1 m2 _ IH | s _ IH ].
    - unfold adaptive_state_ok, prior_in_range. simpl.
      repeat split; try lra; try lia. tauto.
    - exact (decide_move_keeps_state_ok _ _ _ _ _ _ _ _ Hd IH).
    - exact (adaptive_decision_keeps_state_ok _ _ _ _ _ Hd IH).
    - destruct IH as (Hp & Ha & Hl & Hc & Hcs & Hav).
      destruct (update_bayesian_prior_state s m) as (S' & C' & A' & L').
      pose proof (update_bayesian_prior_frame s m) as F'. unfold frame in F'.
      inversion F' as [[G1 G2 G3 G4 G5 G6 G7 G8]].
      unfold adaptive_state_ok. rewrite S', C', A', L', G2.
      split; [apply update_bayesian_prior_range, Hp|]. tauto.
    - destruct IH as (Hp & Ha & Hl & Hc & Hcs & Hav).
      unfold adaptive_state_ok. simpl.
      repeat (split; [assumption|]).
      unfold AdvancedStrategyAnalyzer.record_strategy_performance in Hrec.
      destruct (AdvancedStrategyAnalyzer.record _ _ _) as [p|e];
        cbn [bind] in Hrec; [|discriminate Hrec].
      inversion Hrec; subst. exact Hav.
    - exact IH.
    - unfold adaptive_state_ok, prior_in_range. simpl.
      repeat split; try lra; try lia. tauto. }
  destruct Hok as (Hp & Ha & Hl & Hc & Hcs & _).
  repeat (split; [assumption|]). exact Hcs.
Qed.

Lemma reachable_state_bounds_witness :
  let s := PowerfulAdaptiveAI.update_bayesian_prior PowerfulAdaptiveAI.init "D" in
  prior_in_range (PowerfulAdaptiveAI.bayesian_prior s)
  /\ (0.3 <= PowerfulAdaptiveAI.aggression_level s <= 0.8)%Q
  /\ (0 <= PowerfulAdaptiveAI.consecutive_losses s)%Z
  /\ (0 <= PowerfulAdaptiveAI.strategy_change_cooldown s <= 5)%Z
  /\ In (PowerfulAdaptiveAI.current_strategy s) AdvancedStrategyAnalyzer.strategy_names.
Proof.
  apply reachable_state_bounds.
  apply reach_update_bayesian_prior, reach_init.
Defined.

(** * The scripted opponents *)

Lemma is_move_opposite (m : string) : is_move (StrategicOpponentAI.opposite m).
Proof.
  unfold StrategicOpponentAI.opposite. destruct (String.eqb m "C"); [right | left];
    reflexivity.
Qed.

Ltac other_type :=
  let Ht := fresh "Ht" in
  intros [Ht | Ht]; rewrite Ht in *; simpl in *; discriminate.

Ltac opponent_answer :=
  eexists; eexists; split; [reflexivity|];
  split; [first [apply is_move_if | apply is_move_if' | apply is_move_opposite
                | left; reflexivity | right; reflexivity | assumption]|];
  split; [first [left; reflexivity | right; reflexivity]|];
  first [intros _; reflexivity | other_type].

Lemma opponent_decide_move_ok (self : StrategicOpponentAI.t)
    (n a b : Z) (r : Rng) :
  valid_history (StrategicOpponentAI.my_history self) ->
  valid_history (StrategicOpponentAI.opp_history self) ->
  exists (move : string) (r' : Rng),
    StrategicOpponentAI.decide_move self n a b r = Ok (move, r')
    /\ is_move move
    /\ (r' = r \/ r' = snd (random r))
    /\ (StrategicOpponentAI.ai_type self = "tit_for_tat"
        \/ StrategicOpponentAI.ai_type self = "strategic" -> r' = r).
Proof.
  intros Hmy Hopp. unfold StrategicOpponentAI.decide_move.
  pose proof (getlast_ok _ Hopp) as Hlast.
  pose proof (getlast_ok _ Hmy) as Hmine.
  pose proof (coop_fraction_ok (StrategicOpponentAI.opp_history self)) as Hrate.
  pose proof (lastn_length 3 (StrategicOpponentAI.opp_history self)) as Hl3.
  unfold random.
  destruct (String.eqb _ "cooperative") eqn:T1; [opponent_answer|].
  destruct (String.eqb _ "aggressive") eqn:T2; [opponent_answer|].
  destruct (String.eqb _ "random") eqn:T3; [opponent_answer|].
  destruct (String.eqb _ "tit_for_tat") eqn:T4.
  { destruct (StrategicOpponentAI.opp_history self) as [|x t]; [opponent_answer|].
    destruct Hlast as (last & -> & Hmove); [discriminate|]. cbn [bind].
    opponent_answer. }
  destruct (String.eqb _ "forgiving") eqn:T5.
  { destruct (StrategicOpponentAI.opp_history self) as [|x t]; [opponent_answer|].
    destruct Hlast as (last & -> & Hmove); [discriminate|]. cbn [bind].
    destruct (String.eqb last "D"); [|opponent_answer].
    destruct (Qltb _ _); opponent_answer. }
  destruct (String.eqb _ "strategic") eqn:T6.
  { destruct (length (StrategicOpponentAI.opp_history self) <? 3)%nat eqn:E3;
      [opponent_answer|].
    apply Nat.ltb_ge in E3.
    destruct Hrate as (c & Hc & _).
    { intros E0. rewrite E0 in E3. simpl in E3. lia. }
    cbv zeta. rewrite Hc. cbn [bind].
    destruct (5 <=? length (StrategicOpponentAI.opp_history self))%nat;
      [|opponent_answer].
    destruct (size _ =? 1)%nat; [|opponent_answer].
    assert (Hthree : length (lastn 3 (StrategicOpponentAI.opp_history self)) = 3%nat)
      by lia.
    destruct (lastn 3 (StrategicOpponentAI.opp_history self)) as [|first rest].
    { discriminate Hthree. }
    opponent_answer. }
  destruct (String.eqb _ "unpredictable") eqn:T7.
  { destruct (length (StrategicOpponentAI.my_history self) <? 2)%nat eqn:E2;
      [opponent_answer|].
    apply Nat.ltb_ge in E2.
    destruct Hmine as (mine & -> & _).
    { intros E0. rewrite E0 in E2. simpl in E2. lia. }
    cbn [bind]. destruct (Qltb _ _); [opponent_answer|].
    destruct (StrategicOpponentAI.opp_history self) as [|x t]; [opponent_answer|].
    destruct Hlast as (last & -> & Hmove); [discriminate|]. cbn [bind].
    opponent_answer. }
  destruct (String.eqb _ "exploitative") eqn:T8.
  { destruct (length (StrategicOpponentAI.opp_history self) <? 4)%nat;
      [opponent_answer|].
    destruct (StrategicOpponentAI.all_equal "C" _); [opponent_answer|].
    destruct (StrategicOpponentAI.all_equal "D" _); opponent_answer. }
  destruct (String.eqb _ "mirror") eqn:T9; [|opponent_answer].
  destruct (StrategicOpponentAI.opp_history self) as [|x t]; [opponent_answer|].
  destruct Hlast as (last & -> & Hmove); [discriminate|]. cbn [bind].
  destruct (Qltb _ _); opponent_answer.
Qed.

(** X12: with histories of moves, [StrategicOpponentAI.decide_move] never
    raises, whatever the ai_type, and returns "C" or "D" after at most one
    draw; the "tit_for_tat" and "strategic" opponents draw nothing. *)
Theorem opponent_decide_move_returns_a_move :
  forall (self : StrategicOpponentAI.t) (round_num my_score opp_score : Z) (r : Rng),
    valid_history (StrategicOpponentAI.my_history self) ->
    valid_history (StrategicOpponentAI.opp_history self) ->
    exists (move : string) (r' : Rng),
      StrategicOpponentAI.decide_move self round_num my_score opp_score r
      = Ok (move, r')
      /\ is_move move
      /\ (r' = r \/ r' = snd (random r))
      /\ (StrategicOpponentAI.ai_type self = "tit_for_tat"
          \/ StrategicOpponentAI.ai_type self = "strategic" -> r' = r).
Proof.
  intros self round_num my_score opp_score r Hmy Hopp.
  destruct (opponent_decide_move_ok self round_num my_score opp_score r Hmy Hopp)
    as (move & r' & Hrun & Hmove & Hdraw & Hquiet).
  exists move, r'. split; [exact Hrun|]. split; [exact Hmove|].
  split; [exact Hdraw | exact Hquiet].
Qed.

Lemma opponent_decide_move_returns_a_move_witness :
  (exists (move : string) (r' : Rng),
     StrategicOpponentAI.decide_move mirror_opponent 3 7 7 (fun _ => 0.05%Q)
     = Ok (move, r')
     /\ is_move move
     /\ (r' = (fun _ => 0.05%Q) \/ r' = snd (random (fun _ => 0.05%Q)))) /\
  (exists (move : string) (r' : Rng),
     StrategicOpponentAI.decide_move (Game.opponent_ai first_round_game) 0 0 0
       (fun _ => 0.5%Q) = Ok (move, r')
     /\ is_move move
     /\ r' = (fun _ => 0.5%Q)).
Proof.
  split.
  - destruct (opponent_decide_move_returns_a_move mirror_opponent
                3 7 7 (fun _ => 0.05%Q)) as (move & r' & H1 & H2 & H3 & _).
    + repeat constructor; unfold is_move; tauto.
    + repeat constructor; unfold is_move; tauto.
    + exists move, r'. split; [exact H1|]. split; [exact H2 | exact H3].
  - destruct (opponent_decide_move_returns_a_move (Game.opponent_ai first_round_game)
                0 0 0 (fun _ => 0.5%Q)) as (move & r' & H1 & H2 & _ & H4).
    + constructor.
    + constructor.
    + exists move, r'. split; [exact H1|]. split; [exact H2|].
      apply H4. left. reflexivity.
Defined.

Lemma profile_in_unit_interval (ty : string) (p : personality_profile) :
  StrategicOpponentAI.personalities !! ty = Some p ->
  (0 <= coop_bias p <= 1)%Q /\ (0 <= forgiveness p <= 1)%Q
  /\ (0 <= aggression p <= 1)%Q /\ (0 <= adaptability p <= 1)%Q.
Proof.
  intros H. unfold StrategicOpponentAI.personalities in H.
  apply elem_of_list_to_map_2, list_elem_of_In in H. simpl in H.
  repeat (destruct H as [H | H];
          [inversion H; subst; unfold StrategicOpponentAI.profile; simpl;
           repeat split; lra|]).
  contradiction.
Qed.

Lemma opponent_init_ok (ai_type : string) :
  exists self : StrategicOpponentAI.t,
    StrategicOpponentAI.init ai_type = Ok self
    /\ StrategicOpponentAI.ai_type self = ai_type
    /\ StrategicOpponentAI.my_history self = []
    /\ StrategicOpponentAI.opp_history self = []
    /\ (0 <= coop_bias (StrategicOpponentAI.personality self) <= 1)%Q
    /\ (0 <= forgiveness (StrategicOpponentAI.personality self) <= 1)%Q
    /\ (0 <= aggression (StrategicOpponentAI.personality self) <= 1)%Q
    /\ (0 <= adaptability (StrategicOpponentAI.personality self) <= 1)%Q.
Proof.
  rename ai_type into ty. unfold StrategicOpponentAI.init, StrategicOpponentAI.initialize_personality.
  destruct (StrategicOpponentAI.personalities !! "random") as [fallback|] eqn:Ef;
    [|vm_compute in Ef; discriminate Ef].
  pose proof (profile_in_unit_interval "random" fallback Ef) as Hf.
  cbn [bind]. eexists. split; [reflexivity|]. simpl.
  split; [reflexivity|]. split; [reflexivity|]. split; [reflexivity|].
  destruct (StrategicOpponentAI.personalities !! ty) as [p|] eqn:Ep.
  - exact (profile_in_unit_interval ty p Ep).
  - exact Hf.
Qed.

(** X13: for every ai_type string the constructor of the opponent never
    raises; the new opponent has empty histories, keeps the given ai_type
    and has a personality whose four fields lie in [0, 1]. *)
Theorem opponent_init_profile_in_unit_interval :
  forall ai_type : string,
    exists self : StrategicOpponentAI.t,
      StrategicOpponentAI.init ai_type = Ok self
      /\ StrategicOpponentAI.ai_type self = ai_type
      /\ StrategicOpponentAI.my_history self = []
      /\ StrategicOpponentAI.opp_history self = []
      /\ (0 <= coop_bias (StrategicOpponentAI.personality self) <= 1)%Q
      /\ (0 <= forgiveness (StrategicOpponentAI.personality self) <= 1)%Q
      /\ (0 <= aggression (StrategicOpponentAI.personality self) <= 1)%Q
      /\ (0 <= adaptability (StrategicOpponentAI.personality self) <= 1)%Q.
Proof.
  intros ai_type.
  destruct (opponent_init_ok ai_type) as (self & Hinit & Hty & Hmy & Hopp & Hprofile).
  exists self. split; [exact Hinit|]. split; [exact Hty|].
  split; [exact Hmy|]. split; [exact Hopp | exact Hprofile].
Qed.

(** * The match driver *)

Lemma score_moves (move1 move2 : string) :
  is_move move1 -> is_move move2 ->
  exists p1 p2,
    Game.score Game.payoff_matrix move1 move2 = Ok (p1, p2)
    /\ Game.payoff_matrix !! (move1, move2) = Some (p1, p2).
Proof.
  intros [-> | ->] [-> | ->]; eexists; eexists; split; reflexivity.
Qed.

Lemma decide_move_keeps_agent_ok (s : PowerfulAdaptiveAI.t) (n a b : Z) (r : Rng)
    move s' r' :
  PowerfulAdaptiveAI.decide_move s n a b r = Ok (move, s', r') ->
  agent_ok s -> agent_ok s'.
Proof.
  intros H [H1 H2 H3 H4 H5].
  pose proof (decide_move_frame _ _ _ _ _ _ _ _ H) as F. unfold frame in F.
  inversion F as [[E1 E2 E3 E4 E5 E6 E7 E8]].
  constructor; rewrite ?E2, ?E3, ?E4; try assumption.
  destruct (decide_move_steps _ _ _ _ _ _ _ _ H) as (s1 & r1 & Hsel & Hrest).
  destruct (select_strategy_frame _ _ _ _ _ _ _ Hsel) as [_ P1].
  destruct Hrest as [-> | (s2 & r2 & Hd & ->)].
  - rewrite P1. exact H4.
  - destruct (dispatch_frame _ _ _ _ _ Hd) as [_ P2].
    apply update_bayesian_prior_range. rewrite P2, P1. exact H4.
Qed.

Lemma valid_history_snoc (h : list string) (move : string) :
  valid_history h -> is_move move -> valid_history (h ++ [move]).
Proof.
  unfold valid_history. intros Hh Hm. apply Forall_app. split; [exact Hh|].
  constructor; [exact Hm | constructor].
Qed.

(** A returning [play_round] below the round limit, taken apart. *)
Lemma play_round_inv (g : Game.t) (r : Rng) (g' : Game.t) (r' : Rng) :
  (Game.round_number g < Game.max_rounds g)%Z ->
  Game.play_round g r = Ok (g', r') ->
  exists move1 ai1 r1 move2 p1 p2,
    PowerfulAdaptiveAI.decide_move (Game.adaptive_ai g) (Game.round_number g)
      (Game.player1_score g) (Game.player2_score g) r = Ok (move1, ai1, r1)
    /\ StrategicOpponentAI.decide_move (Game.opponent_ai g) (Game.round_number g)
         (Game.player2_score g) (Game.player1_score g) r1 = Ok (move2, r')
    /\ Game.payoffs g !! (move1, move2) = Some (p1, p2)
    /\ Game.adaptive_ai g'
       = PowerfulAdaptiveAI.set_opp_history
           (PowerfulAdaptiveAI.set_my_history ai1
              (PowerfulAdaptiveAI.my_history ai1 ++ [move1]))
           (PowerfulAdaptiveAI.opp_history ai1 ++ [move2])
    /\ Game.opponent_ai g'
       = StrategicOpponentAI.set_opp_history
           (StrategicOpponentAI.set_my_history (Game.opponent_ai g)
              (StrategicOpponentAI.my_history (Game.opponent_ai g) ++ [move2]))
           (StrategicOpponentAI.opp_history (Game.opponent_ai g) ++ [move1])
    /\ Game.history g' = (Game.history g ++ [(move1, move2, p1, p2)])%list
    /\ Game.player1_score g' = (Game.player1_score g + p1)%Z
    /\ Game.player2_score g' = (Game.player2_score g + p2)%Z
    /\ Game.round_number g' = (Game.round_number g + 1)%Z
    /\ Game.payoffs g' = Game.payoffs g
    /\ Game.max_rounds g' = Game.max_rounds g
    /\ Game.state g' = Game.state g
    /\ (Game.adaptive_wins g', Game.opponent_wins g', Game.ties g')
       = (Game.adaptive_wins g, Game.opponent_wins g, Game.ties g).
Proof.
  intros Hlt. unfold Game.play_round.
  assert (E : (Game.max_rounds g <=? Game.round_number g)%Z = false)
    by (apply Z.leb_gt; exact Hlt).
  rewrite E.
  destruct (PowerfulAdaptiveAI.decide_move _ _ _ _ _) as [[[move1 ai1] r1]|e] eqn:Ed1;
    cbn [bind]; [|discriminate].
  destruct (StrategicOpponentAI.decide_move _ _ _ _ _) as [[move2 r2]|e] eqn:Ed2;
    cbn [bind]; [|discriminate].
  unfold Game.score.
  destruct (Game.payoffs g !! (move1, move2)) as [[p1 p2]|] eqn:Ep;
    cbn [bind]; [|discriminate].
  intros H. inversion H; subst.
  exists move1, ai1, r1, move2, p1, p2. simpl.
  repeat split; first [exact Ep | exact Ed2 | reflexivity].
Qed.

Lemma play_round_at_limit (g : Game.t) (r : Rng) :
  (Game.max_rounds g <= Game.round_number g)%Z ->
  Game.play_round g r = Ok (Game.end_game g, r).
Proof.
  intros Hle. unfold Game.play_round.
  assert (E : (Game.max_rounds g <=? Game.round_number g)%Z = true)
    by (apply Z.leb_le; exact Hle).
  rewrite E. reflexivity.
Qed.

Lemma play_round_keeps_match_ok (g : Game.t) (r : Rng) :
  match_ok g ->
  exists g' r', Game.play_round g r = Ok (g', r') /\ match_ok g'.
Proof.
  intros [Hagent Hmine Htheirs Hpay Hm1 Hm2 Hround].
  destruct (Z_lt_le_dec (Game.round_number g) (Game.max_rounds g)) as [Hlt | Hle].
  2:{ exists (Game.end_game g), r. split; [apply play_round_at_limit, Hle|].
      constructor; assumption. }
  destruct (decide_move_ok (Game.adaptive_ai g) (Game.round_number g)
              (Game.player1_score g) (Game.player2_score g) r Hagent)
    as ([[move1 ai1] r1] & Hd1 & Hmove1).
  simpl in Hmove1.
  pose proof (decide_move_keeps_agent_ok _ _ _ _ _ _ _ _ Hd1 Hagent) as Hai1.
  pose proof (decide_move_frame _ _ _ _ _ _ _ _ Hd1) as F. unfold frame in F.
  inversion F as [[E1 E2 E3 E4 E5 E6 E7 E8]].
  destruct (opponent_decide_move_ok (Game.opponent_ai g) (Game.round_number g)
              (Game.player2_score g) (Game.player1_score g) r1)
    as (move2 & r2 & Hd2 & Hmove2 & _).
  { rewrite Hmine. exact (ok_opp_history _ Hagent). }
  { rewrite Htheirs. exact (ok_my_history _ Hagent). }
  destruct (score_moves move1 move2 Hmove1 Hmove2) as (p1 & p2 & Hscore & _).
  unfold Game.play_round.
  assert (E : (Game.max_rounds g <=? Game.round_number g)%Z = false)
    by (apply Z.leb_gt; exact Hlt).
  rewrite E, Hd1. cbn [bind]. rewrite Hd2. cbn [bind].
  rewrite Hpay, Hscore. cbn [bind].
  eexists. eexists. split; [reflexivity|].
  destruct Hai1 as [A1 A2 A3 A4 A5].
  constructor; simpl.
  - constructor; simpl.
    + apply valid_history_snoc; assumption.
    + apply valid_history_snoc; assumption.
    + rewrite !length_app, A3. reflexivity.
    + exact A4.
    + exact A5.
  - rewrite Hmine, E4. reflexivity.
  - rewrite Htheirs, E3. reflexivity.
  - reflexivity.
  - rewrite map_app, Hm1, E3. reflexivity.
  - rewrite map_app, Hm2, E4. reflexivity.
  - rewrite Hround, length_app. simpl. lia.
Qed.

Lemma start_battle_match_ok (g : Game.t) :
  Game.payoffs g = Game.payoff_matrix -> match_ok (Game.start_battle g).
Proof.
  intros Hpay. constructor; simpl; try reflexivity; [|exact Hpay].
  constructor; simpl.
  - constructor.
  - constructor.
  - reflexivity.
  - unfold prior_in_range. lra.
  - split; [reflexivity | exact fresh_ledger_ok].
Qed.

(** X14: a match in progress stays one. On a well-formed game (see
    [match_ok]) [play_round] never raises, and afterwards the game is
    well-formed again: both agents' histories hold moves only, the
    opponent's histories mirror the adaptive agent's, and the round
    history lists exactly the moves played, one entry per round counted.
    [start_battle] puts any game that has the payoff matrix into such a
    state. *)
Theorem play_round_preserves_match :
  (forall g : Game.t,
     Game.payoffs g = Game.payoff_matrix -> match_ok (Game.start_battle g)) /\
  (forall (g : Game.t) (r : Rng),
     match_ok g ->
     exists g' r', Game.play_round g r = Ok (g', r') /\ match_ok g').
Proof.
  split.
  - intros g Hpay. exact (start_battle_match_ok g Hpay).
  - intros g r Hg. exact (play_round_keeps_match_ok g r Hg).
Qed.

Lemma play_round_preserves_match_witness :
  exists g' r',
    Game.play_round (Game.start_battle first_round_game) (fun _ => 0.5%Q) = Ok (g', r')
    /\ match_ok g'.
Proof.
  apply (proj2 play_round_preserves_match).
  apply (proj1 play_round_preserves_match). reflexivity.
Defined.







(** One call of [play_round] on a match in progress. *)
Lemma play_round_progress (g : Game.t) (r : Rng) :
  match_ok g ->
  exists g' r',
    Game.play_round g r = Ok (g', r')
    /\ match_ok g'
    /\ Game.max_rounds g' = Game.max_rounds g
    /\ ((Game.round_number g < Game.max_rounds g)%Z ->
        Game.round_number g' = (Game.round_number g + 1)%Z
        /\ Game.state g' = Game.state g)
    /\ ((Game.max_rounds g <= Game.round_number g)%Z ->
        Game.round_number g' = Game.round_number g /\ Game.state g' = RESULTS).
Proof.
  intros Hg.
  destruct (play_round_keeps_match_ok g r Hg) as (g' & r' & Hrun & Hg').
  exists g', r'. split; [exact Hrun|]. split; [exact Hg'|].
  destruct (Z_lt_le_dec (Game.round_number g) (Game.max_rounds g)) as [Hlt | Hle].
  - destruct (play_round_inv g r g' r' Hlt Hrun)
      as (m1 & a1 & r1 & m2 & p1 & p2 & _ & _ & _ & _ & _ & _ & _ & _ & Hr & _
          & Hmax & Hst & _).
    split; [exact Hmax|]. split; [intros _; split; assumption | intros; lia].
  - rewrite (play_round_at_limit g r Hle) in Hrun. inversion Hrun; subst.
    split; [reflexivity|]. split; [intros; lia | intros _; split; reflexivity].
Qed.

Lemma play_rounds_progress (n : nat) :
  forall (g : Game.t) (r : Rng),
    match_ok g ->
    (Game.round_number g <= Game.max_rounds g)%Z ->
    exists g' r',
      play_rounds n g r = Ok (g', r')
      /\ match_ok g'
      /\ Game.max_rounds g' = Game.max_rounds g
      /\ Game.round_number g'
         = Z.min (Game.round_number g + Z.of_nat n) (Game.max_rounds g)
      /\ ((Game.round_number g + Z.of_nat n <= Game.max_rounds g)%Z ->
          Game.state g' = Game.state g)
      /\ ((Game.max_rounds g < Game.round_number g + Z.of_nat n)%Z ->
          Game.state g' = RESULTS).
Proof.
  induction n as [|n IH]; intros g r Hg Hle.
  - exists g, r. split; [reflexivity|]. split; [exact Hg|].
    split; [reflexivity|]. split; [lia|]. split; [reflexivity | intros; lia].
  - destruct (play_round_progress g r Hg)
      as (g1 & r1 & Hrun & Hg1 & Hmax & Hbelow & Hat).
    assert (Hle1 : (Game.round_number g1 <= Game.max_rounds g1)%Z).
    { rewrite Hmax.
      destruct (Z_lt_le_dec (Game.round_number g) (Game.max_rounds g)) as [Hlt | Hge].
      - destruct (Hbelow Hlt) as [-> _]. lia.
      - destruct (Hat Hge) as [-> _]. exact Hle. }
    destruct (IH g1 r1 Hg1 Hle1) as (g' & r' & Hrest & Hg' & Hmax' & Hround & Hst1 & Hst2).
    exists g', r'. cbn [play_rounds]. rewrite Hrun. cbn [bind fst snd].
    split; [exact Hrest|]. split; [exact Hg'|]. split; [congruence|].
    rewrite Hmax in *.
    destruct (Z_lt_le_dec (Game.round_number g) (Game.max_rounds g)) as [Hlt | Hge].
    + destruct (Hbelow Hlt) as [Er Es]. rewrite Er in *. rewrite Es in *.
      split; [lia|]. split; intros Hn; [apply Hst1 | apply Hst2]; lia.
    + destruct (Hat Hge) as [Er Es]. rewrite Er in *.
      split; [lia|]. split; [intros; lia|]. intros _.
      destruct n as [|n].
      * cbn [play_rounds] in Hrest. inversion Hrest; subst. exact Es.
      * apply Hst2. lia.
Qed.

(** X17: a battle runs to its limit and no further. From a match in
    progress whose round number does not exceed the limit, any number n of
    [play_round] calls in a row succeeds; the round number becomes
    min(round + n, limit), the round history has that many entries, the
    state is unchanged while round + n stays within the limit and is
    RESULTS once it goes beyond. *)
Theorem play_rounds_stop_at_limit :
  forall (n : nat) (g : Game.t) (r : Rng),
    match_ok g ->
    (Game.round_number g <= Game.max_rounds g)%Z ->
    exists g' r',
      play_rounds n g r = Ok (g', r')
      /\ Game.round_number g'
         = Z.min (Game.round_number g + Z.of_nat n) (Game.max_rounds g)
      /\ Z.of_nat (length (Game.history g')) = Game.round_number g'
      /\ length (PowerfulAdaptiveAI.my_history (Game.adaptive_ai g'))
         = length (Game.history g')
      /\ ((Game.round_number g + Z.of_nat n <= Game.max_rounds g)%Z ->
          Game.state g' = Game.state g)
      /\ ((Game.max_rounds g < Game.round_number g + Z.of_nat n)%Z ->
          Game.state g' = RESULTS).
Proof.
  intros n g r Hg Hle.
  destruct (play_rounds_progress n g r Hg Hle)
    as (g' & r' & Hrun & Hg' & _ & Hround & Hst1 & Hst2).
  exists g', r'. split; [exact Hrun|]. split; [exact Hround|].
  split; [symmetry; exact (mok_round g' Hg')|].
  split; [|split; assumption].
  rewrite <- (mok_moves1 g' Hg'), length_map. reflexivity.
Qed.

Lemma play_rounds_stop_at_limit_witness :
  exists g' r',
    play_rounds 26 (Game.start_battle first_round_game) (fun _ => 0.5%Q) = Ok (g', r')
    /\ Game.round_number g' = 25%Z
    /\ Game.state g' = RESULTS.
Proof.
  destruct (play_rounds_stop_at_limit 26 (Game.start_battle first_round_game)
              (fun _ => 0.5%Q)) as (g' & r' & H1 & H2 & _ & _ & _ & H3).
  - apply start_battle_match_ok. reflexivity.
  - simpl. lia.
  - exists g', r'. split; [exact H1|]. split.
    + rewrite H2. reflexivity.
    + apply H3. simpl. lia.
Defined.

(** * Changing the opponent *)








(** * The opening of a match *)

Lemma opening_algorithms (s : PowerfulAdaptiveAI.t) (r : Rng) :
  PowerfulAdaptiveAI.opp_history s = [] ->
  PowerfulAdaptiveAI.minimax_decision s = Ok "C"
  /\ PowerfulAdaptiveAI.bayesian_decision s = Ok "C"
  /\ PowerfulAdaptiveAI.markov_prediction s = Ok "C"
  /\ PowerfulAdaptiveAI.pattern_matcher_decision s = Ok "C"
  /\ PowerfulAdaptiveAI.tit_for_tat_decision s r = Ok ("C", r)
  /\ PowerfulAdaptiveAI.fuzzy_decision s r = Ok ("C", r)
  /\ PowerfulAdaptiveAI.adaptive_decision s r = Ok ("C", s, r).
Proof.
  intros Hh.
  assert (Hm : PowerfulAdaptiveAI.minimax_decision s = Ok "C").
  { unfold PowerfulAdaptiveAI.minimax_decision. rewrite Hh. reflexivity. }
  split; [exact Hm|].
  split; [unfold PowerfulAdaptiveAI.bayesian_decision; rewrite Hh; reflexivity|].
  split; [unfold PowerfulAdaptiveAI.markov_prediction; rewrite Hh; exact Hm|].
  split; [unfold PowerfulAdaptiveAI.pattern_matcher_decision; rewrite Hh; exact Hm|].
  split; [unfold PowerfulAdaptiveAI.tit_for_tat_decision; rewrite Hh; reflexivity|].
  split; [unfold PowerfulAdaptiveAI.fuzzy_decision; rewrite Hh; reflexivity|].
  unfold PowerfulAdaptiveAI.adaptive_decision. rewrite Hh. reflexivity.
Qed.

Lemma opening_dispatch (s : PowerfulAdaptiveAI.t) (r : Rng) :
  PowerfulAdaptiveAI.opp_history s = [] ->
  PowerfulAdaptiveAI.dispatch s r = Ok ("C", s, r).
Proof.
  intros Hh.
  destruct (opening_algorithms s r Hh) as (H1 & H2 & _ & H4 & H5 & H6 & H7).
  unfold PowerfulAdaptiveAI.dispatch. cbv zeta.
  rewrite H1, H2, H4, H5, H6, H7. cbn [bind fst snd].
  repeat match goal with
         | |- context [if ?b then _ else _] => destruct b
         end; reflexivity.
Qed.

(** X19: the opening move. With no opponent move on record every one of
    the seven decision algorithms (minimax, bayesian, markov,
    pattern_matcher, tit_for_tat, fuzzy, adaptive) returns "C" without
    drawing and without changing the agent, and so does the dispatch on
    every current strategy; [decide_move] then returns "C" unless its
    override draw is below 0.01, keeps the current strategy, and raises
    the prior by the factor 1.1 (capped at 0.95). *)
Theorem opening_move_cooperates :
  forall (s : PowerfulAdaptiveAI.t) (round_num my_score opp_score : Z) (r : Rng),
    PowerfulAdaptiveAI.opp_history s = [] ->
    PowerfulAdaptiveAI.dispatch s r = Ok ("C", s, r)
    /\ (Qltb (fst (random r)) 0.01 = false ->
        exists s',
          PowerfulAdaptiveAI.decide_move s round_num my_score opp_score r
          = Ok ("C", s', snd (random r))
          /\ PowerfulAdaptiveAI.current_strategy s' = PowerfulAdaptiveAI.current_strategy s
          /\ PowerfulAdaptiveAI.bayesian_prior s'
             = Qmin 0.95 (PowerfulAdaptiveAI.bayesian_prior s * 1.1))
    /\ (PowerfulAdaptiveAI.minimax_decision s = Ok "C"
        /\ PowerfulAdaptiveAI.bayesian_decision s = Ok "C"
        /\ PowerfulAdaptiveAI.markov_prediction s = Ok "C"
        /\ PowerfulAdaptiveAI.pattern_matcher_decision s = Ok "C"
        /\ PowerfulAdaptiveAI.tit_for_tat_decision s r = Ok ("C", r)
        /\ PowerfulAdaptiveAI.fuzzy_decision s r = Ok ("C", r)
        /\ PowerfulAdaptiveAI.adaptive_decision s r = Ok ("C", s, r)).
Proof.
  intros s n a b r Hh. split; [exact (opening_dispatch s r Hh)|].
  split; [|exact (opening_algorithms s r Hh)].
  intros Hdraw. unfold PowerfulAdaptiveAI.decide_move, PowerfulAdaptiveAI.select_strategy.
  assert (Hno : PowerfulAdaptiveAI.should_analyze s n = false).
  { unfold PowerfulAdaptiveAI.should_analyze. rewrite Hh. simpl.
    rewrite andb_false_r. reflexivity. }
  rewrite Hno. cbn [bind]. unfold random in *. simpl in Hdraw. rewrite Hdraw.
  rewrite opening_dispatch by exact Hh. cbn [bind].
  eexists. split; [reflexivity|]. split; reflexivity.
Qed.

Lemma opening_move_cooperates_witness :
  (exists s',
     PowerfulAdaptiveAI.decide_move PowerfulAdaptiveAI.init 0 0 0 (fun _ => 0.5%Q)
     = Ok ("C", s', snd (random (fun _ => 0.5%Q)))
     /\ PowerfulAdaptiveAI.bayesian_prior s'
        = Qmin 0.95 (PowerfulAdaptiveAI.bayesian_prior PowerfulAdaptiveAI.init * 1.1))
  /\ PowerfulAdaptiveAI.markov_prediction PowerfulAdaptiveAI.init = Ok "C".
Proof.
  destruct (opening_move_cooperates PowerfulAdaptiveAI.init 0 0 0
              (fun _ => 0.5%Q) eq_refl) as (_ & Hmove & _ & _ & Hmarkov & _).
  split; [|exact Hmarkov].
  destruct Hmove as (s' & H1 & _ & H2); [reflexivity|].
  exists s'. split; assumption.
Defined.

